(** * vineyard bulk store: page reclaimer, payload registry, arena manager,
      wire codec

    A shallow embedding of
      - [src/server/memory/memory.cc] (namespace [memory], class [BulkStore]),
      - [src/common/util/protocols.cc] (the [Write*]/[Read*] message codec),
    and the properties of the specification that are stated about them.

    Conventions.
      - [size_t], [uintptr_t] and [ObjectID] are 64-bit unsigned integers: they
        are values of [Z] and every addition or subtraction the source performs
        on them is followed by [wrap64].
      - [int32_t]/[int] counters of the sweep line are only ever incremented
        and decremented by one per interval; they are kept in [Z] (signed
        overflow is undefined in C++ and needs 2^31 intervals).
      - A call of [madvise(addr, len, MADV_DONTNEED)] is an effect: the
        functions that issue it return the list of [(addr, len)] pairs they
        issued, in order.
      - The store is run by one thread. The accessors of the two concurrent
        hash maps are released when the function that declares them
        returns; they matter in one place, where [Delete(const ExternalID&)]
        still holds one on the entry that the [Delete] it calls erases. *)

From Stdlib Require Import ZArith List Lia Bool Sorted Ascii.
From stdpp Require Import gmap strings pretty.
Import ListNotations.
Open Scope Z_scope.

(** 64-bit unsigned wrap-around. *)
Definition wrap64 (z : Z) : Z := z mod 2 ^ 64.

(** [UINTPTR_MAX], i.e. [std::numeric_limits<uintptr_t>::max()]. *)
Definition UINTPTR_MAX : Z := 2 ^ 64 - 1.

(** ** Namespace [memory]: the page reclaimer *)

Module memory.

(** [~x] on a 64-bit unsigned value. *)
Definition bitnot64 (x : Z) : Z := wrap64 (Z.lnot x).

(** [align_up]: [(address + alignment - 1) & ~(alignment - 1)]. *)
Definition align_up (address alignment : Z) : Z :=
  Z.land (wrap64 (address + alignment - 1)) (bitnot64 (wrap64 (alignment - 1))).

(** [align_down]: [address & ~(alignment - 1)]. *)
Definition align_down (address alignment : Z) : Z :=
  Z.land address (bitnot64 (wrap64 (alignment - 1))).

(** The two-argument overload of [recycle_resident_memory]: one [madvise] call
    unless the two bounds are equal. The length is the unsigned difference. *)
Definition recycle_resident_memory_aligned (aligned_left aligned_right : Z)
  : list (Z * Z) :=
  if aligned_left =? aligned_right then []
  else [(aligned_left, wrap64 (aligned_right - aligned_left))].

(** The three-argument overload: round [base + left] up and [base + right]
    down to the page size, then call the overload above. *)
Definition recycle_resident_memory (page_size base left right : Z)
  : list (Z * Z) :=
  let aligned_left := align_up (wrap64 (base + left)) page_size in
  let aligned_right := align_down (wrap64 (base + right)) page_size in
  recycle_resident_memory_aligned aligned_left aligned_right.

(** [std::map<size_t, int32_t>]: an association list kept in increasing key
    order. [points_assign k v] is [points[k] = v], [points_add k d] is
    [points[k] += d]; both create the entry (value-initialised to 0) when the
    key is absent. *)
Fixpoint points_assign (k v : Z) (points : list (Z * Z)) : list (Z * Z) :=
  match points with
  | [] => [(k, v)]
  | (k', v') :: rest =>
      if k <? k' then (k, v) :: points
      else if k =? k' then (k', v) :: rest
      else (k', v') :: points_assign k v rest
  end.

Fixpoint points_add (k d : Z) (points : list (Z * Z)) : list (Z * Z) :=
  match points with
  | [] => [(k, 0 + d)]
  | (k', v') :: rest =>
      if k <? k' then (k, 0 + d) :: points
      else if k =? k' then (k', v' + d) :: rest
      else (k', v') :: points_add k d rest
  end.

(** The [for] loop of [recycle_arena]. Reading [sizes[idx]] past the end of
    [sizes] is undefined: [None]. *)
Fixpoint mark_points (offsets sizes : list Z) (points : list (Z * Z))
  : option (list (Z * Z)) :=
  match offsets, sizes with
  | [], _ => Some points
  | _ :: _, [] => None
  | o :: offsets', n :: sizes' =>
      mark_points offsets' sizes'
        (points_add (wrap64 (o + n)) (-1) (points_add o 1 points))
  end.

(** The [while (true)] loop of [recycle_arena], from [head] on, with the
    running [markersum]. [recycle left right] is what the loop does with an
    untouched interval; its effects are concatenated. *)
Fixpoint sweep {A : Type} (recycle : Z -> Z -> list A) (markersum : Z)
  (points : list (Z * Z)) : list A :=
  match points with
  | [] => []
  | (head, marker) :: rest =>
      let markersum := markersum + marker in
      match rest with
      | [] => []
      | (next, _) :: _ =>
          (if markersum =? 0 then recycle head next else [])
            ++ sweep recycle markersum rest
      end
  end.

(** The boundary points [recycle_arena] builds before it walks them. *)
Definition arena_points (size : Z) (offsets sizes : list Z)
  : option (list (Z * Z)) :=
  mark_points offsets sizes (points_assign size 0 (points_assign 0 0 [])).

(** [recycle_arena]: the [madvise] calls issued. *)
Definition recycle_arena (page_size base size : Z) (offsets sizes : list Z)
  : option (list (Z * Z)) :=
  match arena_points size offsets sizes with
  | Some points =>
      Some (sweep (recycle_resident_memory page_size base) 0 points)
  | None => None
  end.

(** The [(left, right)] pairs [recycle_arena] hands to
    [recycle_resident_memory(base, left, right)], in order. *)
Definition recycle_arena_ranges (size : Z) (offsets sizes : list Z)
  : option (list (Z * Z)) :=
  match arena_points size offsets sizes with
  | Some points => Some (sweep (fun left right => [(left, right)]) 0 points)
  | None => None
  end.

End memory.

(** ** Status

    [common/util/status.h] is not part of the sources. A [Status] is kept as
    its kind; the human-readable message built by the factory functions
    ([Status::NotEnoughMemory(msg)], ...) is dropped. [Remote code message] is
    [Status(static_cast<StatusCode>(code), message)], the status the codec
    rebuilds from an error reply; code 0 is [StatusCode::kOK]. *)
Inductive Status : Type :=
| OK
| NotEnoughMemory
| ObjectNotExists
| UserInputError
| Invalid
| AssertionFailed
| Remote (code : Z) (message : string).

Definition Status_ok (st : Status) : bool :=
  match st with
  | OK => true
  | Remote code _ => code =? 0
  | _ => false
  end.

(** ** Class [BulkStore] *)

(** [ObjectID] is [uint64_t]; [ExternalID] is a string key whose
    value-initialisation [{}] is the empty string (both are declared in
    [common/util/uuid.h]). *)
Abbreviation ObjectID := Z (only parsing).
Abbreviation ExternalID := string (only parsing).
Definition ExternalID_default : ExternalID := EmptyString.

(** The fields of [struct Payload] ([common/memory/payload.h]). *)
Record Payload : Type := mkPayload {
  object_id : ObjectID;
  external_id : ExternalID;
  data_size : Z;
  external_size : Z;
  pointer : Z;
  store_fd : Z;
  arena_fd : Z;
  payload_map_size : Z;
  data_offset : Z
}.

(** [struct BulkStore::Arena]. *)
Record Arena : Type := mkArena {
  Arena_fd : Z;
  Arena_size : Z;
  Arena_base : Z
}.

(** What [memory.cc] uses from headers that are not part of the sources.
    The process-wide state those headers own (the statics of [BulkAllocator],
    [memory::mmap_records], the kernel's descriptor table and address space)
    is the abstract type [world]; every function that reads or changes it
    takes it and returns it. A null pointer is 0. *)
Class Deps : Type := {
  (* common/util/uuid.h *)
  EmptyBlobID : ObjectID;
  GenerateBlobID : Z -> ObjectID;
  (* sysconf(_SC_PAGESIZE) *)
  system_page_size : Z;
  world : Type;
  (* server/memory/allocator.h: BulkAllocator *)
  BulkAllocator_SetFootprintLimit : world -> Z -> world;
  BulkAllocator_Init : world -> Z -> Z * world;
  BulkAllocator_Memalign : world -> Z -> Z -> Z * world;
  BulkAllocator_Free : world -> Z -> Z -> world;
  BulkAllocator_Allocated : world -> Z;
  BulkAllocator_GetFootprintLimit : world -> Z;
  (* server/memory/malloc.h *)
  kBlockSize : Z;
  GetMallocMapinfo : world -> Z -> Z * Z * Z;       (* fd, map_size, offset *)
  create_buffer : world -> Z -> Z * world;
  mmap_records_set : world -> Z -> Z -> Z -> world; (* base, fd, size *)
  (* mmap(NULL, size, PROT_READ | PROT_WRITE, MAP_SHARED, fd, 0) *)
  mmap_shared : world -> Z -> Z -> Z * world;
  (* common/memory/payload.h: the two constructors memory.cc calls *)
  Payload_blob : ObjectID -> Z -> Z -> Z -> Z -> Z -> Payload;
  Payload_external :
    ObjectID -> ExternalID -> Z -> Z -> Z -> Z -> Z -> Z -> Payload
}.

(** Modelled from the spec: [Payload::MakeEmpty()] is declared in
    [common/memory/payload.h], which is not part of the sources. The spec's
    data model describes it as the canonical instance of the zero-size blob:
    data size 0, identified by the empty sentinel, never stored in the
    registry and backed by no memory. *)
Definition Payload_MakeEmpty `{Deps} : Payload :=
  {| object_id := EmptyBlobID;
     external_id := ExternalID_default;
     data_size := 0;
     external_size := 0;
     pointer := 0;
     store_fd := -1;
     arena_fd := -1;
     payload_map_size := 0;
     data_offset := 0 |}.

Module BulkStore.

(** The members of [BulkStore], the static [Arena::spans], the state of the
    missing headers, and the trace of [madvise] calls issued so far. *)
Record t `{Deps} : Type := mk {
  world_ : world;
  objects_ : gmap Z Payload;
  externals_ : gmap string Payload;
  arenas_ : gmap Z Arena;
  spans : gset Z;
  madvised : list (Z * Z)
}.

Section Operations.
Context `{D : Deps}.

(** [m.emplace(k, v)]: inserts only when [k] is not yet a key. *)
Definition emplace `{Countable K} {V : Type} (k : K) (v : V) (m : gmap K V)
  : gmap K V :=
  match m !! k with
  | Some _ => m
  | None => <[k := v]> m
  end.

(** The id [PreAllocate] registers and [Delete] skips. *)
Definition WholeRegionID : ObjectID := GenerateBlobID UINTPTR_MAX.

Definition PreAllocate (s : t) (size : Z) : Status * t :=
  let w := BulkAllocator_SetFootprintLimit (world_ s) size in
  let '(pointer, w) := BulkAllocator_Init w size in
  if pointer =? 0 then
    (NotEnoughMemory,
     mk _ w (objects_ s) (externals_ s) (arenas_ s) (spans s) (madvised s))
  else
    let object_id := WholeRegionID in
    let '(fd, map_size, offset) := GetMallocMapinfo w pointer in
    (OK,
     mk _ w
        (emplace object_id
           (Payload_blob object_id size pointer fd map_size offset)
           (objects_ s))
        (externals_ s) (arenas_ s) (spans s) (madvised s)).

(** [AllocateMemory]: pointer, fd, map_size, offset, and the new world. *)
Definition AllocateMemory (w : world) (size fd map_size offset : Z)
  : Z * (Z * Z * Z) * world :=
  let '(pointer, w) := BulkAllocator_Memalign w size kBlockSize in
  if pointer =? 0 then (pointer, (fd, map_size, offset), w)
  else (pointer, GetMallocMapinfo w pointer, w).

(** [Create(data_size, external_id, external_size, object_id, object)]. The
    reference parameters [object_id] and [object] are returned as [Some] when
    the function assigns them. *)
Definition Create (s : t) (data_size : Z) (external_id : ExternalID)
  (external_size : Z) : Status * option (ObjectID * Payload) * t :=
  if data_size =? 0 then
    (OK, Some (EmptyBlobID, Payload_MakeEmpty), s)
  else
    let '(pointer, (fd, map_size, offset), w) :=
      AllocateMemory (world_ s) data_size (-1) 0 0 in
    if pointer =? 0 then
      (NotEnoughMemory, None,
       mk _ w (objects_ s) (externals_ s) (arenas_ s) (spans s) (madvised s))
    else
      let object_id := GenerateBlobID pointer in
      let object :=
        Payload_external object_id external_id data_size pointer fd map_size
          offset external_size in
      (OK, Some (object_id, object),
       mk _ w
          (emplace object_id object (objects_ s))
          (emplace external_id object (externals_ s))
          (arenas_ s) (spans s) (madvised s)).

(** [Create(data_size, object_id, object)]: no external id is supplied. *)
Definition Create_plain (s : t) (data_size : Z)
  : Status * option (ObjectID * Payload) * t :=
  Create s data_size ExternalID_default 0.

Definition Get (s : t) (id : ObjectID) : Status * option Payload :=
  if id =? EmptyBlobID then (OK, Some Payload_MakeEmpty)
  else
    match objects_ s !! id with
    | Some object => (OK, Some object)
    | None => (ObjectNotExists, None)
    end.

(** [Get(ids, objects)]: the payloads pushed onto [objects]. *)
Fixpoint Get_ids (s : t) (ids : list ObjectID) (objects : list Payload)
  : Status * list Payload :=
  match ids with
  | [] => (OK, objects)
  | object_id :: ids' =>
      if object_id =? EmptyBlobID then
        Get_ids s ids' (objects ++ [Payload_MakeEmpty])
      else
        match objects_ s !! object_id with
        | Some object => Get_ids s ids' (objects ++ [object])
        | None => Get_ids s ids' objects
        end
  end.

Fixpoint Get_eids (s : t) (eids : list ExternalID) (objects : list Payload)
  : Status * list Payload :=
  match eids with
  | [] => (OK, objects)
  | object_id :: eids' =>
      match externals_ s !! object_id with
      | Some object => Get_eids s eids' (objects ++ [object])
      | None => Get_eids s eids' objects
      end
  end.

(** Iterators of the ordered set [Arena::spans], for
    [iter = spans.find(object_id)]. When [object_id] is not a member, [iter]
    is [end()]. [spans_prev] is [std::prev(iter)], with [None] when
    [iter == begin()]: the greatest member below [object_id], or the greatest
    member of all for [end()]. [spans_next] is [std::next(iter)] for a member,
    with [None] when it is [end()]. *)
Definition greatest (l : list Z) : option Z :=
  foldr (fun x acc => Some (match acc with Some y => Z.max x y | None => x end))
        None l.

Definition least (l : list Z) : option Z :=
  foldr (fun x acc => Some (match acc with Some y => Z.min x y | None => x end))
        None l.

Definition spans_prev (object_id : ObjectID) (sp : gset Z) : option ObjectID :=
  if decide (object_id ∈ sp) then
    greatest (List.filter (fun x => x <? object_id) (elements sp))
  else greatest (elements sp).

Definition spans_next (object_id : ObjectID) (sp : gset Z) : option ObjectID :=
  least (List.filter (fun x => object_id <? x) (elements sp)).

(** The result of the block of [Delete] that looks at the neighbours of an
    arena blob: the two bounds, an early [return] with a status, or undefined
    behaviour ([std::next] of [end()]). *)
Inductive bounds : Type :=
| Bounds (lower_bound upper_bound : Z)
| BoundsError (st : Status)
| BoundsUndefined.

Definition arena_bounds (s : t) (object_id : ObjectID) (lower upper : Z)
  : bounds :=
  let page_size := system_page_size in
  let lower_bound :=
    match spans_prev object_id (spans s) with
    | None => Some lower
    | Some iter_prev =>
        match objects_ s !! iter_prev with
        | None => None
        | Some object_prev =>
            Some (memory.align_up
                    (wrap64 (pointer object_prev + data_size object_prev))
                    page_size)
        end
    end in
  match lower_bound with
  | None => BoundsError Invalid
  | Some lower_bound =>
      if decide (object_id ∈ spans s) then
        match spans_next object_id (spans s) with
        | None => Bounds lower_bound upper
        | Some iter_next =>
            match objects_ s !! iter_next with
            | None => BoundsError Invalid
            | Some object_next =>
                Bounds lower_bound
                  (memory.align_down (pointer object_next) page_size)
            end
        end
      else BoundsUndefined
  end.

(** [Delete(const ObjectID&)]. [None]: undefined behaviour. *)
Definition Delete (s : t) (object_id : ObjectID) : option (Status * t) :=
  if (object_id =? EmptyBlobID) || (object_id =? WholeRegionID) then
    Some (OK, s)
  else
    match objects_ s !! object_id with
    | None => Some (ObjectNotExists, s)
    | Some object =>
        let external_id := external_id object in
        let erased w calls :=
          Some (OK,
                mk _ w (delete object_id (objects_ s))
                   (delete external_id (externals_ s))
                   (arenas_ s) (spans s) (madvised s ++ calls)) in
        if arena_fd object =? -1 then
          erased (BulkAllocator_Free (world_ s) (pointer object)
                    (data_size object)) []
        else
          let page_size := system_page_size in
          let lower := memory.align_down (pointer object) page_size in
          let upper := memory.align_up (pointer object) page_size in
          match arena_bounds s object_id lower upper with
          | BoundsUndefined => None
          | BoundsError st => Some (st, s)
          | Bounds lower_bound upper_bound =>
              if Z.max lower lower_bound <? Z.min upper upper_bound then
                erased (world_ s)
                  (memory.recycle_resident_memory_aligned
                     (Z.max lower lower_bound) (Z.min upper upper_bound))
              else erased (world_ s) []
          end
    end.

(** The external id whose entry of [externals_] a [Delete(object_id)] that
    gets past its early returns looks up and erases at its end: the one
    stored in the payload registered under [object_id]. *)
Definition erased_external (s : t) (object_id : ObjectID)
  : option ExternalID :=
  if (object_id =? EmptyBlobID) || (object_id =? WholeRegionID) then None
  else external_id <$> objects_ s !! object_id.

(** [Delete(const ExternalID&)]. Its [const_accessor] stays on the entry of
    [external_id] while the nested [Delete(object_id)] runs. An accessor of
    [tbb::concurrent_hash_map] locks its entry, and [erase] through an
    accessor needs the entry for itself alone: it waits until every other
    accessor on the entry is released (the spec calls the accessors
    exclusive locks scoped to the entry). So when the nested call gets to
    its end and erases the entry of this same external id, it waits for the
    accessor of its caller for ever and the call does not return: [None].
    The nested call returns its status when it returns early (a reserved id,
    an id that is not registered, an internal state error) or when the
    payload registered under [object_id] stores another external id.
    [None] also stands for undefined behaviour in the nested call. *)
Definition Delete_external (s : t) (external_id : ExternalID)
  : option (Status * t) :=
  match externals_ s !! external_id with
  | Some object =>
      match Delete s (object_id object) with
      | Some (OK, s') =>
          if bool_decide
               (erased_external s (object_id object) = Some external_id)
          then None
          else Some (OK, s')
      | r => r
      end
  | None => Some (OK, s)
  end.

Definition Exists (s : t) (object_id : ObjectID) : bool :=
  bool_decide (is_Some (objects_ s !! object_id)).

Definition Exists_external (s : t) (object_id : ExternalID) : bool :=
  bool_decide (is_Some (externals_ s !! object_id)).

Definition Footprint (s : t) : Z := BulkAllocator_Allocated (world_ s).

Definition FootprintLimit (s : t) : Z :=
  BulkAllocator_GetFootprintLimit (world_ s).

(** [MakeArena(size, fd, base)]: [fd] is always assigned, [base] only when a
    descriptor was obtained. *)
Definition MakeArena (s : t) (size : Z) : Status * (Z * option Z) * t :=
  let '(fd, w) := create_buffer (world_ s) size in
  if fd =? -1 then
    (NotEnoughMemory, (fd, None),
     mk _ w (objects_ s) (externals_ s) (arenas_ s) (spans s) (madvised s))
  else
    let '(space, w) := mmap_shared w size fd in
    (OK, (fd, Some space),
     mk _ w (objects_ s) (externals_ s)
        (emplace fd (mkArena fd size space) (arenas_ s))
        (spans s) (madvised s)).

(** The first loop of [FinalizeArena]: registers one blob per index. *)
Fixpoint finalize_blobs (fd mmap_size mmap_base : Z) (offsets sizes : list Z)
  (objects : gmap Z Payload) (sp : gset Z)
  : option (gmap Z Payload * gset Z) :=
  match offsets, sizes with
  | [], _ => Some (objects, sp)
  | _ :: _, [] => None
  | o :: offsets', n :: sizes' =>
      let pointer := wrap64 (mmap_base + o) in
      let object_id := GenerateBlobID pointer in
      finalize_blobs fd mmap_size mmap_base offsets' sizes'
        (emplace object_id (Payload_blob object_id n pointer fd mmap_size o)
           objects)
        ({[object_id]} ∪ sp)
  end.

(** [FinalizeArena(fd, offsets, sizes)]. [None]: undefined behaviour (an
    out-of-range read of [sizes], which the length check excludes). *)
Definition FinalizeArena (s : t) (fd : Z) (offsets sizes : list Z)
  : option (Status * t) :=
  match arenas_ s !! fd with
  | None => Some (ObjectNotExists, s)
  | Some arena =>
      if negb (length offsets =? length sizes)%nat then
        Some (UserInputError, s)
      else
        let mmap_size := Arena_size arena in
        let mmap_base := Arena_base arena in
        match finalize_blobs fd mmap_size mmap_base offsets sizes
                (objects_ s) (spans s),
              memory.recycle_arena system_page_size mmap_base mmap_size
                offsets sizes with
        | Some (objects, sp), Some calls =>
            Some (OK,
                  mk _ (mmap_records_set (world_ s) mmap_base fd mmap_size)
                     objects (externals_ s) (delete fd (arenas_ s)) sp
                     (madvised s ++ calls))
        | _, _ => None
        end
  end.

(** [~BulkStore()]: [Delete] on every id collected from [objects_], with the
    statuses discarded. The order in which the concurrent hash map is
    iterated is not specified; [object_ids] is the vector the first loop has
    built. [None]: undefined behaviour in one of the calls. *)
Fixpoint discard_deletes (s : t) (object_ids : list ObjectID) : option t :=
  match object_ids with
  | [] => Some s
  | item :: object_ids' =>
      match Delete s item with
      | Some (_, s') => discard_deletes s' object_ids'
      | None => None
      end
  end.

(** A store on which no operation has run yet. *)
Definition init (w : world) : t := mk _ w ∅ ∅ ∅ ∅ [].

(** The operations a client can request, and the state after each; [None]
    when the operation returns no state (undefined behaviour, or a call that
    does not return). *)
Inductive op : Type :=
| OpPreAllocate (size : Z)
| OpCreate (data_size : Z) (external_id : ExternalID) (external_size : Z)
| OpGet (id : ObjectID)
| OpGetIds (ids : list ObjectID)
| OpGetEids (eids : list ExternalID)
| OpDelete (id : ObjectID)
| OpDeleteExternal (external_id : ExternalID)
| OpExists (id : ObjectID)
| OpExistsExternal (external_id : ExternalID)
| OpMakeArena (size : Z)
| OpFinalizeArena (fd : Z) (offsets sizes : list Z).

Definition exec (o : op) (s : t) : option t :=
  match o with
  | OpPreAllocate size => Some (snd (PreAllocate s size))
  | OpCreate data_size external_id external_size =>
      Some (snd (Create s data_size external_id external_size))
  | OpGet _ | OpGetIds _ | OpGetEids _ | OpExists _ | OpExistsExternal _ =>
      Some s
  | OpDelete id => snd <$> Delete s id
  | OpDeleteExternal external_id => snd <$> Delete_external s external_id
  | OpMakeArena size => Some (snd (MakeArena s size))
  | OpFinalizeArena fd offsets sizes => snd <$> FinalizeArena s fd offsets sizes
  end.

Fixpoint run (ops : list op) (s : t) : option t :=
  match ops with
  | [] => Some s
  | o :: ops' =>
      match exec o s with
      | Some s' => run ops' s'
      | None => None
      end
  end.

(** A state some sequence of operations leads to from a fresh store. *)
Definition reachable (s : t) : Prop :=
  exists (w : world) (ops : list op), run ops (init w) = Some s.

(** The invariant the data model states for [Arena::spans]. *)
Definition spans_registered (s : t) : Prop :=
  forall id : ObjectID, id ∈ spans s -> is_Some (objects_ s !! id).

End Operations.
End BulkStore.

(** ** The wire codec ([common/util/protocols.cc])

    The messages are JSON documents of the nlohmann library. The codec only
    uses the operations below; they follow the library's documented behaviour.
    Floating-point numbers are left out: no function of the codec writes or
    reads one. *)

Module json.

#[warnings="-register-all"]
Inductive t : Type :=
| null
| boolean (b : bool)
| number_integer (z : Z)
| number_unsigned (z : Z)
| str (s : string)
| array (l : list t)
| object (m : gmap string t).

(** [root[key] = v] on a non-const document: a [null] document becomes an
    object first. On any other non-object the library raises an error; the
    codec never does that, its roots start out [null]. *)
Definition set (key : string) (v : t) (root : t) : t :=
  match root with
  | null => object {[ key := v ]}
  | object m => object (<[ key := v ]> m)
  | _ => root
  end.

(** [j.contains(key)]. *)
Definition contains (root : t) (key : string) : bool :=
  match root with
  | object m => bool_decide (is_Some (m !! key))
  | _ => false
  end.

(** [j == "literal"]. *)
Definition eq_string (j : t) (s : string) : bool :=
  match j with
  | str s' => bool_decide (s' = s)
  | _ => false
  end.

(** [j.size()]. *)
Definition size (j : t) : nat :=
  match j with
  | null => 0%nat
  | array l => length l
  | object m => base.size m
  | _ => 1%nat
  end.

(** [*j.begin()] for a document of size 1: its only member, or the document
    itself when it is a primitive value. *)
Definition only (j : t) : option t :=
  match j with
  | null => None
  | array [x] => Some x
  | array _ => None
  | object m =>
      match map_to_list m with
      | [(_, x)] => Some x
      | _ => None
      end
  | _ => Some j
  end.

End json.

(** What a [Read*] function does: it returns [Status::OK()] after assigning
    its reference parameters ([Ok] with the values assigned), returns another
    status ([Error]), or is left through an exception or a failed assertion of
    the JSON library ([Throw]): a type error of [get], or [operator[]] of a
    const document at a missing key. *)
Inductive result (A : Type) : Type :=
| Ok (a : A)
| Error (st : Status)
| Throw.
Arguments Ok {A} a.
Arguments Error {A} st.
Arguments Throw {A}.

Definition result_bind {A B : Type} (r : result A) (k : A -> result B)
  : result B :=
  match r with
  | Ok a => k a
  | Error st => Error st
  | Throw => Throw
  end.

Notation "'let*' x := r 'in' k" := (result_bind r (fun x => k))
  (at level 10, x pattern, r at level 100, k at level 200).

(** Conversions between C++ integer types: [static_cast] to [int],
    [int64_t] and the 64-bit unsigned types. *)
Definition to_signed (bits : Z) (z : Z) : Z :=
  (z + 2 ^ (bits - 1)) mod 2 ^ bits - 2 ^ (bits - 1).
Definition to_int (z : Z) : Z := to_signed 32 z.
Definition to_int64 (z : Z) : Z := to_signed 64 z.

Definition is_int (z : Z) : Prop := - 2 ^ 31 <= z < 2 ^ 31.
Definition is_int64 (z : Z) : Prop := - 2 ^ 63 <= z < 2 ^ 63.
Definition is_uint64 (z : Z) : Prop := 0 <= z < 2 ^ 64.

Module codec.
Section Codec.

(** [vineyard_version()] of [common/util/version.h]. *)
Variable vineyard_version : string.

(** [Payload::ToJSON] of [common/memory/payload.h]: the document
    [object->ToJSON(tree)] leaves in a fresh [json tree]. *)
Variable Payload_ToJSON : Payload -> json.t.

(** [root[key]] on a [const json&]. *)
Definition at_key (root : json.t) (key : string) : result json.t :=
  match root with
  | json.object m =>
      match m !! key with
      | Some v => Ok v
      | None => Throw
      end
  | _ => Throw
  end.

(** [j.get<T>()] for the types the codec reads. [size_t], [uintptr_t],
    [ObjectID], [InstanceID] and [Signature] are all [uint64_t]. *)
Definition get_uint64 (j : json.t) : result Z :=
  match j with
  | json.number_unsigned z | json.number_integer z => Ok (wrap64 z)
  | _ => Throw
  end.

Definition get_int64 (j : json.t) : result Z :=
  match j with
  | json.number_unsigned z | json.number_integer z => Ok (to_int64 z)
  | _ => Throw
  end.

Definition get_int (j : json.t) : result Z :=
  match j with
  | json.number_unsigned z | json.number_integer z => Ok (to_int z)
  | json.boolean b => Ok (if b then 1 else 0)
  | _ => Throw
  end.

Definition get_bool (j : json.t) : result bool :=
  match j with
  | json.boolean b => Ok b
  | _ => Throw
  end.

(** [get<std::string>()], [get_ref<std::string const&>()],
    [get<ExternalID>()]. *)
Definition get_string (j : json.t) : result string :=
  match j with
  | json.str s => Ok s
  | _ => Throw
  end.

Fixpoint get_each {A : Type} (get : json.t -> result A) (l : list json.t)
  : result (list A) :=
  match l with
  | [] => Ok []
  | j :: l' =>
      let* x := get j in
      let* xs := get_each get l' in
      Ok (x :: xs)
  end.

(** [get<std::vector<T>>()] and [get_to(vector)]. *)
Definition get_vector {A : Type} (get : json.t -> result A) (j : json.t)
  : result (list A) :=
  match j with
  | json.array l => get_each get l
  | _ => Throw
  end.

(** [root.value(key, default_value)]. *)
Definition value {A : Type} (get : json.t -> result A) (root : json.t)
  (key : string) (default_value : A) : result A :=
  match root with
  | json.object m =>
      match m !! key with
      | Some v => get v
      | None => Ok default_value
      end
  | _ => Throw
  end.

(** [json(std::vector<uint64_t>)]. *)
Definition of_uint64s (l : list Z) : json.t :=
  json.array (map json.number_unsigned l).

(** [RETURN_ON_ASSERT(root["type"] == type)], followed by [k]. *)
Definition ASSERT_type {A : Type} (root : json.t) (type : string)
  (k : result A) : result A :=
  let* tag := at_key root "type" in
  if json.eq_string tag type then k else Error AssertionFailed.

(** The macro [CHECK_IPC_ERROR(root, type)], followed by [k]. *)
Definition CHECK_IPC_ERROR {A : Type} (root : json.t) (type : string)
  (k : result A) : result A :=
  if json.contains root "code" then
    let* code := value get_int root "code" 0 in
    let* message := value get_string root "message" "" in
    let st := Remote code message in
    if negb (Status_ok st) then Error st else ASSERT_type root type k
  else ASSERT_type root type k.

(** [encode_msg]: [msg = json_to_string(root)]. The serialiser and the parser
    that hands the [Read*] functions their [const json& root] belong to
    [common/util/json.h] and the JSON library; a message is kept as the
    document that is written to the wire. The text of a document does not
    tell an unsigned number from an integer that is not negative; the typed
    getters above treat the two alike. *)
Definition encode_msg (root : json.t) : json.t := root.

(** [root[std::to_string(idx++)] = item] for every item, from [idx] on. *)
Fixpoint set_indexed {A : Type} (conv : A -> json.t) (idx : Z)
  (items : list A) (root : json.t) : json.t :=
  match items with
  | [] => root
  | item :: items' =>
      set_indexed conv (idx + 1) items' (json.set (pretty idx) (conv item) root)
  end.

(** [for (i = ...; i < num; ++i)
      out.push_back(root[std::to_string(i)].get<T>())]
    with [count] iterations left. *)
Fixpoint read_indexed {A : Type} (get : json.t -> result A) (root : json.t)
  (i : Z) (count : nat) (out : list A) : result (list A) :=
  match count with
  | O => Ok out
  | S count' =>
      let* v := at_key root (pretty i) in
      let* x := get v in
      read_indexed get root (i + 1) count' (out ++ [x])
  end.

Definition WriteRegisterRequest : json.t :=
  let root := json.null in
  let root := json.set "type" (json.str "register_request") root in
  let root := json.set "version" (json.str vineyard_version) root in
  encode_msg root.

Definition ReadRegisterRequest (root : json.t) : result string :=
  ASSERT_type root "register_request" (
    let* version := value get_string root "version" "0.0.0" in
    Ok version).

Definition WriteRegisterReply (ipc_socket rpc_endpoint : string)
  (instance_id : Z) : json.t :=
  let root := json.null in
  let root := json.set "type" (json.str "register_reply") root in
  let root := json.set "ipc_socket" (json.str ipc_socket) root in
  let root := json.set "rpc_endpoint" (json.str rpc_endpoint) root in
  let root := json.set "instance_id" (json.number_unsigned instance_id) root in
  let root := json.set "version" (json.str vineyard_version) root in
  encode_msg root.

Definition ReadRegisterReply (root : json.t)
  : result (string * string * Z * string) :=
  CHECK_IPC_ERROR root "register_reply" (
    let* ipc_socket := result_bind (at_key root "ipc_socket") get_string in
    let* rpc_endpoint := result_bind (at_key root "rpc_endpoint") get_string in
    let* instance_id := result_bind (at_key root "instance_id") get_uint64 in
    let* version := value get_string root "version" "0.0.0" in
    Ok (ipc_socket, rpc_endpoint, instance_id, version)).

Definition WriteExitRequest : json.t :=
  let root := json.null in
  let root := json.set "type" (json.str "exit_request") root in
  encode_msg root.

(** [WriteGetDataRequest(const ObjectID id, ...)]. *)
Definition WriteGetDataRequest_one (id : Z) (sync_remote wait : bool)
  : json.t :=
  let root := json.null in
  let root := json.set "type" (json.str "get_data_request") root in
  let root := json.set "id" (of_uint64s [id]) root in
  let root := json.set "sync_remote" (json.boolean sync_remote) root in
  let root := json.set "wait" (json.boolean wait) root in
  encode_msg root.

Definition WriteGetDataRequest (ids : list Z) (sync_remote wait : bool)
  : json.t :=
  let root := json.null in
  let root := json.set "type" (json.str "get_data_request") root in
  let root := json.set "id" (of_uint64s ids) root in
  let root := json.set "sync_remote" (json.boolean sync_remote) root in
  let root := json.set "wait" (json.boolean wait) root in
  encode_msg root.

Definition ReadGetDataRequest (root : json.t)
  : result (list Z * bool * bool) :=
  ASSERT_type root "get_data_request" (
    let* ids := result_bind (at_key root "id") (get_vector get_uint64) in
    let* sync_remote := value get_bool root "sync_remote" false in
    let* wait := value get_bool root "wait" false in
    Ok (ids, sync_remote, wait)).

Definition WriteGetDataReply (content : json.t) : json.t :=
  let root := json.null in
  let root := json.set "type" (json.str "get_data_reply") root in
  let root := json.set "content" content root in
  encode_msg root.

(** [ReadGetDataReply(const json& root, json& content)]. *)
Definition ReadGetDataReply (root : json.t) : result json.t :=
  CHECK_IPC_ERROR root "get_data_reply" (
    let* content_group := at_key root "content" in
    if negb (json.size content_group =? 1)%nat then Error ObjectNotExists
    else
      match json.only content_group with
      | Some content => Ok content
      | None => Throw
      end).

Definition WriteListDataRequest (pattern : string) (regex : bool) (limit : Z)
  : json.t :=
  let root := json.null in
  let root := json.set "type" (json.str "list_data_request") root in
  let root := json.set "pattern" (json.str pattern) root in
  let root := json.set "regex" (json.boolean regex) root in
  let root := json.set "limit" (json.number_unsigned limit) root in
  encode_msg root.

Definition ReadListDataRequest (root : json.t) : result (string * bool * Z) :=
  ASSERT_type root "list_data_request" (
    let* pattern := result_bind (at_key root "pattern") get_string in
    let* regex := value get_bool root "regex" false in
    let* limit := result_bind (at_key root "limit") get_uint64 in
    Ok (pattern, regex, limit)).

Definition WriteCreateBufferRequest (size : Z) (external_id : ExternalID)
  (external_size : Z) : json.t :=
  let root := json.null in
  let root := json.set "type" (json.str "create_buffer_request") root in
  let root := json.set "size" (json.number_unsigned size) root in
  let root := json.set "external_size"
                (json.number_unsigned external_size) root in
  let root := json.set "external_id" (json.str external_id) root in
  encode_msg root.

Definition ReadCreateBufferRequest (root : json.t)
  : result (Z * ExternalID * Z) :=
  ASSERT_type root "create_buffer_request" (
    let* size := result_bind (at_key root "size") get_uint64 in
    let* external_id := result_bind (at_key root "external_id") get_string in
    let* external_size :=
      result_bind (at_key root "external_size") get_uint64 in
    Ok (size, external_id, external_size)).

Definition WriteCreateBufferReply (id : Z) (object : Payload) : json.t :=
  let root := json.null in
  let root := json.set "type" (json.str "create_buffer_reply") root in
  let root := json.set "id" (json.number_unsigned id) root in
  let tree := Payload_ToJSON object in
  let root := json.set "created" tree root in
  encode_msg root.

Definition WriteCreateRemoteBufferRequest (size : Z) : json.t :=
  let root := json.null in
  let root := json.set "type" (json.str "create_remote_buffer_request") root in
  let root := json.set "size" (json.number_unsigned size) root in
  encode_msg root.

Definition ReadCreateRemoteBufferRequest (root : json.t) : result Z :=
  ASSERT_type root "create_remote_buffer_request" (
    let* size := result_bind (at_key root "size") get_uint64 in
    Ok size).

(** [WriteGetBuffersRequest(const std::set<ObjectID>& ids, ...)]: [ids] lists
    the members in the order the set is iterated. *)
Definition WriteGetBuffersRequest (ids : list Z) : json.t :=
  let root := json.null in
  let root := json.set "type" (json.str "get_buffers_request") root in
  let root := set_indexed json.number_unsigned 0 ids root in
  let root := json.set "num"
                (json.number_unsigned (Z.of_nat (length ids))) root in
  encode_msg root.

(** [ids] is the vector passed in; the decoded ids are pushed onto it. *)
Definition ReadGetBuffersRequest (root : json.t) (ids : list Z)
  : result (list Z) :=
  ASSERT_type root "get_buffers_request" (
    let* num := result_bind (at_key root "num") get_uint64 in
    read_indexed get_uint64 root 0 (Z.to_nat num) ids).

Definition WriteGetBuffersByExternalRequest (eids : list ExternalID) : json.t :=
  let root := json.null in
  let root := json.set "type"
                (json.str "get_buffers_by_external_request") root in
  let root := set_indexed json.str 0 eids root in
  let root := json.set "num"
                (json.number_unsigned (Z.of_nat (length eids))) root in
  encode_msg root.

Definition ReadGetBuffersByExternalRequest (root : json.t)
  (eids : list ExternalID) : result (list ExternalID) :=
  ASSERT_type root "get_buffers_by_external_request" (
    let* num := result_bind (at_key root "num") get_uint64 in
    read_indexed get_string root 0 (Z.to_nat num) eids).

Definition WriteGetBuffersReply (objects : list Payload) : json.t :=
  let root := json.null in
  let root := json.set "type" (json.str "get_buffers_reply") root in
  let root := set_indexed Payload_ToJSON 0 objects root in
  let root := json.set "num"
                (json.number_unsigned (Z.of_nat (length objects))) root in
  encode_msg root.

(** [WriteGetRemoteBuffersRequest(const std::unordered_set<ObjectID>&, ...)]:
    [ids] lists the members in the order the set is iterated. *)
Definition WriteGetRemoteBuffersRequest (ids : list Z) : json.t :=
  let root := json.null in
  let root := json.set "type" (json.str "get_remote_buffers_request") root in
  let root := set_indexed json.number_unsigned 0 ids root in
  let root := json.set "num"
                (json.number_unsigned (Z.of_nat (length ids))) root in
  encode_msg root.

Definition ReadGetRemoteBuffersRequest (root : json.t) (ids : list Z)
  : result (list Z) :=
  ASSERT_type root "get_remote_buffers_request" (
    let* num := result_bind (at_key root "num") get_uint64 in
    read_indexed get_uint64 root 0 (Z.to_nat num) ids).

Definition WriteDropBufferRequest (id : Z) : json.t :=
  let root := json.null in
  let root := json.set "type" (json.str "drop_buffer_request") root in
  let root := json.set "id" (json.number_unsigned id) root in
  encode_msg root.

Definition ReadDropBufferRequest (root : json.t) : result Z :=
  ASSERT_type root "drop_buffer_request" (
    let* id := result_bind (at_key root "id") get_uint64 in
    Ok id).

Definition WriteDropBufferReply : json.t :=
  let root := json.null in
  let root := json.set "type" (json.str "drop_buffer_reply") root in
  encode_msg root.

Definition ReadDropBufferReply (root : json.t) : result unit :=
  CHECK_IPC_ERROR root "drop_buffer_reply" (
    Ok tt).

Definition WriteCreateDataRequest (content : json.t) : json.t :=
  let root := json.null in
  let root := json.set "type" (json.str "create_data_request") root in
  let root := json.set "content" (content) root in
  encode_msg root.

Definition ReadCreateDataRequest (root : json.t) : result json.t :=
  ASSERT_type root "create_data_request" (
    let* content := at_key root "content" in
    Ok content).

Definition WriteCreateDataReply (id signature instance_id : Z) : json.t :=
  let root := json.null in
  let root := json.set "type" (json.str "create_data_reply") root in
  let root := json.set "id" (json.number_unsigned id) root in
  let root := json.set "signature" (json.number_unsigned signature) root in
  let root := json.set "instance_id" (json.number_unsigned instance_id) root in
  encode_msg root.

Definition ReadCreateDataReply (root : json.t) : result (Z * Z * Z) :=
  CHECK_IPC_ERROR root "create_data_reply" (
    let* id := result_bind (at_key root "id") get_uint64 in
    let* signature := result_bind (at_key root "signature") get_uint64 in
    let* instance_id := result_bind (at_key root "instance_id") get_uint64 in
    Ok (id, signature, instance_id)).

Definition WritePersistRequest (id : Z) : json.t :=
  let root := json.null in
  let root := json.set "type" (json.str "persist_request") root in
  let root := json.set "id" (json.number_unsigned id) root in
  encode_msg root.

Definition ReadPersistRequest (root : json.t) : result Z :=
  ASSERT_type root "persist_request" (
    let* id := result_bind (at_key root "id") get_uint64 in
    Ok id).

Definition WritePersistReply : json.t :=
  let root := json.null in
  let root := json.set "type" (json.str "persist_reply") root in
  encode_msg root.

Definition ReadPersistReply (root : json.t) : result unit :=
  CHECK_IPC_ERROR root "persist_reply" (
    Ok tt).

Definition WriteIfPersistRequest (id : Z) : json.t :=
  let root := json.null in
  let root := json.set "type" (json.str "if_persist_request") root in
  let root := json.set "id" (json.number_unsigned id) root in
  encode_msg root.

Definition ReadIfPersistRequest (root : json.t) : result Z :=
  ASSERT_type root "if_persist_request" (
    let* id := result_bind (at_key root "id") get_uint64 in
    Ok id).

Definition WriteIfPersistReply (persist : bool) : json.t :=
  let root := json.null in
  let root := json.set "type" (json.str "if_persist_reply") root in
  let root := json.set "persist" (json.boolean persist) root in
  encode_msg root.

Definition ReadIfPersistReply (root : json.t) : result bool :=
  CHECK_IPC_ERROR root "if_persist_reply" (
    let* persist := value get_bool root "persist" false in
    Ok persist).

Definition WriteExistsRequest (id : Z) : json.t :=
  let root := json.null in
  let root := json.set "type" (json.str "exists_request") root in
  let root := json.set "id" (json.number_unsigned id) root in
  encode_msg root.

Definition ReadExistsRequest (root : json.t) : result Z :=
  ASSERT_type root "exists_request" (
    let* id := result_bind (at_key root "id") get_uint64 in
    Ok id).

Definition WriteExistsReply (exists_ : bool) : json.t :=
  let root := json.null in
  let root := json.set "type" (json.str "exists_reply") root in
  let root := json.set "exists" (json.boolean exists_) root in
  encode_msg root.

Definition ReadExistsReply (root : json.t) : result bool :=
  CHECK_IPC_ERROR root "exists_reply" (
    let* exists_ := value get_bool root "exists" false in
    Ok exists_).

(** [WriteDelDataRequest(const ObjectID id, ...)]. *)
Definition WriteDelDataRequest_one (id : Z) (force deep fastpath : bool)
  : json.t :=
  let root := json.null in
  let root := json.set "type" (json.str "del_data_request") root in
  let root := json.set "id" (of_uint64s [id]) root in
  let root := json.set "force" (json.boolean force) root in
  let root := json.set "deep" (json.boolean deep) root in
  let root := json.set "fastpath" (json.boolean fastpath) root in
  encode_msg root.

Definition WriteDelDataRequest (ids : list Z) (force deep fastpath : bool)
  : json.t :=
  let root := json.null in
  let root := json.set "type" (json.str "del_data_request") root in
  let root := json.set "id" (of_uint64s ids) root in
  let root := json.set "force" (json.boolean force) root in
  let root := json.set "deep" (json.boolean deep) root in
  let root := json.set "fastpath" (json.boolean fastpath) root in
  encode_msg root.

Definition ReadDelDataRequest (root : json.t)
  : result (list Z * bool * bool * bool) :=
  ASSERT_type root "del_data_request" (
    let* ids := result_bind (at_key root "id") (get_vector get_uint64) in
    let* force := value get_bool root "force" false in
    let* deep := value get_bool root "deep" false in
    let* fastpath := value get_bool root "fastpath" false in
    Ok (ids, force, deep, fastpath)).

Definition WriteDelDataReply : json.t :=
  let root := json.null in
  let root := json.set "type" (json.str "del_data_reply") root in
  encode_msg root.

Definition ReadDelDataReply (root : json.t) : result unit :=
  CHECK_IPC_ERROR root "del_data_reply" (
    Ok tt).

Definition WriteClusterMetaRequest : json.t :=
  let root := json.null in
  let root := json.set "type" (json.str "cluster_meta") root in
  encode_msg root.

Definition ReadClusterMetaRequest (root : json.t) : result unit :=
  ASSERT_type root "cluster_meta" (
    Ok tt).

Definition WriteClusterMetaReply (meta : json.t) : json.t :=
  let root := json.null in
  let root := json.set "type" (json.str "cluster_meta") root in
  let root := json.set "meta" (meta) root in
  encode_msg root.

Definition ReadClusterMetaReply (root : json.t) : result json.t :=
  CHECK_IPC_ERROR root "cluster_meta" (
    let* meta := at_key root "meta" in
    Ok meta).

Definition WriteInstanceStatusRequest : json.t :=
  let root := json.null in
  let root := json.set "type" (json.str "instance_status_request") root in
  encode_msg root.

Definition ReadInstanceStatusRequest (root : json.t) : result unit :=
  ASSERT_type root "instance_status_request" (
    Ok tt).

Definition WriteInstanceStatusReply (meta : json.t) : json.t :=
  let root := json.null in
  let root := json.set "type" (json.str "instance_status_reply") root in
  let root := json.set "meta" (meta) root in
  encode_msg root.

Definition ReadInstanceStatusReply (root : json.t) : result json.t :=
  CHECK_IPC_ERROR root "instance_status_reply" (
    let* meta := at_key root "meta" in
    Ok meta).

Definition WritePutNameRequest (object_id : Z) (name : string) : json.t :=
  let root := json.null in
  let root := json.set "type" (json.str "put_name_request") root in
  let root := json.set "object_id" (json.number_unsigned object_id) root in
  let root := json.set "name" (json.str name) root in
  encode_msg root.

Definition ReadPutNameRequest (root : json.t) : result (Z * string) :=
  ASSERT_type root "put_name_request" (
    let* object_id := result_bind (at_key root "object_id") get_uint64 in
    let* name := result_bind (at_key root "name") get_string in
    Ok (object_id, name)).

Definition WritePutNameReply : json.t :=
  let root := json.null in
  let root := json.set "type" (json.str "put_name_reply") root in
  encode_msg root.

Definition ReadPutNameReply (root : json.t) : result unit :=
  CHECK_IPC_ERROR root "put_name_reply" (
    Ok tt).

Definition WriteGetNameRequest (name : string) (wait : bool) : json.t :=
  let root := json.null in
  let root := json.set "type" (json.str "get_name_request") root in
  let root := json.set "name" (json.str name) root in
  let root := json.set "wait" (json.boolean wait) root in
  encode_msg root.

Definition ReadGetNameRequest (root : json.t) : result (string * bool) :=
  ASSERT_type root "get_name_request" (
    let* name := result_bind (at_key root "name") get_string in
    let* wait := result_bind (at_key root "wait") get_bool in
    Ok (name, wait)).

Definition WriteGetNameReply (object_id : Z) : json.t :=
  let root := json.null in
  let root := json.set "type" (json.str "get_name_reply") root in
  let root := json.set "object_id" (json.number_unsigned object_id) root in
  encode_msg root.

Definition ReadGetNameReply (root : json.t) : result Z :=
  CHECK_IPC_ERROR root "get_name_reply" (
    let* object_id := result_bind (at_key root "object_id") get_uint64 in
    Ok object_id).

Definition WriteDropNameRequest (name : string) : json.t :=
  let root := json.null in
  let root := json.set "type" (json.str "drop_name_request") root in
  let root := json.set "name" (json.str name) root in
  encode_msg root.

Definition ReadDropNameRequest (root : json.t) : result string :=
  ASSERT_type root "drop_name_request" (
    let* name := result_bind (at_key root "name") get_string in
    Ok name).

Definition WriteDropNameReply : json.t :=
  let root := json.null in
  let root := json.set "type" (json.str "drop_name_reply") root in
  encode_msg root.

Definition ReadDropNameReply (root : json.t) : result unit :=
  CHECK_IPC_ERROR root "drop_name_reply" (
    Ok tt).

Definition WriteMigrateObjectRequest (object_id : Z) (local is_stream : bool)
  (peer peer_rpc_endpoint : string) : json.t :=
  let root := json.null in
  let root := json.set "type" (json.str "migrate_object_request") root in
  let root := json.set "object_id" (json.number_unsigned object_id) root in
  let root := json.set "local" (json.boolean local) root in
  let root := json.set "is_stream" (json.boolean is_stream) root in
  let root := json.set "peer" (json.str peer) root in
  let root := json.set "peer_rpc_endpoint" (json.str peer_rpc_endpoint) root in
  encode_msg root.

(** The tag is read with [get_ref<std::string const&>()] here. *)
Definition ReadMigrateObjectRequest (root : json.t)
  : result (Z * bool * bool * string * string) :=
  let* tag := result_bind (at_key root "type") get_string in
  if negb (bool_decide (tag = "migrate_object_request")) then
    Error AssertionFailed
  else
    let* object_id := result_bind (at_key root "object_id") get_uint64 in
    let* local := result_bind (at_key root "local") get_bool in
    let* is_stream := result_bind (at_key root "is_stream") get_bool in
    let* peer := result_bind (at_key root "peer") get_string in
    let* peer_rpc_endpoint :=
      result_bind (at_key root "peer_rpc_endpoint") get_string in
    Ok (object_id, local, is_stream, peer, peer_rpc_endpoint).

Definition WriteMigrateObjectReply (object_id : Z) : json.t :=
  let root := json.null in
  let root := json.set "type" (json.str "migrate_object_reply") root in
  let root := json.set "object_id" (json.number_unsigned object_id) root in
  encode_msg root.

Definition ReadMigrateObjectReply (root : json.t) : result Z :=
  CHECK_IPC_ERROR root "migrate_object_reply" (
    let* object_id := result_bind (at_key root "object_id") get_uint64 in
    Ok object_id).

Definition WriteCreateStreamRequest (object_id : Z) : json.t :=
  let root := json.null in
  let root := json.set "type" (json.str "create_stream_request") root in
  let root := json.set "object_id" (json.number_unsigned object_id) root in
  encode_msg root.

Definition ReadCreateStreamRequest (root : json.t) : result Z :=
  ASSERT_type root "create_stream_request" (
    let* object_id := result_bind (at_key root "object_id") get_uint64 in
    Ok object_id).

Definition WriteCreateStreamReply : json.t :=
  let root := json.null in
  let root := json.set "type" (json.str "create_stream_reply") root in
  encode_msg root.

Definition ReadCreateStreamReply (root : json.t) : result unit :=
  CHECK_IPC_ERROR root "create_stream_reply" (
    Ok tt).

Definition WriteOpenStreamRequest (object_id mode : Z) : json.t :=
  let root := json.null in
  let root := json.set "type" (json.str "open_stream_request") root in
  let root := json.set "object_id" (json.number_unsigned object_id) root in
  let root := json.set "mode" (json.number_integer mode) root in
  encode_msg root.

Definition ReadOpenStreamRequest (root : json.t) : result (Z * Z) :=
  ASSERT_type root "open_stream_request" (
    let* object_id := result_bind (at_key root "object_id") get_uint64 in
    let* mode := result_bind (at_key root "mode") get_int64 in
    Ok (object_id, mode)).

Definition WriteOpenStreamReply : json.t :=
  let root := json.null in
  let root := json.set "type" (json.str "open_stream_reply") root in
  encode_msg root.

Definition ReadOpenStreamReply (root : json.t) : result unit :=
  CHECK_IPC_ERROR root "open_stream_reply" (
    Ok tt).

Definition WriteGetNextStreamChunkRequest (stream_id size : Z) : json.t :=
  let root := json.null in
  let root := json.set "type" (json.str "get_next_stream_chunk_request") root in
  let root := json.set "id" (json.number_unsigned stream_id) root in
  let root := json.set "size" (json.number_unsigned size) root in
  encode_msg root.

Definition ReadGetNextStreamChunkRequest (root : json.t) : result (Z * Z) :=
  ASSERT_type root "get_next_stream_chunk_request" (
    let* stream_id := result_bind (at_key root "id") get_uint64 in
    let* size := result_bind (at_key root "size") get_uint64 in
    Ok (stream_id, size)).

Definition WriteGetNextStreamChunkReply (object : Payload) : json.t :=
  let root := json.null in
  let root := json.set "type" (json.str "get_next_stream_chunk_reply") root in
  let buffer_meta := Payload_ToJSON object in
  let root := json.set "buffer" buffer_meta root in
  encode_msg root.

Definition WritePushNextStreamChunkRequest (stream_id chunk : Z) : json.t :=
  let root := json.null in
  let root := json.set "type"
                (json.str "push_next_stream_chunk_request") root in
  let root := json.set "id" (json.number_unsigned stream_id) root in
  let root := json.set "chunk" (json.number_unsigned chunk) root in
  encode_msg root.

Definition ReadPushNextStreamChunkRequest (root : json.t) : result (Z * Z) :=
  ASSERT_type root "push_next_stream_chunk_request" (
    let* stream_id := result_bind (at_key root "id") get_uint64 in
    let* chunk := result_bind (at_key root "chunk") get_uint64 in
    Ok (stream_id, chunk)).

Definition WritePushNextStreamChunkReply : json.t :=
  let root := json.null in
  let root := json.set "type" (json.str "push_next_stream_chunk_reply") root in
  encode_msg root.

Definition ReadPushNextStreamChunkReply (root : json.t) : result unit :=
  CHECK_IPC_ERROR root "push_next_stream_chunk_reply" (
    Ok tt).

Definition WritePullNextStreamChunkRequest (stream_id : Z) : json.t :=
  let root := json.null in
  let root := json.set "type"
                (json.str "pull_next_stream_chunk_request") root in
  let root := json.set "id" (json.number_unsigned stream_id) root in
  encode_msg root.

Definition ReadPullNextStreamChunkRequest (root : json.t) : result Z :=
  ASSERT_type root "pull_next_stream_chunk_request" (
    let* stream_id := result_bind (at_key root "id") get_uint64 in
    Ok stream_id).

Definition WritePullNextStreamChunkReply (chunk : Z) : json.t :=
  let root := json.null in
  let root := json.set "type" (json.str "pull_next_stream_chunk_reply") root in
  let root := json.set "chunk" (json.number_unsigned chunk) root in
  encode_msg root.

Definition ReadPullNextStreamChunkReply (root : json.t) : result Z :=
  CHECK_IPC_ERROR root "pull_next_stream_chunk_reply" (
    let* chunk := result_bind (at_key root "chunk") get_uint64 in
    Ok chunk).

Definition WriteStopStreamRequest (stream_id : Z) (failed : bool) : json.t :=
  let root := json.null in
  let root := json.set "type" (json.str "stop_stream_request") root in
  let root := json.set "id" (json.number_unsigned stream_id) root in
  let root := json.set "failed" (json.boolean failed) root in
  encode_msg root.

Definition ReadStopStreamRequest (root : json.t) : result (Z * bool) :=
  ASSERT_type root "stop_stream_request" (
    let* stream_id := result_bind (at_key root "id") get_uint64 in
    let* failed := result_bind (at_key root "failed") get_bool in
    Ok (stream_id, failed)).

Definition WriteStopStreamReply : json.t :=
  let root := json.null in
  let root := json.set "type" (json.str "stop_stream_reply") root in
  encode_msg root.

Definition ReadStopStreamReply (root : json.t) : result unit :=
  CHECK_IPC_ERROR root "stop_stream_reply" (
    Ok tt).

(** [WriteShallowCopyRequest(const ObjectID id, std::string& msg)]. *)
Definition WriteShallowCopyRequest_plain (id : Z) : json.t :=
  let root := json.null in
  let root := json.set "type" (json.str "shallow_copy_request") root in
  let root := json.set "id" (json.number_unsigned id) root in
  encode_msg root.

Definition WriteShallowCopyRequest (id : Z) (extra_metadata : json.t)
  : json.t :=
  let root := json.null in
  let root := json.set "type" (json.str "shallow_copy_request") root in
  let root := json.set "id" (json.number_unsigned id) root in
  let root := json.set "extra" (extra_metadata) root in
  encode_msg root.

Definition ReadShallowCopyRequest (root : json.t) : result (Z * json.t) :=
  ASSERT_type root "shallow_copy_request" (
    let* id := result_bind (at_key root "id") get_uint64 in
    let* extra_metadata := value Ok root "extra" (json.object ∅) in
    Ok (id, extra_metadata)).

Definition WriteShallowCopyReply (target_id : Z) : json.t :=
  let root := json.null in
  let root := json.set "type" (json.str "shallow_copy_reply") root in
  let root := json.set "target_id" (json.number_unsigned target_id) root in
  encode_msg root.

Definition ReadShallowCopyReply (root : json.t) : result Z :=
  CHECK_IPC_ERROR root "shallow_copy_reply" (
    let* target_id := result_bind (at_key root "target_id") get_uint64 in
    Ok target_id).

Definition WriteDeepCopyRequest (object_id : Z)
  (peer peer_rpc_endpoint : string) : json.t :=
  let root := json.null in
  let root := json.set "type" (json.str "deep_copy_request") root in
  let root := json.set "object_id" (json.number_unsigned object_id) root in
  let root := json.set "peer" (json.str peer) root in
  let root := json.set "peer_rpc_endpoint" (json.str peer_rpc_endpoint) root in
  encode_msg root.

Definition ReadDeepCopyRequest (root : json.t)
  : result (Z * string * string) :=
  let* tag := result_bind (at_key root "type") get_string in
  if negb (bool_decide (tag = "deep_copy_request")) then Error AssertionFailed
  else
    let* object_id := result_bind (at_key root "object_id") get_uint64 in
    let* peer := result_bind (at_key root "peer") get_string in
    let* peer_rpc_endpoint :=
      result_bind (at_key root "peer_rpc_endpoint") get_string in
    Ok (object_id, peer, peer_rpc_endpoint).

Definition WriteDeepCopyReply (object_id : Z) : json.t :=
  let root := json.null in
  let root := json.set "type" (json.str "deep_copy_reply") root in
  let root := json.set "object_id" (json.number_unsigned object_id) root in
  encode_msg root.

Definition ReadDeepCopyReply (root : json.t) : result Z :=
  CHECK_IPC_ERROR root "deep_copy_reply" (
    let* object_id := result_bind (at_key root "object_id") get_uint64 in
    Ok object_id).

Definition WriteMakeArenaRequest (size : Z) : json.t :=
  let root := json.null in
  let root := json.set "type" (json.str "make_arena_request") root in
  let root := json.set "size" (json.number_unsigned size) root in
  encode_msg root.

Definition ReadMakeArenaRequest (root : json.t) : result Z :=
  ASSERT_type root "make_arena_request" (
    let* size := result_bind (at_key root "size") get_uint64 in
    Ok size).

Definition WriteMakeArenaReply (fd size base : Z) : json.t :=
  let root := json.null in
  let root := json.set "type" (json.str "make_arena_reply") root in
  let root := json.set "fd" (json.number_integer fd) root in
  let root := json.set "size" (json.number_unsigned size) root in
  let root := json.set "base" (json.number_unsigned base) root in
  encode_msg root.

Definition ReadMakeArenaReply (root : json.t) : result (Z * Z * Z) :=
  CHECK_IPC_ERROR root "make_arena_reply" (
    let* fd := result_bind (at_key root "fd") get_int in
    let* size := result_bind (at_key root "size") get_uint64 in
    let* base := result_bind (at_key root "base") get_uint64 in
    Ok (fd, size, base)).

Definition WriteFinalizeArenaRequest (fd : Z) (offsets sizes : list Z)
  : json.t :=
  let root := json.null in
  let root := json.set "type" (json.str "finalize_arena_request") root in
  let root := json.set "fd" (json.number_integer fd) root in
  let root := json.set "offsets" (of_uint64s offsets) root in
  let root := json.set "sizes" (of_uint64s sizes) root in
  encode_msg root.

Definition ReadFinalizeArenaRequest (root : json.t)
  : result (Z * list Z * list Z) :=
  ASSERT_type root "finalize_arena_request" (
    let* fd := result_bind (at_key root "fd") get_int in
    let* offsets :=
      result_bind (at_key root "offsets") (get_vector get_uint64) in
    let* sizes := result_bind (at_key root "sizes") (get_vector get_uint64) in
    Ok (fd, offsets, sizes)).

Definition WriteFinalizeArenaReply : json.t :=
  let root := json.null in
  let root := json.set "type" (json.str "finalize_arena_reply") root in
  encode_msg root.

Definition ReadFinalizeArenaReply (root : json.t) : result unit :=
  CHECK_IPC_ERROR root "finalize_arena_reply" (
    Ok tt).

Definition WriteClearRequest : json.t :=
  let root := json.null in
  let root := json.set "type" (json.str "clear_request") root in
  encode_msg root.

Definition ReadClearRequest (root : json.t) : result unit :=
  ASSERT_type root "clear_request" (
    Ok tt).

Definition WriteClearReply : json.t :=
  let root := json.null in
  let root := json.set "type" (json.str "clear_reply") root in
  encode_msg root.

Definition ReadClearReply (root : json.t) : result unit :=
  CHECK_IPC_ERROR root "clear_reply" (
    Ok tt).

Definition WriteDebugRequest (debug : json.t) : json.t :=
  let root := json.null in
  let root := json.set "type" (json.str "debug_command") root in
  let root := json.set "debug" (debug) root in
  encode_msg root.

Definition ReadDebugRequest (root : json.t) : result json.t :=
  ASSERT_type root "debug_command" (
    let* debug := at_key root "debug" in
    Ok debug).

Definition WriteDebugReply (result_ : json.t) : json.t :=
  let root := json.null in
  let root := json.set "type" (json.str "debug_reply") root in
  let root := json.set "result" (result_) root in
  encode_msg root.

Definition ReadDebugReply (root : json.t) : result json.t :=
  CHECK_IPC_ERROR root "debug_reply" (
    let* result_ := at_key root "result" in
    Ok result_).

Definition WriteModifyReferenceCountRequest (eid : ExternalID)
  (changes : Z) : json.t :=
  let root := json.null in
  let root := json.set "type"
                (json.str "modify_reference_count_request") root in
  let root := json.set "external_id" (json.str eid) root in
  let root := json.set "changes" (json.number_integer changes) root in
  encode_msg root.

Definition ReadModifyReferenceCountRequest (root : json.t)
  : result (ExternalID * Z) :=
  ASSERT_type root "modify_reference_count_request" (
    let* eid := result_bind (at_key root "external_id") get_string in
    let* changes := result_bind (at_key root "changes") get_int in
    Ok (eid, changes)).

Definition WriteModifyReferenceCountReply : json.t :=
  let root := json.null in
  let root := json.set "type" (json.str "modify_reference_count_reply") root in
  encode_msg root.

Definition ReadModifyReferenceCountReply (root : json.t) : result unit :=
  CHECK_IPC_ERROR root "modify_reference_count_reply" (
    Ok tt).

End Codec.
End codec.

(** ** Command types ([enum class CommandType] of [protocols.h] and
    [ParseCommandType] of [protocols.cc]) *)

Inductive CommandType : Type :=
| DebugCommand
| NullCommand
| ExitRequest
| ExitReply
| RegisterRequest
| RegisterReply
| GetDataRequest
| GetDataReply
| PersistRequest
| ExistsRequest
| DelDataRequest
| ClusterMetaRequest
| ListDataRequest
| CreateBufferRequest
| GetBuffersRequest
| CreateDataRequest
| PutNameRequest
| GetNameRequest
| DropNameRequest
| CreateStreamRequest
| GetNextStreamChunkRequest
| PullNextStreamChunkRequest
| StopStreamRequest
| IfPersistRequest
| InstanceStatusRequest
| ShallowCopyRequest
| OpenStreamRequest
| MigrateObjectRequest
| CreateRemoteBufferRequest
| GetRemoteBuffersRequest
| DropBufferRequest
| MakeArenaRequest
| FinalizeArenaRequest
| DeepCopyRequest
| ClearRequest
| PushNextStreamChunkRequest
| GetBuffersByExternalRequest
| ModifyReferenceCountRequest
| ModifyReferenceCountReply.

(** The enumerators' values. *)
Definition CommandType_value (c : CommandType) : Z :=
  match c with
  | DebugCommand => (-1)
  | NullCommand => 0
  | ExitRequest => 1
  | ExitReply => 2
  | RegisterRequest => 3
  | RegisterReply => 4
  | GetDataRequest => 5
  | GetDataReply => 6
  | PersistRequest => 8
  | ExistsRequest => 9
  | DelDataRequest => 10
  | ClusterMetaRequest => 11
  | ListDataRequest => 12
  | CreateBufferRequest => 13
  | GetBuffersRequest => 14
  | CreateDataRequest => 15
  | PutNameRequest => 16
  | GetNameRequest => 17
  | DropNameRequest => 18
  | CreateStreamRequest => 19
  | GetNextStreamChunkRequest => 20
  | PullNextStreamChunkRequest => 21
  | StopStreamRequest => 22
  | IfPersistRequest => 25
  | InstanceStatusRequest => 26
  | ShallowCopyRequest => 27
  | OpenStreamRequest => 28
  | MigrateObjectRequest => 29
  | CreateRemoteBufferRequest => 30
  | GetRemoteBuffersRequest => 31
  | DropBufferRequest => 32
  | MakeArenaRequest => 33
  | FinalizeArenaRequest => 34
  | DeepCopyRequest => 35
  | ClearRequest => 36
  | PushNextStreamChunkRequest => 37
  | GetBuffersByExternalRequest => 38
  | ModifyReferenceCountRequest => 39
  | ModifyReferenceCountReply => 40
  end.

Definition ParseCommandType (str_type : string) : CommandType :=
  if String.eqb str_type "exit_request" then ExitRequest
  else if String.eqb str_type "exit_reply" then ExitReply
  else if String.eqb str_type "register_request" then RegisterRequest
  else if String.eqb str_type "register_reply" then RegisterReply
  else if String.eqb str_type "get_data_request" then GetDataRequest
  else if String.eqb str_type "get_data_reply" then GetDataReply
  else if String.eqb str_type "create_data_request" then CreateDataRequest
  else if String.eqb str_type "persist_request" then PersistRequest
  else if String.eqb str_type "exists_request" then ExistsRequest
  else if String.eqb str_type "del_data_request" then DelDataRequest
  else if String.eqb str_type "cluster_meta" then ClusterMetaRequest
  else if String.eqb str_type "list_data_request" then ListDataRequest
  else if String.eqb str_type "create_buffer_request" then CreateBufferRequest
  else if String.eqb str_type "get_buffers_request" then GetBuffersRequest
  else if String.eqb str_type "create_stream_request" then CreateStreamRequest
  else if String.eqb str_type "get_next_stream_chunk_request"
    then GetNextStreamChunkRequest
  else if String.eqb str_type "push_next_stream_chunk_request"
    then PushNextStreamChunkRequest
  else if String.eqb str_type "pull_next_stream_chunk_request"
    then PullNextStreamChunkRequest
  else if String.eqb str_type "stop_stream_request" then StopStreamRequest
  else if String.eqb str_type "put_name_request" then PutNameRequest
  else if String.eqb str_type "get_name_request" then GetNameRequest
  else if String.eqb str_type "drop_name_request" then DropNameRequest
  else if String.eqb str_type "if_persist_request" then IfPersistRequest
  else if String.eqb str_type "instance_status_request"
    then InstanceStatusRequest
  else if String.eqb str_type "shallow_copy_request" then ShallowCopyRequest
  else if String.eqb str_type "deep_copy_request" then DeepCopyRequest
  else if String.eqb str_type "open_stream_request" then OpenStreamRequest
  else if String.eqb str_type "migrate_object_request" then MigrateObjectRequest
  else if String.eqb str_type "create_remote_buffer_request"
    then CreateRemoteBufferRequest
  else if String.eqb str_type "get_remote_buffers_request"
    then GetRemoteBuffersRequest
  else if String.eqb str_type "drop_buffer_request" then DropBufferRequest
  else if String.eqb str_type "make_arena_request" then MakeArenaRequest
  else if String.eqb str_type "finalize_arena_request" then FinalizeArenaRequest
  else if String.eqb str_type "clear_request" then ClearRequest
  else if String.eqb str_type "debug_command" then DebugCommand
  else if String.eqb str_type "get_buffers_by_external_request"
    then GetBuffersByExternalRequest
  else if String.eqb str_type "modify_reference_count_request"
    then ModifyReferenceCountRequest
  else if String.eqb str_type "modify_reference_count_reply"
    then ModifyReferenceCountReply
  else NullCommand.

(** The tag [ParseCommandType] maps to a command type; [NullCommand] has
    none. *)
Definition CommandType_tag (c : CommandType) : string :=
  match c with
  | DebugCommand => "debug_command"
  | NullCommand => ""
  | ExitRequest => "exit_request"
  | ExitReply => "exit_reply"
  | RegisterRequest => "register_request"
  | RegisterReply => "register_reply"
  | GetDataRequest => "get_data_request"
  | GetDataReply => "get_data_reply"
  | PersistRequest => "persist_request"
  | ExistsRequest => "exists_request"
  | DelDataRequest => "del_data_request"
  | ClusterMetaRequest => "cluster_meta"
  | ListDataRequest => "list_data_request"
  | CreateBufferRequest => "create_buffer_request"
  | GetBuffersRequest => "get_buffers_request"
  | CreateDataRequest => "create_data_request"
  | PutNameRequest => "put_name_request"
  | GetNameRequest => "get_name_request"
  | DropNameRequest => "drop_name_request"
  | CreateStreamRequest => "create_stream_request"
  | GetNextStreamChunkRequest => "get_next_stream_chunk_request"
  | PullNextStreamChunkRequest => "pull_next_stream_chunk_request"
  | StopStreamRequest => "stop_stream_request"
  | IfPersistRequest => "if_persist_request"
  | InstanceStatusRequest => "instance_status_request"
  | ShallowCopyRequest => "shallow_copy_request"
  | OpenStreamRequest => "open_stream_request"
  | MigrateObjectRequest => "migrate_object_request"
  | CreateRemoteBufferRequest => "create_remote_buffer_request"
  | GetRemoteBuffersRequest => "get_remote_buffers_request"
  | DropBufferRequest => "drop_buffer_request"
  | MakeArenaRequest => "make_arena_request"
  | FinalizeArenaRequest => "finalize_arena_request"
  | DeepCopyRequest => "deep_copy_request"
  | ClearRequest => "clear_request"
  | PushNextStreamChunkRequest => "push_next_stream_chunk_request"
  | GetBuffersByExternalRequest => "get_buffers_by_external_request"
  | ModifyReferenceCountRequest => "modify_reference_count_request"
  | ModifyReferenceCountReply => "modify_reference_count_reply"
  end.

(** ** Vocabulary of the properties *)

(** The byte [x] lies in one of the [(offset, length)] intervals. *)
Definition covered (intervals : list (Z * Z)) (x : Z) : bool :=
  existsb (fun iv => (fst iv <=? x) && (x <? fst iv + snd iv)) intervals.

(** [[left, right)] is a maximal sub-interval of [[0, size)] that no interval
    covers: it is not empty, holds no covered byte, and cannot be extended on
    either side. *)
Definition maximal_gap (size : Z) (intervals : list (Z * Z)) (left right : Z)
  : Prop :=
  0 <= left < right /\ right <= size /\
  (forall x, left <= x < right -> covered intervals x = false) /\
  (left = 0 \/ covered intervals (left - 1) = true) /\
  (right = size \/ covered intervals right = true).

(** The interval lies inside [[0, size)] and is not empty. *)
Definition inside (size : Z) (iv : Z * Z) : Prop :=
  0 <= fst iv /\ 0 < snd iv /\ fst iv + snd iv <= size.

(** Sum of the markers of the points at or below [x]: the value of
    [markersum] once the walk has passed them. *)
Definition markers_upto (points : list (Z * Z)) (x : Z) : Z :=
  fold_right (fun p acc => (if fst p <=? x then snd p else 0) + acc) 0 points.

(** Number of intervals that start at or below [x], minus the number of
    intervals that end at or below [x]. *)
Definition depth (intervals : list (Z * Z)) (x : Z) : Z :=
  fold_right
    (fun iv acc =>
       (if fst iv <=? x then 1 else 0)
       + (if fst iv + snd iv <=? x then -1 else 0) + acc)
    0 intervals.

(** The interval lies inside [[0, size)]; it may be empty. *)
Definition within (size : Z) (iv : Z * Z) : Prop :=
  0 <= fst iv /\ 0 <= snd iv /\ fst iv + snd iv <= size.

(** [[left, right)] is one of the pieces into which the offsets of the empty
    intervals cut the uncovered part of [[0, size)]: it is not empty, holds
    no covered byte, ends on each side at an end of the range, at a covered
    byte or at the offset of an empty interval, and no offset of an empty
    interval lies strictly inside it. *)
Definition uncovered_piece (size : Z) (intervals : list (Z * Z))
  (left right : Z) : Prop :=
  0 <= left < right /\ right <= size /\
  (forall x, left <= x < right -> covered intervals x = false) /\
  (left = 0 \/ covered intervals (left - 1) = true \/
   In (left, 0) intervals) /\
  (right = size \/ covered intervals right = true \/
   In (right, 0) intervals) /\
  (forall k, left < k < right -> ~ In (k, 0) intervals).


(** [object_ids] is a vector the first loop of [~BulkStore()] can build: the
    keys of [objects_], in some order. *)
Definition collected `{Deps} (s : BulkStore.t) (object_ids : list ObjectID)
  : Prop :=
  object_ids ≡ₚ (map_to_list (BulkStore.objects_ s)).*1.

(** Every payload registered under an id that is not reserved is a blob of
    the pool ([arena_fd] is -1). *)
Definition pool_only `{Deps} (s : BulkStore.t) : Prop :=
  forall (id : ObjectID) (p : Payload),
    BulkStore.objects_ s !! id = Some p ->
    id <> EmptyBlobID -> id <> BulkStore.WholeRegionID -> arena_fd p = -1.

(** A document [operator[]] can assign into: [null] or an object. *)
Definition is_document (root : json.t) : Prop :=
  match root with
  | json.null | json.object _ => True
  | _ => False
  end.

Definition is_object (root : json.t) : Prop :=
  match root with
  | json.object _ => True
  | _ => False
  end.

(** The last character of a string. *)
Fixpoint last_char (s : string) : option ascii :=
  match s with
  | EmptyString => None
  | String c EmptyString => Some c
  | String _ s' => last_char s'
  end.

(** The command type of a message: [ParseCommandType] on its ["type"]
    field. *)
Definition command_of (root : json.t) : result CommandType :=
  let* tag := result_bind (codec.at_key root "type") codec.get_string in
  Ok (ParseCommandType tag).

(** The status a decoder returns; [None] when it is left through an
    exception. *)
Definition returned {A : Type} (r : result A) : option Status :=
  match r with
  | Ok _ => Some OK
  | Error st => Some st
  | Throw => None
  end.

(** The decoders of the requests, each with the tag it expects: all the 33
    request decoders of [protocols.cc]. The three decoders that push onto a
    vector are given an empty one. *)
Definition request_decoders : list (string * (json.t -> option Status)) :=
  [("register_request",
    fun root => returned (codec.ReadRegisterRequest root));
   ("get_data_request",
    fun root => returned (codec.ReadGetDataRequest root));
   ("list_data_request",
    fun root => returned (codec.ReadListDataRequest root));
   ("create_buffer_request",
    fun root => returned (codec.ReadCreateBufferRequest root));
   ("create_remote_buffer_request",
    fun root => returned (codec.ReadCreateRemoteBufferRequest root));
   ("get_buffers_request",
    fun root => returned (codec.ReadGetBuffersRequest root []));
   ("get_buffers_by_external_request",
    fun root => returned (codec.ReadGetBuffersByExternalRequest root []));
   ("get_remote_buffers_request",
    fun root => returned (codec.ReadGetRemoteBuffersRequest root []));
   ("drop_buffer_request",
    fun root => returned (codec.ReadDropBufferRequest root));
   ("create_data_request",
    fun root => returned (codec.ReadCreateDataRequest root));
   ("persist_request",
    fun root => returned (codec.ReadPersistRequest root));
   ("if_persist_request",
    fun root => returned (codec.ReadIfPersistRequest root));
   ("exists_request",
    fun root => returned (codec.ReadExistsRequest root));
   ("del_data_request",
    fun root => returned (codec.ReadDelDataRequest root));
   ("cluster_meta",
    fun root => returned (codec.ReadClusterMetaRequest root));
   ("instance_status_request",
    fun root => returned (codec.ReadInstanceStatusRequest root));
   ("put_name_request",
    fun root => returned (codec.ReadPutNameRequest root));
   ("get_name_request",
    fun root => returned (codec.ReadGetNameRequest root));
   ("drop_name_request",
    fun root => returned (codec.ReadDropNameRequest root));
   ("migrate_object_request",
    fun root => returned (codec.ReadMigrateObjectRequest root));
   ("create_stream_request",
    fun root => returned (codec.ReadCreateStreamRequest root));
   ("open_stream_request",
    fun root => returned (codec.ReadOpenStreamRequest root));
   ("get_next_stream_chunk_request",
    fun root => returned (codec.ReadGetNextStreamChunkRequest root));
   ("push_next_stream_chunk_request",
    fun root => returned (codec.ReadPushNextStreamChunkRequest root));
   ("pull_next_stream_chunk_request",
    fun root => returned (codec.ReadPullNextStreamChunkRequest root));
   ("stop_stream_request",
    fun root => returned (codec.ReadStopStreamRequest root));
   ("shallow_copy_request",
    fun root => returned (codec.ReadShallowCopyRequest root));
   ("deep_copy_request",
    fun root => returned (codec.ReadDeepCopyRequest root));
   ("make_arena_request",
    fun root => returned (codec.ReadMakeArenaRequest root));
   ("finalize_arena_request",
    fun root => returned (codec.ReadFinalizeArenaRequest root));
   ("clear_request",
    fun root => returned (codec.ReadClearRequest root));
   ("debug_command",
    fun root => returned (codec.ReadDebugRequest root));
   ("modify_reference_count_request",
    fun root => returned (codec.ReadModifyReferenceCountRequest root))].

(** The decoders of the replies that read neither a payload nor keys that
    are ids, each with the tag it expects: 26 of the 30 reply decoders of
    [protocols.cc]. The four others are not modelled, they call into headers
    that are not part of the sources: [ReadCreateBufferReply],
    [ReadGetBuffersReply] and [ReadGetNextStreamChunkReply] call
    [Payload::FromJSON], and the overload of [ReadGetDataReply] that fills a
    map calls [ObjectIDFromString]. *)
Definition plain_reply_decoders
  : list (string * (json.t -> option Status)) :=
  [("register_reply",
    fun root => returned (codec.ReadRegisterReply root));
   ("get_data_reply",
    fun root => returned (codec.ReadGetDataReply root));
   ("drop_buffer_reply",
    fun root => returned (codec.ReadDropBufferReply root));
   ("create_data_reply",
    fun root => returned (codec.ReadCreateDataReply root));
   ("persist_reply",
    fun root => returned (codec.ReadPersistReply root));
   ("if_persist_reply",
    fun root => returned (codec.ReadIfPersistReply root));
   ("exists_reply",
    fun root => returned (codec.ReadExistsReply root));
   ("del_data_reply",
    fun root => returned (codec.ReadDelDataReply root));
   ("cluster_meta",
    fun root => returned (codec.ReadClusterMetaReply root));
   ("instance_status_reply",
    fun root => returned (codec.ReadInstanceStatusReply root));
   ("put_name_reply",
    fun root => returned (codec.ReadPutNameReply root));
   ("get_name_reply",
    fun root => returned (codec.ReadGetNameReply root));
   ("drop_name_reply",
    fun root => returned (codec.ReadDropNameReply root));
   ("migrate_object_reply",
    fun root => returned (codec.ReadMigrateObjectReply root));
   ("create_stream_reply",
    fun root => returned (codec.ReadCreateStreamReply root));
   ("open_stream_reply",
    fun root => returned (codec.ReadOpenStreamReply root));
   ("push_next_stream_chunk_reply",
    fun root => returned (codec.ReadPushNextStreamChunkReply root));
   ("pull_next_stream_chunk_reply",
    fun root => returned (codec.ReadPullNextStreamChunkReply root));
   ("stop_stream_reply",
    fun root => returned (codec.ReadStopStreamReply root));
   ("shallow_copy_reply",
    fun root => returned (codec.ReadShallowCopyReply root));
   ("deep_copy_reply",
    fun root => returned (codec.ReadDeepCopyReply root));
   ("make_arena_reply",
    fun root => returned (codec.ReadMakeArenaReply root));
   ("finalize_arena_reply",
    fun root => returned (codec.ReadFinalizeArenaReply root));
   ("clear_reply",
    fun root => returned (codec.ReadClearReply root));
   ("debug_reply",
    fun root => returned (codec.ReadDebugReply root));
   ("modify_reference_count_reply",
    fun root => returned (codec.ReadModifyReferenceCountReply root))].


(** ** An instance of the missing headers, to run the store

    A bump allocator with a footprint limit over one region, descriptors and
    arena mappings handed out in sequence, blob ids with the top bit set.
    The payload constructors store their arguments; the six-argument one
    records the descriptor as the arena descriptor as well. *)
Module demo.

Record state : Type := mkState {
  next_block : Z;
  allocated : Z;
  footprint_limit : Z;
  next_fd : Z;
  next_mapping : Z
}.

Definition start : state := mkState 65536 0 0 4 1048576.

Definition Memalign (w : state) (size alignment : Z) : Z * state :=
  if allocated w + size <=? footprint_limit w then
    (next_block w,
     mkState (next_block w + alignment * ((size + alignment - 1) / alignment))
       (allocated w + size) (footprint_limit w) (next_fd w) (next_mapping w))
  else (0, w).

#[global] Instance deps : Deps := {|
  EmptyBlobID := 2 ^ 63;
  GenerateBlobID := fun pointer => Z.lor pointer (2 ^ 63);
  system_page_size := 4096;
  world := state;
  BulkAllocator_SetFootprintLimit := fun w limit =>
    mkState (next_block w) (allocated w) limit (next_fd w) (next_mapping w);
  BulkAllocator_Init := fun w size => (65536, w);
  BulkAllocator_Memalign := Memalign;
  BulkAllocator_Free := fun w pointer size =>
    mkState (next_block w) (allocated w - size) (footprint_limit w)
      (next_fd w) (next_mapping w);
  BulkAllocator_Allocated := allocated;
  BulkAllocator_GetFootprintLimit := footprint_limit;
  kBlockSize := 64;
  GetMallocMapinfo := fun w pointer => (3, footprint_limit w, pointer);
  create_buffer := fun w size =>
    (next_fd w,
     mkState (next_block w) (allocated w) (footprint_limit w) (next_fd w + 1)
       (next_mapping w));
  mmap_records_set := fun w base fd size => w;
  mmap_shared := fun w size fd =>
    (next_mapping w,
     mkState (next_block w) (allocated w) (footprint_limit w) (next_fd w)
       (next_mapping w + 4096 * ((size + 4095) / 4096)));
  Payload_blob := fun id size pointer fd map_size offset =>
    mkPayload id ExternalID_default size 0 pointer fd fd map_size offset;
  Payload_external :=
    fun id external_id size pointer fd map_size offset external_size =>
    mkPayload id external_id size external_size pointer fd (-1) map_size offset
|}.

(** A fresh store. *)
Definition store0 : BulkStore.t := BulkStore.init start.

(** An arena of 100 bytes, finalized into the two blobs [[0, 50)] and
    [[50, 100)]. *)
Definition arena_ops : list BulkStore.op :=
  [BulkStore.OpMakeArena 100;
   BulkStore.OpFinalizeArena 4 [0; 50] [50; 50]].

Definition blob0 : ObjectID := Z.lor 1048576 (2 ^ 63).
Definition blob1 : ObjectID := Z.lor 1048626 (2 ^ 63).

(** The store after [ops]; the store itself when [ops] cannot be run. *)
Definition after (ops : list BulkStore.op) (s : BulkStore.t) : BulkStore.t :=
  default s (BulkStore.run ops s).

(** The store with the finalized arena, and after the first blob of the
    arena has been deleted. *)
Definition finalized : BulkStore.t := after arena_ops store0.
Definition deleted : BulkStore.t :=
  after (arena_ops ++ [BulkStore.OpDelete blob0]) store0.

(** The store with a pool of 1024 bytes, the store with an open arena, and
    the blob a first [Create] of 8 bytes returns. *)
Definition pooled : BulkStore.t := after [BulkStore.OpPreAllocate 1024] store0.
Definition opened : BulkStore.t := after [BulkStore.OpMakeArena 100] store0.
Definition pool_blob : ObjectID := Z.lor 65536 (2 ^ 63).
Definition pool_payload (external_id : ExternalID) : Payload :=
  mkPayload pool_blob external_id 8 0 65536 3 (-1) 1024 65536.

(** An arena of three pages with one blob of 50 bytes at offset 100, and the
    store after that blob has been deleted. *)
Definition page_ops : list BulkStore.op :=
  [BulkStore.OpMakeArena 12288; BulkStore.OpFinalizeArena 4 [100] [50]].
Definition page_blob : ObjectID := Z.lor 1048676 (2 ^ 63).
Definition paged : BulkStore.t := after page_ops store0.
Definition page_deleted : BulkStore.t :=
  after (page_ops ++ [BulkStore.OpDelete page_blob]) store0.

End demo.

(** * Properties *)

(** ** The page reclaimer *)

Section SweepFacts.
Import memory.

Local Abbreviation keys points := (map fst points).
Local Abbreviation increasing points :=
  (StronglySorted Z.lt (map fst points)).

Lemma points_add_keys k d points k' :
  In k' (keys (points_add k d points)) <-> k' = k \/ In k' (keys points).
Proof.
  induction points as [|[k0 v0] rest IH]; simpl.
  - intuition.
  - destruct (k <? k0) eqn:Hlt; [simpl; intuition|].
    destruct (k =? k0) eqn:Heq; simpl.
    + apply Z.eqb_eq in Heq. subst. intuition.
    + rewrite IH. intuition.
Qed.

Lemma points_add_increasing k d points :
  increasing points -> increasing (points_add k d points).
Proof.
  induction points as [|[k0 v0] rest IH]; simpl; intros Hs.
  - repeat constructor.
  - inversion Hs as [|? ? Hrest Hall]; subst.
    destruct (k <? k0) eqn:Hlt; simpl.
    + apply Z.ltb_lt in Hlt. constructor; [exact Hs|].
      constructor; [exact Hlt|].
      apply List.Forall_forall. intros k' Hin.
      rewrite List.Forall_forall in Hall. specialize (Hall k' Hin). lia.
    + destruct (k =? k0) eqn:Heq; simpl.
      * constructor; assumption.
      * apply Z.ltb_ge in Hlt. apply Z.eqb_neq in Heq.
        constructor; [auto|].
        apply List.Forall_forall. intros k' Hin.
        apply points_add_keys in Hin as [->|Hin]; [lia|].
        rewrite List.Forall_forall in Hall. auto.
Qed.

Lemma markers_upto_points_add k d points x :
  markers_upto (points_add k d points) x
  = markers_upto points x + (if k <=? x then d else 0).
Proof.
  induction points as [|[k0 v0] rest IH]; simpl.
  - destruct (k <=? x); lia.
  - destruct (k <? k0) eqn:Hlt; simpl.
    + destruct (k <=? x), (k0 <=? x); lia.
    + destruct (k =? k0) eqn:Heq; simpl.
      * apply Z.eqb_eq in Heq. subst. destruct (k0 <=? x); lia.
      * rewrite IH. destruct (k <=? x), (k0 <=? x); lia.
Qed.

Lemma markers_upto_above points x :
  Forall (fun k => x < k) (keys points) -> markers_upto points x = 0.
Proof.
  induction points as [|[k0 v0] rest IH]; simpl; intros Hall; [reflexivity|].
  inversion Hall; subst.
  destruct (k0 <=? x) eqn:Hle; [apply Z.leb_le in Hle; lia|].
  rewrite IH by assumption. reflexivity.
Qed.

(** Between two neighbouring points the running sum does not change. *)
Lemma markers_upto_local points l x :
  l <= x ->
  (forall k, In k (keys points) -> k <= l \/ x < k) ->
  markers_upto points x = markers_upto points l.
Proof.
  intros Hlx. induction points as [|[k0 v0] rest IH]; simpl; intros Hk.
  - reflexivity.
  - rewrite IH by auto.
    destruct (Hk k0) as [H|H]; [auto|..];
      destruct (k0 <=? x) eqn:E1, (k0 <=? l) eqn:E2;
      try apply Z.leb_le in E1; try apply Z.leb_le in E2;
      try apply Z.leb_gt in E1; try apply Z.leb_gt in E2; lia.
Qed.

(** What the walk hands to [recycle]: the pairs of neighbouring points at
    which the running sum is zero. *)
Lemma sweep_ranges_spec points : forall markersum l r,
  increasing points ->
  In (l, r) (sweep (fun left right => [(left, right)]) markersum points) <->
  In l (keys points) /\ In r (keys points) /\ l < r /\
  (forall k, In k (keys points) -> k <= l \/ r <= k) /\
  markersum + markers_upto points l = 0.
Proof.
  induction points as [|[h v] rest IH]; intros s l r Hs.
  - simpl. intuition.
  - destruct rest as [|[n w] rest'].
    + simpl. split; [tauto|]. intros ([<-|[]] & [<-|[]] & Hlt & _). lia.
    + inversion Hs as [|? ? Hrest Hall]; subst.
      assert (Hhn : h < n) by (inversion Hall; assumption).
      assert (Htail : forall k, In k (keys ((n, w) :: rest')) -> h < k).
      { intros k Hin. rewrite List.Forall_forall in Hall. auto. }
      change (sweep _ s ((h, v) :: (n, w) :: rest'))
        with ((if s + v =? 0 then [(h, n)] else [])
                ++ sweep (fun left right => [(left, right)]) (s + v)
                     ((n, w) :: rest')).
      rewrite in_app_iff, (IH (s + v) l r Hrest).
      change (markers_upto ((h, v) :: (n, w) :: rest') l)
        with ((if h <=? l then v else 0)
              + markers_upto ((n, w) :: rest') l).
      change (keys ((h, v) :: (n, w) :: rest'))
        with (h :: keys ((n, w) :: rest')).
      split.
      * intros [Hhead|(Hl & Hr & Hlt & Hgap & Hsum)].
        -- destruct (s + v =? 0) eqn:Hz; [|destruct Hhead].
           destruct Hhead as [Heq|[]]. inversion Heq; subst l r.
           apply Z.eqb_eq in Hz.
           rewrite markers_upto_above
             by (apply List.Forall_forall; intros k Hk; apply Htail; exact Hk).
           rewrite Z.leb_refl.
           repeat split; [left; reflexivity|right; left; reflexivity|lia| |lia].
           intros k [<-|Hk]; [lia|].
           right. cbn [map fst] in Hk. destruct Hk as [<-|Hk]; [lia|].
           inversion Hrest as [|? ? _ Hall']; subst.
           rewrite List.Forall_forall in Hall'. specialize (Hall' k Hk). lia.
        -- pose proof (Htail l Hl) as Hhl.
           destruct (h <=? l) eqn:Hle; [|apply Z.leb_gt in Hle; lia].
           repeat split; [right; exact Hl|right; exact Hr|lia| |lia].
           intros k [<-|Hk]; [lia|auto].
      * intros (Hl & Hr & Hlt & Hgap & Hsum).
        destruct Hl as [<-|Hl].
        -- left.
           assert (Hr' : In r (keys ((n, w) :: rest'))).
           { destruct Hr as [<-|Hr]; [lia|exact Hr]. }
           assert (r = n).
           { destruct (Hgap n) as [H|H]; [right; left; reflexivity|lia|].
             cbn [map fst] in Hr'. destruct Hr' as [<-|Hr']; [reflexivity|].
             inversion Hrest as [|? ? _ Hall']; subst.
             rewrite List.Forall_forall in Hall'.
             specialize (Hall' r Hr'). lia. }
           subst r.
           rewrite markers_upto_above in Hsum
             by (apply List.Forall_forall; intros k Hk; apply Htail; exact Hk).
           rewrite Z.leb_refl in Hsum.
           replace (s + v =? 0) with true by (symmetry; apply Z.eqb_eq; lia).
           left; reflexivity.
        -- right.
           pose proof (Htail l Hl) as Hhl.
           destruct (h <=? l) eqn:Hle; [|apply Z.leb_gt in Hle; lia].
           assert (Hr' : In r (keys ((n, w) :: rest'))).
           { destruct Hr as [<-|Hr]; [lia|exact Hr]. }
           repeat split; [exact Hl|exact Hr'|lia| |lia].
           intros k Hk. apply Hgap. right; exact Hk.
Qed.

Lemma sweep_ranges_keys points : forall markersum l r,
  In (l, r) (sweep (fun left right => [(left, right)]) markersum points) ->
  In l (keys points).
Proof.
  induction points as [|[h v] rest IH]; intros s l r; [intros []|].
  destruct rest as [|[n w] rest']; [intros []|].
  change (sweep _ s ((h, v) :: (n, w) :: rest'))
    with ((if s + v =? 0 then [(h, n)] else [])
            ++ sweep (fun left right => [(left, right)]) (s + v)
                 ((n, w) :: rest')).
  rewrite in_app_iff. intros [Hhead|Htl].
  - destruct (s + v =? 0); [|destruct Hhead].
    destruct Hhead as [Heq|[]]. inversion Heq. left; reflexivity.
  - right. exact (IH _ _ _ Htl).
Qed.

Lemma sweep_ranges_NoDup points : forall markersum,
  increasing points ->
  List.NoDup (sweep (fun left right => [(left, right)]) markersum points).
Proof.
  induction points as [|[h v] rest IH]; intros s Hs; [constructor|].
  destruct rest as [|[n w] rest']; [constructor|].
  inversion Hs as [|? ? Hrest Hall]; subst.
  change (sweep _ s ((h, v) :: (n, w) :: rest'))
    with ((if s + v =? 0 then [(h, n)] else [])
            ++ sweep (fun left right => [(left, right)]) (s + v)
                 ((n, w) :: rest')).
  destruct (s + v =? 0); [|exact (IH _ Hrest)].
  constructor; [|exact (IH _ Hrest)].
  intros Hin. apply sweep_ranges_keys in Hin.
  rewrite List.Forall_forall in Hall. specialize (Hall h Hin). lia.
Qed.

(** The walk with any [recycle] does what the walk that only records the
    ranges says. *)
Lemma sweep_flat_map {A : Type} (recycle : Z -> Z -> list A) points :
  forall markersum,
  sweep recycle markersum points
  = flat_map (fun lr => recycle (fst lr) (snd lr))
      (sweep (fun left right => [(left, right)]) markersum points).
Proof.
  induction points as [|[h v] rest IH]; intros s; [reflexivity|].
  destruct rest as [|[n w] rest']; [reflexivity|].
  change (sweep recycle s ((h, v) :: (n, w) :: rest'))
    with ((if s + v =? 0 then recycle h n else [])
            ++ sweep recycle (s + v) ((n, w) :: rest')).
  change (sweep (fun left right => [(left, right)]) s
            ((h, v) :: (n, w) :: rest'))
    with ((if s + v =? 0 then [(h, n)] else [])
            ++ sweep (fun left right => [(left, right)]) (s + v)
                 ((n, w) :: rest')).
  rewrite flat_map_app, IH.
  destruct (s + v =? 0); simpl; [rewrite app_nil_r|]; reflexivity.
Qed.

Lemma wrap64_small z : 0 <= z < 2 ^ 64 -> wrap64 z = z.
Proof. intros H. unfold wrap64. apply Z.mod_small. exact H. Qed.

(** The first loop of [recycle_arena]: it runs to the end, keeps the points
    in increasing order, adds exactly the two ends of every interval as keys,
    and adds [depth] to the running sums. *)
Lemma mark_points_spec size : forall offsets sizes points,
  size < 2 ^ 64 ->
  length offsets = length sizes ->
  Forall (inside size) (combine offsets sizes) ->
  exists points',
    mark_points offsets sizes points = Some points' /\
    (increasing points -> increasing points') /\
    (forall k, In k (keys points') <->
       In k (keys points) \/
       exists iv, In iv (combine offsets sizes) /\
                  (k = fst iv \/ k = fst iv + snd iv)) /\
    (forall x, markers_upto points' x
               = markers_upto points x + depth (combine offsets sizes) x).
Proof.
  intros offsets.
  induction offsets as [|o offsets IH]; intros sizes points Hsize Hlen Hin.
  - exists points. simpl. repeat split; auto.
    + intros [H|(iv & [] & _)]; exact H.
    + intros x. lia.
  - destruct sizes as [|n sizes]; [discriminate|].
    simpl in Hlen. injection Hlen as Hlen.
    simpl in Hin. inversion Hin as [|? ? (Ho & Hn & Hon) Hin']; subst.
    simpl in Ho, Hn, Hon.
    destruct (IH sizes
                (points_add (wrap64 (o + n)) (-1) (points_add o 1 points))
                Hsize Hlen Hin') as (points' & Hrun & Hinc & Hkeys & Hsum).
    exists points'. simpl. rewrite wrap64_small in * by lia.
    split; [exact Hrun|]. split; [|split].
    + intros Hp. apply Hinc. do 2 apply points_add_increasing. exact Hp.
    + intros k. rewrite Hkeys, !points_add_keys. split.
      * intros [[->|[->|H]]|(iv & Hiv & Hk)].
        -- right. exists (o, n). simpl. auto.
        -- right. exists (o, n). simpl. auto.
        -- left. exact H.
        -- right. exists iv. auto.
      * intros [H|(iv & [<-|Hiv] & Hk)].
        -- left. auto.
        -- simpl in Hk. left. destruct Hk as [->| ->]; auto.
        -- right. exists iv. auto.
    + intros x. rewrite Hsum, !markers_upto_points_add. simpl.
      destruct (o <=? x), (o + n <=? x); lia.
Qed.

Lemma covered_true intervals x :
  covered intervals x = true <->
  exists iv, In iv intervals /\ fst iv <= x < fst iv + snd iv.
Proof.
  unfold covered. rewrite existsb_exists. split.
  - intros (iv & Hin & H). exists iv. split; [exact Hin|].
    apply andb_true_iff in H as [H1 H2].
    apply Z.leb_le in H1. apply Z.ltb_lt in H2. lia.
  - intros (iv & Hin & H). exists iv. split; [exact Hin|].
    apply andb_true_iff. split; [apply Z.leb_le|apply Z.ltb_lt]; lia.
Qed.

(** [depth] counts the intervals that cover [x]. *)
Lemma depth_covered intervals x :
  Forall (fun iv => 0 < snd iv) intervals ->
  0 <= depth intervals x /\
  (depth intervals x = 0 <-> covered intervals x = false).
Proof.
  induction intervals as [|[o n] rest IH]; simpl; intros Hpos.
  - split; [lia|]. split; reflexivity.
  - inversion Hpos as [|? ? Hn Hrest]; subst. simpl in Hn.
    destruct (IH Hrest) as [Hge Hiff].
    destruct (o <=? x) eqn:E1, (o + n <=? x) eqn:E2, (x <? o + n) eqn:E3;
      try apply Z.leb_le in E1; try apply Z.leb_gt in E1;
      try apply Z.leb_le in E2; try apply Z.leb_gt in E2;
      try apply Z.ltb_lt in E3; try apply Z.ltb_ge in E3;
      try lia; simpl; (split; [lia|]);
      try (rewrite <- Hiff; split; intros; lia);
      split; intros; try discriminate; lia.
Qed.

Lemma inside_positive size intervals :
  Forall (inside size) intervals -> Forall (fun iv => 0 < snd iv) intervals.
Proof.
  intros H. apply List.Forall_forall. intros iv Hin.
  rewrite List.Forall_forall in H. destruct (H iv Hin) as (_ & Hn & _).
  exact Hn.
Qed.

Lemma not_covered intervals x iv :
  covered intervals x = false -> In iv intervals ->
  ~ (fst iv <= x < fst iv + snd iv).
Proof.
  intros Hc Hin H.
  assert (covered intervals x = true) by (apply covered_true; eauto).
  congruence.
Qed.

Lemma initial_points_spec size :
  0 <= size ->
  let points := points_assign size 0 (points_assign 0 0 []) in
  increasing points /\
  (forall k, In k (keys points) <-> k = 0 \/ k = size) /\
  (forall x, markers_upto points x = 0).
Proof.
  intros Hsize. simpl.
  destruct (size <? 0) eqn:E1; [apply Z.ltb_lt in E1; lia|].
  destruct (size =? 0) eqn:E2.
  - apply Z.eqb_eq in E2. subst. simpl. repeat split.
    + repeat constructor.
    + intros [H|[]]; auto.
    + intros [H|H]; auto.
    + intros x. destruct (0 <=? x); reflexivity.
  - apply Z.eqb_neq in E2. simpl. repeat split.
    + repeat constructor. lia.
    + intros [H|[H|[]]]; auto.
    + intros [H|H]; auto.
    + intros x. destruct (0 <=? x), (size <=? x); reflexivity.
Qed.

(** Neighbouring boundary points with running sum zero are exactly the
    maximal gaps, provided no interval is empty. *)
Lemma neighbours_are_gaps size intervals points l r :
  0 <= size ->
  Forall (inside size) intervals ->
  (forall k, In k (keys points) <->
     (k = 0 \/ k = size) \/
     exists iv, In iv intervals /\ (k = fst iv \/ k = fst iv + snd iv)) ->
  (forall x, markers_upto points x = depth intervals x) ->
  (In l (keys points) /\ In r (keys points) /\ l < r /\
   (forall k, In k (keys points) -> k <= l \/ r <= k) /\
   0 + markers_upto points l = 0)
  <-> maximal_gap size intervals l r.
Proof.
  intros Hsize Hin Hkeys Hsum.
  pose proof (inside_positive _ _ Hin) as Hpos.
  assert (Hinside : forall iv, In iv intervals ->
            0 <= fst iv /\ 0 < snd iv /\ fst iv + snd iv <= size).
  { intros iv Hiv. rewrite List.Forall_forall in Hin. exact (Hin iv Hiv). }
  split.
  - intros (Hl & Hr & Hlt & Hgap & Hzero).
    assert (Hfree : forall x, l <= x < r -> covered intervals x = false).
    { intros x Hx. apply (depth_covered intervals x Hpos).
      rewrite <- Hsum, (markers_upto_local points l x) by
        (try lia; intros k Hk; destruct (Hgap k Hk); lia).
      lia. }
    apply Hkeys in Hl. apply Hkeys in Hr.
    unfold maximal_gap. split; [|split; [|split; [exact Hfree|split]]].
    + destruct Hl as [[->| ->]|(iv & Hiv & [->| ->])];
        try pose proof (Hinside iv Hiv); lia.
    + destruct Hr as [[->| ->]|(iv & Hiv & [->| ->])];
        try pose proof (Hinside iv Hiv); lia.
    + destruct Hl as [[->| ->]|(iv & Hiv & [->| ->])].
      * left; reflexivity.
      * destruct Hr as [[->| ->]|(iv & Hiv & [->| ->])];
          try pose proof (Hinside iv Hiv); lia.
      * exfalso. pose proof (Hinside iv Hiv).
        apply (not_covered intervals (fst iv) iv); [apply Hfree|assumption|];
          lia.
      * right. apply covered_true. exists iv. pose proof (Hinside iv Hiv).
        split; [assumption|lia].
    + destruct Hr as [[->| ->]|(iv & Hiv & [->| ->])].
      * destruct Hl as [[->| ->]|(iv & Hiv & [->| ->])];
          try pose proof (Hinside iv Hiv); lia.
      * left; reflexivity.
      * right. apply covered_true. exists iv. pose proof (Hinside iv Hiv).
        split; [assumption|lia].
      * exfalso. pose proof (Hinside iv Hiv).
        apply (not_covered intervals (fst iv + snd iv - 1) iv);
          [apply Hfree|assumption|]; lia.
  - intros (Hl & Hr & Hfree & Hleft & Hright).
    assert (Hkl : In l (keys points)).
    { apply Hkeys. destruct Hleft as [->|Hc]; [auto|].
      apply covered_true in Hc as (iv & Hiv & Hc).
      right. exists iv. split; [exact Hiv|]. right.
      pose proof (not_covered intervals l iv (Hfree l ltac:(lia)) Hiv).
      lia. }
    assert (Hkr : In r (keys points)).
    { apply Hkeys. destruct Hright as [->|Hc]; [auto|].
      apply covered_true in Hc as (iv & Hiv & Hc).
      right. exists iv. split; [exact Hiv|]. left.
      pose proof (not_covered intervals (r - 1) iv
                    (Hfree (r - 1) ltac:(lia)) Hiv).
      lia. }
    split; [exact Hkl|]. split; [exact Hkr|]. split; [lia|]. split.
    + intros k Hk.
      destruct (Z_le_gt_dec k l) as [?|Hlk]; [left; assumption|].
      destruct (Z_le_gt_dec r k) as [?|Hkr']; [right; assumption|].
      exfalso. apply Hkeys in Hk.
      destruct Hk as [[->| ->]|(iv & Hiv & [->| ->])]; try lia.
      * pose proof (Hinside iv Hiv).
        apply (not_covered intervals (fst iv) iv);
          [apply Hfree|assumption|]; lia.
      * pose proof (Hinside iv Hiv).
        apply (not_covered intervals (fst iv + snd iv - 1) iv);
          [apply Hfree|assumption|]; lia.
    + rewrite Hsum, Z.add_0_l.
      apply (depth_covered intervals l Hpos). apply Hfree. lia.
Qed.

End SweepFacts.

(** ** The walk over the boundary points, with empty intervals allowed *)

Section GapFacts.
Import memory.

Local Abbreviation keys points := (map fst points).
Local Abbreviation increasing points :=
  (StronglySorted Z.lt (map fst points)).

(** The first loop of [recycle_arena] on intervals that may be empty. *)
Lemma mark_points_within size : forall offsets sizes points,
  size < 2 ^ 64 ->
  length offsets = length sizes ->
  Forall (within size) (combine offsets sizes) ->
  exists points',
    mark_points offsets sizes points = Some points' /\
    (increasing points -> increasing points') /\
    (forall k, In k (keys points') <->
       In k (keys points) \/
       exists iv, In iv (combine offsets sizes) /\
                  (k = fst iv \/ k = fst iv + snd iv)) /\
    (forall x, markers_upto points' x
               = markers_upto points x + depth (combine offsets sizes) x).
Proof.
  intros offsets.
  induction offsets as [|o offsets IH]; intros sizes points Hsize Hlen Hin.
  - exists points. simpl. repeat split; auto.
    + intros [H|(iv & [] & _)]; exact H.
    + intros x. lia.
  - destruct sizes as [|n sizes]; [discriminate|].
    simpl in Hlen. injection Hlen as Hlen.
    simpl in Hin. inversion Hin as [|? ? (Ho & Hn & Hon) Hin']; subst.
    simpl in Ho, Hn, Hon.
    destruct (IH sizes
                (points_add (wrap64 (o + n)) (-1) (points_add o 1 points))
                Hsize Hlen Hin') as (points' & Hrun & Hinc & Hkeys & Hsum).
    exists points'. simpl. rewrite wrap64_small in * by lia.
    split; [exact Hrun|]. split; [|split].
    + intros Hp. apply Hinc. do 2 apply points_add_increasing. exact Hp.
    + intros k. rewrite Hkeys, !points_add_keys. split.
      * intros [[->|[->|H]]|(iv & Hiv & Hk)].
        -- right. exists (o, n). simpl. auto.
        -- right. exists (o, n). simpl. auto.
        -- left. exact H.
        -- right. exists iv. auto.
      * intros [H|(iv & [<-|Hiv] & Hk)].
        -- left. auto.
        -- simpl in Hk. left. destruct Hk as [->| ->]; auto.
        -- right. exists iv. auto.
    + intros x. rewrite Hsum, !markers_upto_points_add. simpl.
      destruct (o <=? x), (o + n <=? x); lia.
Qed.

(** [depth] counts the intervals that cover [x]; an empty interval counts
    for nothing. *)
Lemma depth_covered_within intervals x :
  Forall (fun iv => 0 <= snd iv) intervals ->
  0 <= depth intervals x /\
  (depth intervals x = 0 <-> covered intervals x = false).
Proof.
  induction intervals as [|[o n] rest IH]; simpl; intros Hpos.
  - split; [lia|]. split; reflexivity.
  - inversion Hpos as [|? ? Hn Hrest]; subst. simpl in Hn.
    destruct (IH Hrest) as [Hge Hiff].
    destruct (o <=? x) eqn:E1, (o + n <=? x) eqn:E2, (x <? o + n) eqn:E3;
      try apply Z.leb_le in E1; try apply Z.leb_gt in E1;
      try apply Z.leb_le in E2; try apply Z.leb_gt in E2;
      try apply Z.ltb_lt in E3; try apply Z.ltb_ge in E3;
      try lia; simpl; (split; [lia|]);
      try (rewrite <- Hiff; split; intros; lia);
      split; intros; try discriminate; lia.
Qed.

(** Either some point lies at or below [x], or all points lie above it. *)
Lemma classic_below (points : list (Z * Z)) (x : Z) :
  (exists k, In k (keys points) /\ k <= x) \/
  (forall k, In k (keys points) -> x < k).
Proof.
  induction points as [|[h v] rest IH]; [right; intros k []|].
  cbn [map fst]. destruct (Z_le_gt_dec h x) as [Hle|Hgt].
  - left. exists h. split; [left; reflexivity|exact Hle].
  - destruct IH as [(k & Hk & Hle)|Habove].
    + left. exists k. split; [right; exact Hk|exact Hle].
    + right. intros k [<-|Hk]; [lia|auto].
Qed.

(** In an increasing list of points, a position between the first and the
    last point lies between two neighbouring points. *)
Lemma neighbours_around (points : list (Z * Z)) (x : Z) :
  increasing points ->
  (exists k, In k (keys points) /\ k <= x) ->
  (exists k, In k (keys points) /\ x < k) ->
  exists l r,
    In l (keys points) /\ In r (keys points) /\ l <= x < r /\
    forall k, In k (keys points) -> k <= l \/ r <= k.
Proof.
  induction points as [|[h v] rest IH];
    intros Hs (kl & Hkl & Hle) (kr & Hkr & Hlt).
  - destruct Hkl.
  - cbn [map fst] in *. inversion Hs as [|? ? Hrest Hall]; subst.
    rewrite List.Forall_forall in Hall.
    assert (Hhx : h <= x).
    { destruct Hkl as [<-|Hkl]; [exact Hle|]. specialize (Hall kl Hkl). lia. }
    assert (Hkr' : In kr (keys rest)).
    { destruct Hkr as [<-|Hkr]; [lia|exact Hkr]. }
    destruct (classic_below rest x) as [Hbelow|Habove].
    + destruct (IH Hrest Hbelow (ex_intro _ kr (conj Hkr' Hlt)))
        as (l & r & Hl & Hr & Hx & Hgap).
      exists l, r. split; [right; exact Hl|]. split; [right; exact Hr|].
      split; [exact Hx|].
      intros k [<-|Hk]; [|auto]. specialize (Hall l Hl). lia.
    + destruct rest as [|[n w] rest']; [destruct Hkr'|].
      cbn [map fst] in *.
      exists h, n. split; [left; reflexivity|].
      split; [right; left; reflexivity|].
      assert (Hxn : x < n) by (apply Habove; left; reflexivity).
      split; [lia|].
      intros k [<-|[<-|Hk]]; [lia|lia|].
      right. inversion Hrest as [|? ? _ Hall']; subst.
      rewrite List.Forall_forall in Hall'. specialize (Hall' k Hk). lia.
Qed.

(** Neighbouring boundary points with running sum zero are exactly the
    pieces of the uncovered part, whatever the lengths of the intervals. *)
Lemma neighbours_are_pieces size intervals (points : list (Z * Z)) l r :
  0 <= size ->
  Forall (within size) intervals ->
  (forall k, In k (keys points) <->
     (k = 0 \/ k = size) \/
     exists iv, In iv intervals /\ (k = fst iv \/ k = fst iv + snd iv)) ->
  (forall x, markers_upto points x = depth intervals x) ->
  (In l (keys points) /\ In r (keys points) /\ l < r /\
   (forall k, In k (keys points) -> k <= l \/ r <= k) /\
   0 + markers_upto points l = 0)
  <-> uncovered_piece size intervals l r.
Proof.
  intros Hsize Hin Hkeys Hsum.
  assert (Hnonneg : Forall (fun iv => 0 <= snd iv) intervals).
  { apply List.Forall_forall. intros iv Hiv.
    rewrite List.Forall_forall in Hin. destruct (Hin iv Hiv) as (_ & Hn & _).
    exact Hn. }
  assert (Hwithin : forall o n, In (o, n) intervals ->
            0 <= o /\ 0 <= n /\ o + n <= size).
  { intros o n Hiv. rewrite List.Forall_forall in Hin. exact (Hin _ Hiv). }
  assert (Hcov : forall o n x, In (o, n) intervals -> o <= x < o + n ->
            covered intervals x = true).
  { intros o n x Hiv Hx. apply covered_true. exists (o, n). auto. }
  assert (Hend : forall k, In k (keys points) ->
            k = 0 \/ k = size \/
            exists o n, In (o, n) intervals /\ (k = o \/ k = o + n)).
  { intros k Hk. apply Hkeys in Hk as [[->| ->]|([o n] & Hiv & Hk)]; auto.
    right; right. exists o, n. auto. }
  unfold uncovered_piece. split.
  - intros (Hl & Hr & Hlt & Hgap & Hzero).
    assert (Hfree : forall x, l <= x < r -> covered intervals x = false).
    { intros x Hx. apply (depth_covered_within intervals x Hnonneg).
      rewrite <- Hsum, (markers_upto_local points l x) by
        (try lia; intros k Hk; destruct (Hgap k Hk); lia).
      lia. }
    assert (Hfree' : forall o n x, In (o, n) intervals -> l <= x < r ->
              ~ (o <= x < o + n)).
    { intros o n x Hiv Hx Hox. pose proof (Hfree x Hx) as Hf.
      rewrite (Hcov o n x Hiv Hox) in Hf. discriminate. }
    assert (Hl0 : 0 <= l).
    { destruct (Hend l Hl) as [->|[->|(o & n & Hiv & Hk)]]; try lia.
      destruct (Hwithin o n Hiv). lia. }
    assert (Hrs : r <= size).
    { destruct (Hend r Hr) as [->|[->|(o & n & Hiv & Hk)]]; try lia.
      destruct (Hwithin o n Hiv). lia. }
    split; [lia|]. split; [exact Hrs|]. split; [exact Hfree|].
    split; [|split].
    + destruct (Hend l Hl) as [->|[->|(o & n & Hiv & [->| ->])]];
        [auto|lia| |].
      * destruct (Hwithin o n Hiv) as (_ & Hn & _).
        destruct (Z.eq_dec n 0) as [->|Hn0]; [auto|].
        exfalso. apply (Hfree' o n o Hiv); lia.
      * destruct (Hwithin o n Hiv) as (_ & Hn & _).
        destruct (Z.eq_dec n 0) as [->|Hn0].
        -- right; right. rewrite Z.add_0_r. exact Hiv.
        -- right; left. apply (Hcov o n). exact Hiv. lia.
    + destruct (Hend r Hr) as [->|[->|(o & n & Hiv & [->| ->])]];
        [lia|auto| |].
      * destruct (Hwithin o n Hiv) as (_ & Hn & _).
        destruct (Z.eq_dec n 0) as [->|Hn0]; [auto|].
        right; left. apply (Hcov o n). exact Hiv. lia.
      * destruct (Hwithin o n Hiv) as (_ & Hn & _).
        destruct (Z.eq_dec n 0) as [->|Hn0].
        -- right; right. rewrite Z.add_0_r. exact Hiv.
        -- exfalso. apply (Hfree' o n (o + n - 1) Hiv); lia.
    + intros k Hk Hiv.
      assert (Hkey : In k (keys points)).
      { apply Hkeys. right. exists (k, 0). auto. }
      destruct (Hgap k Hkey); lia.
  - intros (Hl & Hr & Hfree & Hleft & Hright & Hcut).
    assert (Hfree' : forall o n x, In (o, n) intervals -> l <= x < r ->
              ~ (o <= x < o + n)).
    { intros o n x Hiv Hx Hox. pose proof (Hfree x Hx) as Hf.
      rewrite (Hcov o n x Hiv Hox) in Hf. discriminate. }
    assert (Hkl : In l (keys points)).
    { apply Hkeys. destruct Hleft as [->|[Hc|Hiv]]; [auto| |].
      - apply covered_true in Hc as ([o n] & Hiv & Hc). simpl in Hc.
        right. exists (o, n). split; [exact Hiv|]. right. simpl.
        pose proof (Hfree' o n l Hiv ltac:(lia)). lia.
      - right. exists (l, 0). auto. }
    assert (Hkr : In r (keys points)).
    { apply Hkeys. destruct Hright as [->|[Hc|Hiv]]; [auto| |].
      - apply covered_true in Hc as ([o n] & Hiv & Hc). simpl in Hc.
        right. exists (o, n). split; [exact Hiv|]. left. simpl.
        pose proof (Hfree' o n (r - 1) Hiv ltac:(lia)). lia.
      - right. exists (r, 0). auto. }
    split; [exact Hkl|]. split; [exact Hkr|]. split; [lia|]. split.
    + intros k Hk.
      destruct (Z_le_gt_dec k l) as [?|Hlk]; [left; assumption|].
      destruct (Z_le_gt_dec r k) as [?|Hkr']; [right; assumption|].
      exfalso.
      destruct (Hend k Hk) as [->|[->|(o & n & Hiv & [->| ->])]]; try lia.
      * destruct (Hwithin o n Hiv) as (_ & Hn & _).
        destruct (Z.eq_dec n 0) as [->|Hn0].
        -- apply (Hcut o); [lia|exact Hiv].
        -- apply (Hfree' o n o Hiv); lia.
      * destruct (Hwithin o n Hiv) as (_ & Hn & _).
        destruct (Z.eq_dec n 0) as [->|Hn0].
        -- apply (Hcut o); [lia|exact Hiv].
        -- apply (Hfree' o n (o + n - 1) Hiv); lia.
    + rewrite Hsum, Z.add_0_l.
      apply (depth_covered_within intervals l Hnonneg). apply Hfree. lia.
Qed.

(** Where no empty interval cuts a gap, the pieces are the maximal gaps. *)
Lemma pieces_are_gaps size intervals l r :
  (forall k, In (k, 0) intervals ->
     k <= 0 \/ size <= k \/ covered intervals k = true \/
     covered intervals (k - 1) = true) ->
  uncovered_piece size intervals l r <-> maximal_gap size intervals l r.
Proof.
  intros Hempty. unfold uncovered_piece, maximal_gap. split.
  - intros (Hl & Hr & Hfree & Hleft & Hright & Hcut).
    split; [exact Hl|]. split; [exact Hr|]. split; [exact Hfree|]. split.
    + destruct Hleft as [?|[?|Hiv]]; [auto|auto|].
      destruct (Hempty l Hiv) as [?|[?|[Hc|Hc]]]; [left; lia|lia| |auto].
      rewrite Hfree in Hc by lia. discriminate.
    + destruct Hright as [?|[?|Hiv]]; [auto|auto|].
      destruct (Hempty r Hiv) as [?|[?|[Hc|Hc]]]; [lia|left; lia|auto|].
      rewrite Hfree in Hc by lia. discriminate.
  - intros (Hl & Hr & Hfree & Hleft & Hright).
    split; [exact Hl|]. split; [exact Hr|]. split; [exact Hfree|].
    split; [tauto|]. split; [tauto|].
    intros k Hk Hiv.
    destruct (Hempty k Hiv) as [?|[?|[Hc|Hc]]]; try lia;
      rewrite Hfree in Hc by lia; discriminate.
Qed.

End GapFacts.

(** C2 (amended). For every base, total size [size] and list of
    [(offset, length)] intervals inside [[0, size)] (overlapping, duplicated,
    adjacent or touching the ends, empty, possibly none), [recycle_arena]
    hands to [recycle_resident_memory], each of them once, exactly the pieces
    into which the offsets of the empty intervals cut the uncovered part of
    [[0, size)]: the sub-intervals that are not empty, hold no covered byte,
    end on each side at an end of the range, at a covered byte or at the
    offset of an empty interval, and have no such offset strictly inside.
    Where no empty interval has its offset strictly inside an uncovered gap,
    in particular where no interval is empty, these are exactly the maximal
    uncovered sub-intervals of [[0, size)]; with no interval and [size > 0]
    that is the whole range. The [madvise] calls issued are those of
    [recycle_resident_memory] on these ranges. *)
Theorem recycle_arena_reclaims_maximal_gaps :
  forall page_size base size offsets sizes,
    0 <= size < 2 ^ 64 ->
    length offsets = length sizes ->
    Forall (within size) (combine offsets sizes) ->
    exists ranges,
      memory.recycle_arena_ranges size offsets sizes = Some ranges /\
      memory.recycle_arena page_size base size offsets sizes
      = Some (flat_map
                (fun lr => memory.recycle_resident_memory page_size base
                             (fst lr) (snd lr))
                ranges) /\
      List.NoDup ranges /\
      (forall l r,
         In (l, r) ranges <->
         uncovered_piece size (combine offsets sizes) l r) /\
      ((forall k, In (k, 0) (combine offsets sizes) ->
          k <= 0 \/ size <= k \/
          covered (combine offsets sizes) k = true \/
          covered (combine offsets sizes) (k - 1) = true) ->
       forall l r,
         In (l, r) ranges <-> maximal_gap size (combine offsets sizes) l r) /\
      (Forall (inside size) (combine offsets sizes) ->
       forall l r,
         In (l, r) ranges <-> maximal_gap size (combine offsets sizes) l r) /\
      (offsets = [] -> 0 < size -> ranges = [(0, size)]).
Proof.
  intros page_size base size offsets sizes Hsize Hlen Hin.
  destruct (initial_points_spec size ltac:(lia)) as (Hinc0 & Hkeys0 & Hsum0).
  destruct (mark_points_within size offsets sizes
              (memory.points_assign size 0 (memory.points_assign 0 0 []))
              ltac:(lia) Hlen Hin)
    as (points & Hrun & Hinc & Hkeys & Hsum).
  specialize (Hinc Hinc0).
  exists (memory.sweep (fun left right => [(left, right)]) 0 points).
  unfold memory.recycle_arena_ranges, memory.recycle_arena, memory.arena_points.
  rewrite Hrun.
  assert (Hpieces : forall l r,
            In (l, r) (memory.sweep (fun left right => [(left, right)]) 0
                         points) <->
            uncovered_piece size (combine offsets sizes) l r).
  { intros l r. rewrite sweep_ranges_spec by exact Hinc.
    apply neighbours_are_pieces; [lia|exact Hin| |].
    - intros k. rewrite Hkeys, Hkeys0. reflexivity.
    - intros x. rewrite Hsum, Hsum0. lia. }
  split; [reflexivity|]. split; [|split; [|split; [|split; [|split]]]].
  - rewrite sweep_flat_map. reflexivity.
  - apply sweep_ranges_NoDup. exact Hinc.
  - exact Hpieces.
  - intros Hempty l r. rewrite Hpieces. apply pieces_are_gaps. exact Hempty.
  - intros Hinside l r. rewrite Hpieces. apply pieces_are_gaps.
    intros k Hk. exfalso.
    rewrite List.Forall_forall in Hinside.
    destruct (Hinside (k, 0) Hk) as (_ & Hn & _). simpl in Hn. lia.
  - intros -> Hpos. simpl in Hrun. injection Hrun as <-.
    simpl. destruct (size <? 0) eqn:E1; [apply Z.ltb_lt in E1; lia|].
    destruct (size =? 0) eqn:E2; [apply Z.eqb_eq in E2; lia|].
    reflexivity.
Qed.

Lemma recycle_arena_reclaims_maximal_gaps_witness :
  (0 <= 100 < 2 ^ 64 /\
   length [10; 30; 60; 15] = length [20; 0; 0; 10] /\
   Forall (within 100) (combine [10; 30; 60; 15] [20; 0; 0; 10])) /\
  exists ranges,
    memory.recycle_arena_ranges 100 [10; 30; 60; 15] [20; 0; 0; 10]
    = Some ranges /\
    memory.recycle_arena 4096 0 100 [10; 30; 60; 15] [20; 0; 0; 10]
    = Some (flat_map
              (fun lr => memory.recycle_resident_memory 4096 0
                           (fst lr) (snd lr))
              ranges) /\
    List.NoDup ranges /\
    (forall l r,
       In (l, r) ranges <->
       uncovered_piece 100 (combine [10; 30; 60; 15] [20; 0; 0; 10]) l r).
Proof.
  assert (H : 0 <= 100 < 2 ^ 64 /\
              length [10; 30; 60; 15] = length [20; 0; 0; 10] /\
              Forall (within 100) (combine [10; 30; 60; 15] [20; 0; 0; 10])).
  { split; [lia|]. split; [reflexivity|].
    repeat (constructor; [unfold within; simpl; lia|]). constructor. }
  split; [exact H|].
  destruct H as (H1 & H2 & H3).
  destruct (recycle_arena_reclaims_maximal_gaps 4096 0 100 [10; 30; 60; 15]
              [20; 0; 0; 10] H1 H2 H3)
    as (ranges & Hranges & Hcalls & Hnodup & Hpieces & _).
  exists ranges. auto.
Defined.

(** On the input of the witness above the uncovered gap [[30, 100)] holds
    the offset 60 of an empty interval strictly inside and the offset 30 of
    another at its start: it is handed on in the two pieces [[30, 60)] and
    [[60, 100)]. Two empty intervals strictly inside one gap cut it into
    three pieces. *)
Example empty_intervals_cut_gaps :
  memory.recycle_arena_ranges 100 [10; 30; 60; 15] [20; 0; 0; 10]
  = Some [(0, 10); (30, 60); (60, 100)] /\
  memory.recycle_arena_ranges 100 [30; 60] [0; 0]
  = Some [(0, 30); (30, 60); (60, 100)].
Proof. split; reflexivity. Qed.

(** C2, as stated, fails on an empty interval: with total size 100 and the
    single interval (50, 0) nothing is covered, the only maximal uncovered
    sub-interval is [[0, 100)], and [recycle_arena] reclaims [[0, 50)] and
    [[50, 100)] instead. *)
Lemma recycle_arena_splits_gap_at_empty_interval :
  exists ranges,
    memory.recycle_arena_ranges 100 [50] [0] = Some ranges /\
    ranges = [(0, 50); (50, 100)] /\
    ~ (forall l r,
         In (l, r) ranges <-> maximal_gap 100 (combine [50] [0]) l r).
Proof.
  exists [(0, 50); (50, 100)]. split; [reflexivity|]. split; [reflexivity|].
  intros H. destruct (H 0 100) as [_ Hgap].
  assert (Hmax : maximal_gap 100 (combine [50] [0]) 0 100).
  { unfold maximal_gap. split; [lia|]. split; [lia|]. split; [|auto].
    intros x _. unfold covered. simpl.
    destruct (50 <=? x) eqn:E1, (x <? 50 + 0) eqn:E2; try reflexivity.
    apply Z.leb_le in E1. apply Z.ltb_lt in E2. lia. }
  destruct (Hgap Hmax) as [Heq|[Heq|[]]]; discriminate Heq.
Qed.

(** The split is visible in the pages that are reclaimed: in an arena of two
    pages at address 0 with the empty interval (100, 0), only the second page
    is reclaimed, although both pages are uncovered. *)
Example empty_interval_keeps_a_page :
  memory.recycle_arena 4096 0 8192 [100] [0] = Some [(4096, 4096)] /\
  memory.recycle_arena 4096 0 8192 [] [] = Some [(0, 8192)].
Proof. split; reflexivity. Qed.



(** C8. When the rounded low bound lies above the rounded high bound,
    [recycle_resident_memory] is not a no-op: it issues one [madvise] call at
    the rounded low bound, with the wrapped-around difference as its length. *)
Theorem recycle_resident_memory_inverted :
  forall page_size base left right,
    let aligned_left :=
      memory.align_up (wrap64 (base + left)) page_size in
    let aligned_right :=
      memory.align_down (wrap64 (base + right)) page_size in
    aligned_right < aligned_left ->
    memory.recycle_resident_memory page_size base left right
    = [(aligned_left, wrap64 (aligned_right - aligned_left))].
Proof.
  intros page_size base left right aligned_left aligned_right Hlt.
  unfold memory.recycle_resident_memory,
    memory.recycle_resident_memory_aligned.
  fold aligned_left aligned_right.
  destruct (aligned_left =? aligned_right) eqn:E; [|reflexivity].
  apply Z.eqb_eq in E. lia.
Qed.

Lemma recycle_resident_memory_inverted_witness :
  memory.align_down (wrap64 (1048576 + 20)) 4096
  < memory.align_up (wrap64 (1048576 + 10)) 4096 /\
  memory.recycle_resident_memory 4096 1048576 10 20
  = [(1052672, 2 ^ 64 - 4096)].
Proof.
  assert (H : memory.align_down (wrap64 (1048576 + 20)) 4096
              < memory.align_up (wrap64 (1048576 + 10)) 4096)
    by (vm_compute; reflexivity).
  split; [exact H|].
  exact (recycle_resident_memory_inverted 4096 1048576 10 20 H).
Defined.

(** The same call is reached from [FinalizeArena]: an arena of 100 bytes
    whose first 10 bytes are in use leaves the range [[10, 100)] uncovered,
    which lies inside one page. *)
Example FinalizeArena_small_gap_calls_madvise :
  BulkStore.madvised
    (demo.after [BulkStore.OpMakeArena 100;
                 BulkStore.OpFinalizeArena 4 [0] [10]] demo.store0)
  = [(1052672, 2 ^ 64 - 4096)].
Proof. reflexivity. Qed.

(** ** The payload registry and the arena manager *)

Section StoreFacts.
Context `{D : Deps}.
Import BulkStore.

Lemma emplace_lookup_same `{Countable K} {V : Type} (k : K) (v : V)
  (m : gmap K V) :
  emplace k v m !! k = Some (default v (m !! k)).
Proof.
  unfold emplace. destruct (m !! k) eqn:E; simpl.
  - exact E.
  - apply lookup_insert_eq.
Qed.

Lemma emplace_lookup_other `{Countable K} {V : Type} (k k' : K) (v : V)
  (m : gmap K V) :
  k <> k' -> emplace k v m !! k' = m !! k'.
Proof.
  intros Hne. unfold emplace. destruct (m !! k); [reflexivity|].
  apply lookup_insert_ne. exact Hne.
Qed.

(** [emplace] never replaces or removes a binding. *)
Lemma emplace_keeps `{Countable K} {V : Type} (k k' : K) (v v' : V)
  (m : gmap K V) :
  m !! k' = Some v' -> emplace k v m !! k' = Some v'.
Proof.
  intros Hk'. destruct (decide (k = k')) as [->|Hne].
  - rewrite emplace_lookup_same, Hk'. reflexivity.
  - rewrite emplace_lookup_other by exact Hne. exact Hk'.
Qed.

Lemma arena_bounds_error s object_id lower upper st :
  arena_bounds s object_id lower upper = BoundsError st -> st = Invalid.
Proof.
  unfold arena_bounds.
  repeat (case_match; try discriminate); congruence.
Qed.

(** What a call of [Delete] that returns [OK] has done. *)
Lemma Delete_OK s object_id s' :
  Delete s object_id = Some (OK, s') ->
  ((object_id = EmptyBlobID \/ object_id = WholeRegionID) /\ s' = s) \/
  (object_id <> EmptyBlobID /\ object_id <> WholeRegionID /\
   exists object,
     objects_ s !! object_id = Some object /\
     objects_ s' = delete object_id (objects_ s) /\
     externals_ s' = delete (external_id object) (externals_ s) /\
     arenas_ s' = arenas_ s /\
     spans s' = spans s).
Proof.
  unfold Delete.
  destruct ((object_id =? EmptyBlobID) || (object_id =? WholeRegionID))
    eqn:Hsentinel.
  - intros [= <-]. left. split; [|reflexivity].
    apply orb_true_iff in Hsentinel as [E|E]; apply Z.eqb_eq in E; auto.
  - apply orb_false_iff in Hsentinel as [E1 E2].
    apply Z.eqb_neq in E1. apply Z.eqb_neq in E2.
    destruct (objects_ s !! object_id) as [object|] eqn:Hobj;
      [|discriminate].
    intros Hdel. right. split; [exact E1|]. split; [exact E2|].
    exists object. split; [reflexivity|].
    destruct (arena_fd object =? -1).
    + injection Hdel as <-. simpl. auto.
    + destruct (arena_bounds s object_id _ _) as [lb ub|st|] eqn:Hb.
      * destruct (Z.max _ lb <? Z.min _ ub);
          injection Hdel as <-; simpl; auto.
      * apply arena_bounds_error in Hb. subst st. discriminate.
      * discriminate.
Qed.

(** Whatever its status, [Delete] leaves the spans and the arenas alone and
    touches no entry of the registry but the one of [object_id]. *)
Lemma Delete_frame s object_id st s' :
  Delete s object_id = Some (st, s') ->
  spans s' = spans s /\ arenas_ s' = arenas_ s /\
  (forall id, id <> object_id -> objects_ s' !! id = objects_ s !! id) /\
  objects_ s' !! WholeRegionID = objects_ s !! WholeRegionID.
Proof.
  unfold Delete.
  destruct ((object_id =? EmptyBlobID) || (object_id =? WholeRegionID))
    eqn:Hsentinel.
  - intros [= <- <-]. auto.
  - apply orb_false_iff in Hsentinel as [E1 E2].
    apply Z.eqb_neq in E1. apply Z.eqb_neq in E2.
    assert (Herased : forall w calls,
      let s1 := mk _ w (delete object_id (objects_ s))
                  (delete (external_id (default Payload_MakeEmpty
                                          (objects_ s !! object_id)))
                     (externals_ s))
                  (arenas_ s) (spans s) (madvised s ++ calls) in
      spans s1 = spans s /\ arenas_ s1 = arenas_ s /\
      (forall id, id <> object_id -> objects_ s1 !! id = objects_ s !! id) /\
      objects_ s1 !! WholeRegionID = objects_ s !! WholeRegionID).
    { intros w calls. simpl. repeat split.
      - intros id Hid. apply lookup_delete_ne. congruence.
      - apply lookup_delete_ne. congruence. }
    destruct (objects_ s !! object_id) as [object|] eqn:Hobj.
    + simpl in Herased. destruct (arena_fd object =? -1).
      * intros [= <- <-]. apply (Herased (world_ s) []).
      * destruct (arena_bounds s object_id _ _) as [lb ub|st0|];
          [|intros [= <- <-]; auto|discriminate].
        destruct (Z.max _ lb <? Z.min _ ub);
          intros [= <- <-]; apply (Herased (world_ s) []).
    + intros [= <- <-]. auto.
Qed.

Lemma finalize_blobs_spec fd mmap_size mmap_base :
  forall offsets sizes objects sp objects' sp',
    finalize_blobs fd mmap_size mmap_base offsets sizes objects sp
    = Some (objects', sp') ->
    sp ⊆ sp' /\
    (forall id p, objects !! id = Some p -> objects' !! id = Some p) /\
    (forall id, id ∈ sp' -> id ∈ sp \/ is_Some (objects' !! id)).
Proof.
  induction offsets as [|o offsets IH]; intros sizes objects sp objects' sp'.
  - simpl. intros [= <- <-]. repeat split; auto.
  - destruct sizes as [|n sizes]; [discriminate|]. simpl. intros Hrun.
    apply IH in Hrun as (Hsub & Hkeep & Hnew).
    split; [etrans; [apply union_subseteq_r|exact Hsub]|]. split.
    + intros id p Hid. apply Hkeep. apply emplace_keeps. exact Hid.
    + intros id Hid. destruct (Hnew id Hid) as [Hin|Hsome]; [|auto].
      apply elem_of_union in Hin as [Hin|Hin]; [|auto].
      apply elem_of_singleton in Hin. subst id. right.
      eexists. apply Hkeep. apply emplace_lookup_same.
Qed.

Lemma finalize_blobs_total fd mmap_size mmap_base :
  forall offsets sizes objects sp,
    length offsets = length sizes ->
    is_Some (finalize_blobs fd mmap_size mmap_base offsets sizes objects sp).
Proof.
  induction offsets as [|o offsets IH]; intros sizes objects sp Hlen.
  - simpl. eauto.
  - destruct sizes as [|n sizes]; [discriminate|]. simpl.
    apply IH. simpl in Hlen. congruence.
Qed.

Lemma mark_points_total : forall offsets sizes points,
  length offsets = length sizes ->
  is_Some (memory.mark_points offsets sizes points).
Proof.
  induction offsets as [|o offsets IH]; intros sizes points Hlen.
  - simpl. eauto.
  - destruct sizes as [|n sizes]; [discriminate|]. simpl.
    apply IH. simpl in Hlen. congruence.
Qed.


(** A [Delete] by external id that returns has found no entry, or returns
    what the nested [Delete] by id returns. *)
Lemma Delete_external_cases s eid st s' :
  Delete_external s eid = Some (st, s') ->
  (externals_ s !! eid = None /\ st = OK /\ s' = s) \/
  exists object,
    externals_ s !! eid = Some object /\
    Delete s (object_id object) = Some (st, s').
Proof.
  unfold Delete_external.
  destruct (externals_ s !! eid) as [object|];
    [|intros [= <- <-]; auto].
  destruct (Delete s (object_id object)) as [[st0 s0]|] eqn:Hdel;
    [|discriminate].
  destruct st0;
    try (intros [= <- <-]; right; exists object; split;
         [reflexivity|exact Hdel]).
  destruct (bool_decide _); [discriminate|].
  intros [= <- <-]. right. exists object. split; [reflexivity|exact Hdel].
Qed.

(** No operation removes or replaces the entry of the whole-region id. *)
Lemma exec_keeps_whole_region o s s' p :
  exec o s = Some s' ->
  objects_ s !! WholeRegionID = Some p ->
  objects_ s' !! WholeRegionID = Some p.
Proof.
  destruct o as [size|dsize eid esize|id|ids|eids|id|eid|id|eid|size
                |fd offsets sizes]; simpl; intros Hexec Hp.
  - injection Hexec as <-. unfold PreAllocate.
    destruct (BulkAllocator_Init _ _) as [pointer w].
    destruct (pointer =? 0); simpl; [exact Hp|].
    destruct (GetMallocMapinfo w pointer) as [[fd map_size] offset]. simpl.
    apply emplace_keeps. exact Hp.
  - injection Hexec as <-. unfold Create.
    destruct (dsize =? 0); simpl; [exact Hp|].
    destruct (AllocateMemory _ _ _ _ _) as [[pointer [[fd ms] off]] w].
    destruct (pointer =? 0); simpl; [exact Hp|].
    apply emplace_keeps. exact Hp.
  - congruence.
  - congruence.
  - congruence.
  - destruct (Delete s id) as [[st s1]|] eqn:Hdel; [|discriminate].
    simpl in Hexec. injection Hexec as <-.
    apply Delete_frame in Hdel as (_ & _ & _ & Hw). congruence.
  - destruct (Delete_external s eid) as [[st s1]|] eqn:Hdel; [|discriminate].
    simpl in Hexec. injection Hexec as <-.
    apply Delete_external_cases in Hdel
      as [(_ & _ & ->)|(object & _ & Hdel)]; [exact Hp|].
    apply Delete_frame in Hdel as (_ & _ & _ & Hw). congruence.
  - congruence.
  - congruence.
  - injection Hexec as <-. unfold MakeArena.
    destruct (create_buffer _ _) as [fd w].
    destruct (fd =? -1); simpl; [exact Hp|].
    destruct (mmap_shared w size fd) as [space w']. simpl. exact Hp.
  - unfold FinalizeArena in Hexec.
    destruct (arenas_ s !! fd) as [arena|]; [|simpl in Hexec; congruence].
    destruct (negb _); [simpl in Hexec; congruence|].
    destruct (finalize_blobs _ _ _ _ _ _ _) as [[objects sp]|] eqn:Hfin;
      [|discriminate].
    destruct (memory.recycle_arena _ _ _ _ _); [|discriminate].
    simpl in Hexec. injection Hexec as <-. simpl.
    apply finalize_blobs_spec in Hfin as (_ & Hkeep & _). auto.
Qed.

Lemma run_keeps_whole_region ops : forall s s' p,
  run ops s = Some s' ->
  objects_ s !! WholeRegionID = Some p ->
  objects_ s' !! WholeRegionID = Some p.
Proof.
  induction ops as [|o ops IH]; simpl; intros s s' p Hrun Hp.
  - congruence.
  - destruct (exec o s) as [s1|] eqn:Hexec; [|discriminate].
    eapply IH; [exact Hrun|].
    eapply exec_keeps_whole_region; eassumption.
Qed.


End StoreFacts.

(** C1. A [Delete] that succeeds on a member of [Arena::spans] erases the
    payload from the registry and leaves the id in [Arena::spans]: afterwards
    the invariant "every member of the spans set has a payload in the
    registry" does not hold. *)
Theorem Delete_leaves_span_unregistered `{D : Deps} :
  forall (s s' : BulkStore.t) (object_id : ObjectID),
    object_id ∈ BulkStore.spans s ->
    object_id <> EmptyBlobID ->
    object_id <> BulkStore.WholeRegionID ->
    BulkStore.Delete s object_id = Some (OK, s') ->
    object_id ∈ BulkStore.spans s' /\
    BulkStore.objects_ s' !! object_id = None /\
    ~ BulkStore.spans_registered s'.
Proof.
  intros s s' object_id Hin Hne1 Hne2 Hdel.
  apply Delete_OK in Hdel
    as [[[?|?] _]|(_ & _ & object & _ & Hobjs & _ & _ & Hsp)];
    [contradiction|contradiction|].
  assert (Hgone : BulkStore.objects_ s' !! object_id = None)
    by (rewrite Hobjs; apply lookup_delete_eq).
  rewrite Hsp. split; [exact Hin|]. split; [exact Hgone|].
  intros Hinv. destruct (Hinv object_id) as [p Hp]; [rewrite Hsp; exact Hin|].
  congruence.
Qed.

Lemma Delete_leaves_span_unregistered_witness :
  (demo.blob0 ∈ BulkStore.spans demo.finalized /\
   demo.blob0 <> EmptyBlobID /\
   demo.blob0 <> BulkStore.WholeRegionID /\
   BulkStore.Delete demo.finalized demo.blob0 = Some (OK, demo.deleted)) /\
  (demo.blob0 ∈ BulkStore.spans demo.deleted /\
   BulkStore.objects_ demo.deleted !! demo.blob0 = None /\
   ~ BulkStore.spans_registered demo.deleted).
Proof.
  assert (H1 : demo.blob0 ∈ BulkStore.spans demo.finalized)
    by (refine (bool_decide_unpack _ _); vm_compute; exact I).
  assert (H2 : demo.blob0 <> EmptyBlobID)
    by (intros H; vm_compute in H; discriminate H).
  assert (H3 : demo.blob0 <> BulkStore.WholeRegionID)
    by (intros H; vm_compute in H; discriminate H).
  assert (H4 : BulkStore.Delete demo.finalized demo.blob0
               = Some (OK, demo.deleted))
    by reflexivity.
  split; [auto|].
  exact (Delete_leaves_span_unregistered demo.finalized demo.deleted
           demo.blob0 H1 H2 H3 H4).
Defined.

(** The state of the witness above is reachable, and the stale member makes
    the deletion of its neighbour fail, which succeeds before. *)
Example stale_span_blocks_neighbour :
  BulkStore.reachable demo.deleted /\
  fst <$> BulkStore.Delete demo.finalized demo.blob1 = Some OK /\
  fst <$> BulkStore.Delete demo.deleted demo.blob1 = Some Invalid.
Proof.
  split; [|split; reflexivity].
  exists demo.start, (demo.arena_ops ++ [BulkStore.OpDelete demo.blob0]).
  reflexivity.
Qed.

(** C4. After a [Create] of a non-empty blob that succeeds and returns [id],
    [Exists(id)] is true; and after a [Delete(id)] that succeeds, from that
    state or any later one, [Exists(id)] is false. Such a [Delete] does
    succeed: in every state in which [id] is registered with a pool blob,
    and so right after the [Create] when [id] was not registered before,
    [Delete(id)] returns [OK] and [Exists(id)] is false afterwards. The ids of
    created blobs are taken to differ from the two reserved ids, for which
    [Delete] is a no-op, and the created payload to be a pool blob
    ([arena_fd] is -1): [GenerateBlobID] and the payload constructor belong
    to headers that are not part of the sources. *)
Theorem Exists_after_Create_and_Delete `{D : Deps} :
  forall (s s1 : BulkStore.t) (data_size : Z) (external_id : ExternalID)
         (external_size : Z) (id : ObjectID) (object : Payload),
    0 < data_size ->
    BulkStore.Create s data_size external_id external_size
    = (OK, Some (id, object), s1) ->
    BulkStore.Exists s1 id = true /\
    (id <> EmptyBlobID -> id <> BulkStore.WholeRegionID ->
     (forall s2 s3 : BulkStore.t,
        BulkStore.Delete s2 id = Some (OK, s3) ->
        BulkStore.Exists s3 id = false) /\
     (forall (s2 : BulkStore.t) (p : Payload),
        BulkStore.objects_ s2 !! id = Some p -> arena_fd p = -1 ->
        exists s3 : BulkStore.t,
          BulkStore.Delete s2 id = Some (OK, s3) /\
          BulkStore.Exists s3 id = false) /\
     (BulkStore.objects_ s !! id = None -> arena_fd object = -1 ->
      exists s2 : BulkStore.t,
        BulkStore.Delete s1 id = Some (OK, s2) /\
        BulkStore.Exists s2 id = false)).
Proof.
  intros s s1 data_size external_id external_size id object Hpos Hcreate.
  assert (Hreg : BulkStore.objects_ s1 !! id
                 = Some (default object (BulkStore.objects_ s !! id))).
  { unfold BulkStore.Create in Hcreate.
    destruct (data_size =? 0) eqn:E; [apply Z.eqb_eq in E; lia|].
    destruct (BulkStore.AllocateMemory _ _ _ _ _)
      as [[pointer [[fd ms] off]] w].
    destruct (pointer =? 0); [discriminate|].
    injection Hcreate as <- <- <-.
    cbn [BulkStore.objects_]. apply emplace_lookup_same. }
  split.
  - unfold BulkStore.Exists. apply bool_decide_eq_true.
    rewrite Hreg. eauto.
  - intros Hne1 Hne2.
    assert (Hgone : forall s2 s3 : BulkStore.t,
              BulkStore.Delete s2 id = Some (OK, s3) ->
              BulkStore.Exists s3 id = false).
    { intros s2 s3 Hdel.
      apply Delete_OK in Hdel
        as [[[?|?] _]|(_ & _ & object' & _ & Hobjs & _)];
        [contradiction|contradiction|].
      unfold BulkStore.Exists. apply bool_decide_eq_false.
      rewrite Hobjs, lookup_delete_eq. intros [? ?]. discriminate. }
    assert (Hpool : forall (s2 : BulkStore.t) (p : Payload),
              BulkStore.objects_ s2 !! id = Some p -> arena_fd p = -1 ->
              exists s3 : BulkStore.t,
                BulkStore.Delete s2 id = Some (OK, s3) /\
                BulkStore.Exists s3 id = false).
    { intros s2 p Hp Hfd.
      assert (Hdel : exists s3, BulkStore.Delete s2 id = Some (OK, s3)).
      { unfold BulkStore.Delete.
        pose proof Hne1 as E1. pose proof Hne2 as E2.
        apply Z.eqb_neq in E1. apply Z.eqb_neq in E2.
        rewrite E1, E2, Hp, Hfd. cbn. eauto. }
      destruct Hdel as [s3 Hdel]. exists s3. split; [exact Hdel|].
      exact (Hgone s2 s3 Hdel). }
    split; [exact Hgone|]. split; [exact Hpool|].
    intros Hfresh Hfd. apply (Hpool s1 object); [|exact Hfd].
    rewrite Hreg, Hfresh. reflexivity.
Qed.

Lemma Exists_after_Create_and_Delete_witness :
  (0 < 8 /\
   BulkStore.Create demo.pooled 8 ExternalID_default 0
   = (OK, Some (demo.pool_blob, demo.pool_payload ExternalID_default),
      demo.after [BulkStore.OpCreate 8 ExternalID_default 0] demo.pooled) /\
   demo.pool_blob <> EmptyBlobID /\
   demo.pool_blob <> BulkStore.WholeRegionID /\
   BulkStore.objects_ demo.pooled !! demo.pool_blob = None /\
   arena_fd (demo.pool_payload ExternalID_default) = -1) /\
  BulkStore.Exists
    (demo.after [BulkStore.OpCreate 8 ExternalID_default 0] demo.pooled)
    demo.pool_blob = true /\
  exists s2 : BulkStore.t,
    BulkStore.Delete
      (demo.after [BulkStore.OpCreate 8 ExternalID_default 0] demo.pooled)
      demo.pool_blob
    = Some (OK, s2) /\
    BulkStore.Exists s2 demo.pool_blob = false.
Proof.
  assert (H1 : 0 < 8) by lia.
  assert (H2 : BulkStore.Create demo.pooled 8 ExternalID_default 0
               = (OK, Some (demo.pool_blob,
                            demo.pool_payload ExternalID_default),
                  demo.after [BulkStore.OpCreate 8 ExternalID_default 0]
                    demo.pooled))
    by reflexivity.
  assert (H3 : demo.pool_blob <> EmptyBlobID)
    by (intros H; vm_compute in H; discriminate H).
  assert (H4 : demo.pool_blob <> BulkStore.WholeRegionID)
    by (intros H; vm_compute in H; discriminate H).
  assert (H5 : BulkStore.objects_ demo.pooled !! demo.pool_blob = None)
    by reflexivity.
  assert (H6 : arena_fd (demo.pool_payload ExternalID_default) = -1)
    by reflexivity.
  split; [auto 10|].
  pose proof (Exists_after_Create_and_Delete _ _ _ _ _ _ _ H1 H2)
    as [Hexists Hdelete].
  split; [exact Hexists|].
  exact (proj2 (proj2 (Hdelete H3 H4)) H5 H6).
Defined.

(** In the witness above the created id is not reserved, and the deletion
    right after the creation succeeds. *)
Example created_blob_is_deleted :
  demo.pool_blob <> EmptyBlobID /\
  demo.pool_blob <> BulkStore.WholeRegionID /\
  fst <$> BulkStore.Delete
            (demo.after [BulkStore.OpCreate 8 ExternalID_default 0]
               demo.pooled)
            demo.pool_blob = Some OK.
Proof.
  split; [intros H; vm_compute in H; discriminate H|].
  split; [intros H; vm_compute in H; discriminate H|].
  reflexivity.
Qed.

(** C5. [FinalizeArena] returns [ObjectNotExists] when [fd] is not in the
    open-arena table, whatever the two vectors are, and [UserInputError] when
    [fd] is open and the vectors differ in length; in both cases the store is
    returned as it was (no blob registered, spans and open-arena table
    untouched). After a successful [FinalizeArena], [fd] is no longer open, so
    every further [FinalizeArena] of it returns [ObjectNotExists]. *)
Theorem FinalizeArena_failures `{D : Deps} :
  forall (s : BulkStore.t) (fd : Z) (offsets sizes : list Z),
    (BulkStore.arenas_ s !! fd = None ->
     BulkStore.FinalizeArena s fd offsets sizes = Some (ObjectNotExists, s)) /\
    (is_Some (BulkStore.arenas_ s !! fd) ->
     length offsets <> length sizes ->
     BulkStore.FinalizeArena s fd offsets sizes = Some (UserInputError, s)) /\
    (forall s' : BulkStore.t,
       BulkStore.FinalizeArena s fd offsets sizes = Some (OK, s') ->
       BulkStore.arenas_ s' !! fd = None /\
       forall offsets' sizes',
         BulkStore.FinalizeArena s' fd offsets' sizes'
         = Some (ObjectNotExists, s')).
Proof.
  intros s fd offsets sizes.
  assert (Hmiss : forall (s0 : BulkStore.t) o z,
            BulkStore.arenas_ s0 !! fd = None ->
            BulkStore.FinalizeArena s0 fd o z = Some (ObjectNotExists, s0)).
  { intros s0 o z H. unfold BulkStore.FinalizeArena. rewrite H. reflexivity. }
  split; [intros H; apply Hmiss; exact H|]. split.
  - intros [arena Harena] Hlen. unfold BulkStore.FinalizeArena.
    rewrite Harena.
    destruct (length offsets =? length sizes)%nat eqn:E; [|reflexivity].
    apply Nat.eqb_eq in E. contradiction.
  - intros s' Hfin.
    assert (Hclosed : BulkStore.arenas_ s' !! fd = None).
    { unfold BulkStore.FinalizeArena in Hfin.
      destruct (BulkStore.arenas_ s !! fd) as [arena|]; [|discriminate].
      destruct (negb _); [discriminate|].
      destruct (BulkStore.finalize_blobs _ _ _ _ _ _ _) as [[objects sp]|];
        [|discriminate].
      destruct (memory.recycle_arena _ _ _ _ _); [|discriminate].
      injection Hfin as <-. simpl. apply lookup_delete_eq. }
    split; [exact Hclosed|]. intros o z. apply Hmiss. exact Hclosed.
Qed.

Lemma FinalizeArena_failures_witness :
  (BulkStore.arenas_ demo.opened !! 7 = None /\
   is_Some (BulkStore.arenas_ demo.opened !! 4) /\
   length [0; 50] <> length [50] /\
   BulkStore.FinalizeArena demo.opened 4 [0; 50] [50; 50]
   = Some (OK, demo.finalized)) /\
  BulkStore.FinalizeArena demo.opened 7 [0; 50] [50; 50]
  = Some (ObjectNotExists, demo.opened) /\
  BulkStore.FinalizeArena demo.opened 4 [0; 50] [50]
  = Some (UserInputError, demo.opened) /\
  BulkStore.FinalizeArena demo.finalized 4 [0; 50] [50; 50]
  = Some (ObjectNotExists, demo.finalized).
Proof.
  assert (H1 : BulkStore.arenas_ demo.opened !! 7 = None)
    by reflexivity.
  assert (H2 : is_Some (BulkStore.arenas_ demo.opened !! 4))
    by (eexists; reflexivity).
  assert (H3 : length [0; 50] <> length [50]) by (simpl; lia).
  assert (H4 : BulkStore.FinalizeArena demo.opened 4 [0; 50] [50; 50]
               = Some (OK, demo.finalized))
    by reflexivity.
  split; [auto|].
  split; [exact (proj1 (FinalizeArena_failures demo.opened 7 [0; 50] [50; 50])
                   H1)|].
  split; [exact (proj1 (proj2 (FinalizeArena_failures demo.opened 4 [0; 50]
                                 [50])) H2 H3)|].
  exact (proj2 (proj2 (proj2 (FinalizeArena_failures demo.opened 4 [0; 50]
                                [50; 50])) demo.finalized H4)
           [0; 50] [50; 50]).
Defined.

(** C6. [Create] of size 0 returns [OK] with the empty sentinel id and the
    empty payload, whose size is 0, and returns the store as it was; so does
    any number of repeated calls: the footprint, the registry and the
    external map are the same afterwards. *)
Theorem Create_zero `{D : Deps} :
  forall (s : BulkStore.t) (external_id : ExternalID) (external_size : Z)
         (n : nat),
    BulkStore.Create s 0 external_id external_size
    = (OK, Some (EmptyBlobID, Payload_MakeEmpty), s) /\
    BulkStore.Create_plain s 0
    = (OK, Some (EmptyBlobID, Payload_MakeEmpty), s) /\
    data_size Payload_MakeEmpty = 0 /\
    exists s' : BulkStore.t,
      BulkStore.run
        (List.repeat (BulkStore.OpCreate 0 external_id external_size) n) s
      = Some s' /\
      s' = s /\
      BulkStore.Footprint s' = BulkStore.Footprint s /\
      BulkStore.objects_ s' = BulkStore.objects_ s /\
      BulkStore.externals_ s' = BulkStore.externals_ s.
Proof.
  intros s external_id external_size n.
  split; [reflexivity|]. split; [reflexivity|]. split; [reflexivity|].
  exists s. split; [|auto].
  induction n as [|n IH]; simpl; [reflexivity|exact IH].
Qed.

(** C7 (amended). A successful [Create] of a non-empty blob emplaces the new
    payload in the registry under the new id and in the external map under
    the external id it was given; the overload without an external id passes
    the value-initialised (empty) external id, so it binds that key as well.
    An emplace binds the key unless it is bound already; the other keys of the
    external map, the arenas and the spans are untouched. *)
Theorem Create_emplaces `{D : Deps} :
  forall (s s1 : BulkStore.t) (data_size : Z) (external_id : ExternalID)
         (external_size : Z) (id : ObjectID) (object : Payload),
    0 < data_size ->
    BulkStore.Create s data_size external_id external_size
    = (OK, Some (id, object), s1) ->
    BulkStore.objects_ s1
    = BulkStore.emplace id object (BulkStore.objects_ s) /\
    BulkStore.externals_ s1
    = BulkStore.emplace external_id object (BulkStore.externals_ s) /\
    is_Some (BulkStore.objects_ s1 !! id) /\
    (BulkStore.objects_ s !! id = None ->
     BulkStore.objects_ s1 !! id = Some object) /\
    (BulkStore.externals_ s !! external_id = None ->
     BulkStore.externals_ s1 !! external_id = Some object) /\
    (is_Some (BulkStore.externals_ s !! external_id) ->
     BulkStore.externals_ s1 = BulkStore.externals_ s) /\
    (forall e, e <> external_id ->
       BulkStore.externals_ s1 !! e = BulkStore.externals_ s !! e) /\
    BulkStore.arenas_ s1 = BulkStore.arenas_ s /\
    BulkStore.spans s1 = BulkStore.spans s /\
    BulkStore.Create_plain s data_size
    = BulkStore.Create s data_size ExternalID_default 0.
Proof.
  intros s s1 data_size external_id external_size id object Hpos Hcreate.
  unfold BulkStore.Create in Hcreate.
  destruct (data_size =? 0) eqn:E; [apply Z.eqb_eq in E; lia|].
  destruct (BulkStore.AllocateMemory _ _ _ _ _)
    as [[pointer [[fd ms] off]] w].
  destruct (pointer =? 0); [discriminate|].
  injection Hcreate as <- <- <-.
  cbn [BulkStore.objects_ BulkStore.externals_ BulkStore.arenas_
       BulkStore.spans].
  split; [reflexivity|]. split; [reflexivity|].
  split; [rewrite emplace_lookup_same; eauto|].
  split; [intros H; rewrite emplace_lookup_same, H; reflexivity|].
  split; [intros H; rewrite emplace_lookup_same, H; reflexivity|].
  split.
  { intros [p Hp]. unfold BulkStore.emplace at 1. rewrite Hp. reflexivity. }
  split; [intros e He; apply emplace_lookup_other; congruence|].
  auto.
Qed.

Lemma Create_emplaces_witness :
  (0 < 8 /\
   BulkStore.Create demo.pooled 8 ExternalID_default 0
   = (OK, Some (demo.pool_blob, demo.pool_payload ExternalID_default),
      demo.after [BulkStore.OpCreate 8 ExternalID_default 0] demo.pooled)) /\
  BulkStore.externals_
    (demo.after [BulkStore.OpCreate 8 ExternalID_default 0] demo.pooled)
  = BulkStore.emplace ExternalID_default
      (demo.pool_payload ExternalID_default)
      (BulkStore.externals_ demo.pooled).
Proof.
  assert (H1 : 0 < 8) by lia.
  assert (H2 : BulkStore.Create demo.pooled 8 ExternalID_default 0
               = (OK, Some (demo.pool_blob,
                            demo.pool_payload ExternalID_default),
                  demo.after [BulkStore.OpCreate 8 ExternalID_default 0]
                    demo.pooled))
    by reflexivity.
  split; [auto|].
  exact (proj1 (proj2 (Create_emplaces _ _ _ _ _ _ _ H1 H2))).
Defined.

(** C7, as stated, fails: a [Create] without an external id changes the
    external map. On a store whose external map is empty it binds the empty
    external id to the new payload. *)
Lemma Create_plain_changes_externals :
  exists (id : ObjectID) (object : Payload) (s1 : BulkStore.t),
    BulkStore.Create_plain demo.pooled 8 = (OK, Some (id, object), s1) /\
    BulkStore.externals_ demo.pooled = ∅ /\
    BulkStore.externals_ s1 !! ExternalID_default = Some object /\
    BulkStore.externals_ s1 <> BulkStore.externals_ demo.pooled /\
    BulkStore.Exists_external demo.pooled ExternalID_default = false /\
    BulkStore.Exists_external s1 ExternalID_default = true.
Proof.
  exists demo.pool_blob, (demo.pool_payload ExternalID_default),
    (demo.after [BulkStore.OpCreate 8 ExternalID_default 0] demo.pooled).
  split; [reflexivity|]. split; [reflexivity|].
  split; [reflexivity|]. split; [|split; reflexivity].
  intros Heq.
  assert (H : BulkStore.externals_
                (demo.after [BulkStore.OpCreate 8 ExternalID_default 0]
                   demo.pooled) !! ExternalID_default
              = BulkStore.externals_ demo.pooled !! ExternalID_default)
    by (rewrite Heq; reflexivity).
  vm_compute in H. discriminate H.
Qed.

(** C10 (amended). After a successful [PreAllocate(size)] the registry holds
    a payload under the whole-region id, so [Exists] of that id is true: the
    payload built from the size, the pointer and the mapping data of the
    region just pre-allocated when the id was not bound before the call, and
    the payload that was bound already otherwise, since an emplace does not
    replace. [Delete] of that id and of the empty id return [OK] and leave the
    store as it was; and after any further operations the registry still
    holds the same payload under that id. *)
Theorem PreAllocate_registers_whole_region `{D : Deps} :
  forall (s s' : BulkStore.t) (size : Z),
    BulkStore.PreAllocate s size = (OK, s') ->
    (exists p : Payload,
       BulkStore.objects_ s' !! BulkStore.WholeRegionID = Some p /\
       (BulkStore.objects_ s !! BulkStore.WholeRegionID = None ->
        exists pointer fd map_size offset w,
          BulkAllocator_Init
            (BulkAllocator_SetFootprintLimit (BulkStore.world_ s) size) size
          = (pointer, w) /\
          pointer <> 0 /\
          GetMallocMapinfo w pointer = (fd, map_size, offset) /\
          p = Payload_blob BulkStore.WholeRegionID size pointer fd map_size
                offset) /\
       (forall older : Payload,
          BulkStore.objects_ s !! BulkStore.WholeRegionID = Some older ->
          p = older) /\
       forall (ops : list BulkStore.op) (s'' : BulkStore.t),
         BulkStore.run ops s' = Some s'' ->
         BulkStore.objects_ s'' !! BulkStore.WholeRegionID = Some p /\
         BulkStore.Exists s'' BulkStore.WholeRegionID = true) /\
    BulkStore.Exists s' BulkStore.WholeRegionID = true /\
    BulkStore.Delete s' BulkStore.WholeRegionID = Some (OK, s') /\
    BulkStore.Delete s' EmptyBlobID = Some (OK, s').
Proof.
  intros s s' size Hpre.
  assert (Hdel : forall id,
            id = EmptyBlobID \/ id = BulkStore.WholeRegionID ->
            BulkStore.Delete s' id = Some (OK, s')).
  { intros id Hid. unfold BulkStore.Delete.
    replace ((id =? EmptyBlobID) || (id =? BulkStore.WholeRegionID))
      with true; [reflexivity|].
    symmetry. apply orb_true_iff.
    destruct Hid as [->| ->]; [left|right]; apply Z.eqb_refl. }
  unfold BulkStore.PreAllocate in Hpre.
  destruct (BulkAllocator_Init _ _) as [pointer w] eqn:Hinit.
  destruct (pointer =? 0) eqn:Hnull; [discriminate|].
  apply Z.eqb_neq in Hnull.
  destruct (GetMallocMapinfo w pointer) as [[fd map_size] offset] eqn:Hmap.
  injection Hpre as <-.
  set (p0 := Payload_blob BulkStore.WholeRegionID size pointer fd map_size
               offset) in *.
  set (s1 := BulkStore.mk _ w _ _ _ _ _) in *.
  assert (Hp : BulkStore.objects_ s1 !! BulkStore.WholeRegionID
               = Some (default p0
                         (BulkStore.objects_ s !! BulkStore.WholeRegionID)))
    by apply emplace_lookup_same.
  split; [|split; [|split]].
  - eexists. split; [exact Hp|]. split; [|split].
    + intros Hfresh. rewrite Hfresh. simpl.
      exists pointer, fd, map_size, offset, w. auto.
    + intros older Hold. rewrite Hold. reflexivity.
    + intros ops s'' Hrun.
      pose proof (run_keeps_whole_region ops _ _ _ Hrun Hp) as Hp'.
      split; [exact Hp'|].
      unfold BulkStore.Exists. apply bool_decide_eq_true.
      rewrite Hp'. eauto.
  - unfold BulkStore.Exists. apply bool_decide_eq_true. rewrite Hp. eauto.
  - apply Hdel. auto.
  - apply Hdel. auto.
Qed.

Lemma PreAllocate_registers_whole_region_witness :
  BulkStore.PreAllocate demo.store0 1024 = (OK, demo.pooled) /\
  BulkStore.Exists demo.pooled BulkStore.WholeRegionID = true /\
  BulkStore.Delete demo.pooled BulkStore.WholeRegionID
  = Some (OK, demo.pooled) /\
  BulkStore.Delete demo.pooled EmptyBlobID = Some (OK, demo.pooled).
Proof.
  assert (H : BulkStore.PreAllocate demo.store0 1024 = (OK, demo.pooled))
    by reflexivity.
  split; [exact H|].
  exact (proj2 (PreAllocate_registers_whole_region demo.store0 demo.pooled
                  1024 H)).
Defined.

(** C10, as stated, fails: the payload under the whole-region id need not
    describe the region just pre-allocated. A second [PreAllocate], of 2048
    bytes, returns [OK] and sets the footprint limit to 2048, and the payload
    under the whole-region id is still the one of the first call, of 1024
    bytes. *)
Lemma PreAllocate_keeps_older_whole_region :
  exists s2 : BulkStore.t,
    BulkStore.PreAllocate demo.store0 1024 = (OK, demo.pooled) /\
    BulkStore.PreAllocate demo.pooled 2048 = (OK, s2) /\
    BulkStore.FootprintLimit s2 = 2048 /\
    data_size <$> BulkStore.objects_ s2 !! BulkStore.WholeRegionID
    = Some 1024 /\
    data_size <$> BulkStore.objects_ s2 !! BulkStore.WholeRegionID
    <> Some 2048 /\
    BulkStore.objects_ s2 !! BulkStore.WholeRegionID
    = BulkStore.objects_ demo.pooled !! BulkStore.WholeRegionID.
Proof.
  eexists. split; [reflexivity|]. split; [reflexivity|].
  split; [reflexivity|]. split; [reflexivity|].
  split; [|reflexivity]. intros H. vm_compute in H. discriminate H.
Qed.

(** ** The wire codec *)

Section CodecFacts.
Import codec.

Lemma set_is_object key v root :
  is_document root -> is_object (json.set key v root).
Proof. destruct root; simpl; tauto. Qed.

Lemma is_object_document root : is_object root -> is_document root.
Proof. destruct root; simpl; tauto. Qed.

Lemma null_is_document : is_document json.null.
Proof. exact I. Qed.

Lemma at_key_set_eq key v root :
  is_document root -> at_key (json.set key v root) key = Ok v.
Proof.
  destruct root; simpl; try tauto; intros _.
  - rewrite lookup_singleton_eq. reflexivity.
  - rewrite lookup_insert_eq. reflexivity.
Qed.

Lemma at_key_set_ne key key' v root :
  key <> key' -> at_key (json.set key v root) key' = at_key root key'.
Proof.
  intros Hne. destruct root; simpl; try reflexivity.
  - rewrite lookup_singleton_ne by exact Hne. reflexivity.
  - rewrite lookup_insert_ne by exact Hne. reflexivity.
Qed.

Lemma value_set_eq {A : Type} (get : json.t -> result A) key v root d :
  is_document root -> value get (json.set key v root) key d = get v.
Proof.
  destruct root; simpl; try tauto; intros _.
  - rewrite lookup_singleton_eq. reflexivity.
  - rewrite lookup_insert_eq. reflexivity.
Qed.

Lemma value_set_ne {A : Type} (get : json.t -> result A) key key' v root d :
  key <> key' -> is_object root ->
  value get (json.set key v root) key' d = value get root key' d.
Proof.
  intros Hne. destruct root; simpl; try tauto; intros _.
  rewrite lookup_insert_ne by exact Hne. reflexivity.
Qed.

Lemma value_set_null_ne {A : Type} (get : json.t -> result A) key key' v d :
  key <> key' -> value get (json.set key v json.null) key' d = Ok d.
Proof.
  intros Hne. simpl. rewrite lookup_singleton_ne by exact Hne. reflexivity.
Qed.

Lemma contains_set_ne key key' v root :
  key <> key' ->
  json.contains (json.set key v root) key' = json.contains root key'.
Proof.
  intros Hne. destruct root; simpl; try reflexivity.
  - rewrite lookup_singleton_ne by exact Hne.
    apply bool_decide_eq_false. intros [? ?]. discriminate.
  - rewrite lookup_insert_ne by exact Hne. reflexivity.
Qed.

Lemma contains_null key : json.contains json.null key = false.
Proof. reflexivity. Qed.

Lemma eq_string_refl s : json.eq_string (json.str s) s = true.
Proof. simpl. apply bool_decide_eq_true. reflexivity. Qed.

Lemma to_signed_small bits z :
  0 < bits -> - 2 ^ (bits - 1) <= z < 2 ^ (bits - 1) -> to_signed bits z = z.
Proof.
  intros Hbits Hz. unfold to_signed.
  assert (H2 : 2 ^ bits = 2 * 2 ^ (bits - 1)).
  { replace bits with (Z.succ (bits - 1)) at 1 by lia.
    rewrite Z.pow_succ_r by lia. reflexivity. }
  rewrite Z.mod_small by lia. lia.
Qed.

Lemma get_uint64_unsigned z :
  is_uint64 z -> get_uint64 (json.number_unsigned z) = Ok z.
Proof. intros H. simpl. rewrite wrap64_small by exact H. reflexivity. Qed.

Lemma get_int_integer z :
  is_int z -> get_int (json.number_integer z) = Ok z.
Proof.
  intros H. simpl. unfold to_int.
  rewrite to_signed_small by (unfold is_int in H; lia). reflexivity.
Qed.

Lemma get_int64_integer z :
  is_int64 z -> get_int64 (json.number_integer z) = Ok z.
Proof.
  intros H. simpl. unfold to_int64.
  rewrite to_signed_small by (unfold is_int64 in H; lia). reflexivity.
Qed.

(** The getters do not depend on how a number is tagged. *)
Lemma getters_ignore_number_tag z :
  get_int (json.number_unsigned z) = get_int (json.number_integer z) /\
  get_int64 (json.number_unsigned z) = get_int64 (json.number_integer z) /\
  get_uint64 (json.number_unsigned z) = get_uint64 (json.number_integer z).
Proof. repeat split. Qed.

Lemma get_vector_uint64s l :
  Forall is_uint64 l -> get_vector get_uint64 (of_uint64s l) = Ok l.
Proof.
  unfold of_uint64s. simpl. induction 1 as [|z l Hz Hl IH]; simpl.
  - reflexivity.
  - rewrite wrap64_small by exact Hz. simpl. rewrite IH. reflexivity.
Qed.

End CodecFacts.

Create HintDb json.
#[local] Hint Resolve set_is_object is_object_document null_is_document
  : json.

(** Reads the fields back from a document built by a chain of assignments. *)
Ltac read_back :=
  repeat first
    [ rewrite at_key_set_eq by auto 10 with json
    | rewrite at_key_set_ne by discriminate
    | rewrite value_set_eq by auto 10 with json
    | rewrite value_set_ne by (try discriminate; auto 10 with json)
    | rewrite value_set_null_ne by discriminate
    | rewrite contains_set_ne by discriminate
    | rewrite contains_null
    | rewrite eq_string_refl
    | rewrite get_uint64_unsigned by assumption
    | rewrite get_int_integer by assumption
    | rewrite get_int64_integer by assumption
    | rewrite get_vector_uint64s by assumption
    | rewrite bool_decide_eq_true_2 by reflexivity
    | progress cbn [result_bind codec.get_bool codec.get_string negb
                    Status_ok] ].

(** *** Keys written by [std::to_string] *)

Section IndexedFacts.
Import codec.

Lemma last_char_cons c s :
  s <> EmptyString -> last_char (String c s) = last_char s.
Proof. destruct s; [congruence|reflexivity]. Qed.

Lemma pretty_N_go_last (x : N) : forall s,
  s <> EmptyString -> last_char (pretty_N_go x s) = last_char s.
Proof.
  induction (N.lt_wf_0 x) as [x _ IH]. intros s Hs.
  destruct (decide (x = 0%N)) as [->|Hx].
  - rewrite pretty_N_go_0. reflexivity.
  - rewrite pretty_N_go_step by lia.
    rewrite IH; [apply last_char_cons; exact Hs| |discriminate].
    apply N.div_lt; lia.
Qed.

(** The decimal representation of a number that is not negative ends with a
    digit. *)
Lemma pretty_Z_last (z : Z) :
  0 <= z -> exists d : N, last_char (pretty z) = Some (pretty_N_char d).
Proof.
  intros Hz. destruct z as [|p|p]; [exists 0%N; reflexivity| |lia].
  change (pretty (Z.pos p)) with (pretty (N.pos p)).
  unfold pretty, pretty_N.
  destruct (decide (N.pos p = 0%N)) as [E|_]; [discriminate E|].
  rewrite pretty_N_go_step by lia.
  rewrite pretty_N_go_last by discriminate.
  eexists. reflexivity.
Qed.

Lemma pretty_Z_not_word (z : Z) (word : string) (c : ascii) :
  0 <= z -> last_char word = Some c ->
  (forall d : N, pretty_N_char d <> c) -> pretty z <> word.
Proof.
  intros Hz Hword Hc Heq. destruct (pretty_Z_last z Hz) as [d Hd].
  rewrite Heq, Hword in Hd. injection Hd as Hd. exact (Hc d (eq_sym Hd)).
Qed.

Lemma pretty_Z_not_type (z : Z) : 0 <= z -> pretty z <> "type"%string.
Proof.
  intros Hz. apply (pretty_Z_not_word z _ "e"%char Hz); [reflexivity|].
  intros d. unfold pretty_N_char. repeat case_match; discriminate.
Qed.

Lemma pretty_Z_not_num (z : Z) : 0 <= z -> pretty z <> "num"%string.
Proof.
  intros Hz. apply (pretty_Z_not_word z _ "m"%char Hz); [reflexivity|].
  intros d. unfold pretty_N_char. repeat case_match; discriminate.
Qed.

Context {A : Type} (conv : A -> json.t).

Lemma set_indexed_is_object items : forall idx root,
  is_object root -> is_object (set_indexed conv idx items root).
Proof.
  induction items as [|item items IH]; intros idx root Hroot; simpl.
  - exact Hroot.
  - apply IH. auto with json.
Qed.

Lemma at_key_set_indexed_other key items : forall idx root,
  (forall j, idx <= j -> pretty j <> key) ->
  at_key (set_indexed conv idx items root) key = at_key root key.
Proof.
  induction items as [|item items IH]; intros idx root Hkey; simpl.
  - reflexivity.
  - rewrite IH by (intros j Hj; apply Hkey; lia).
    apply at_key_set_ne. apply Hkey. lia.
Qed.

Lemma at_key_set_indexed_hit items : forall idx root (j : nat) item,
  is_document root ->
  nth_error items j = Some item ->
  at_key (set_indexed conv idx items root) (pretty (idx + Z.of_nat j))
  = Ok (conv item).
Proof.
  induction items as [|item0 items IH]; intros idx root j item Hroot Hj.
  - destruct j; discriminate.
  - destruct j as [|j]; cbn [set_indexed nth_error] in Hj |- *.
    + injection Hj as ->. rewrite Z.add_0_r.
      rewrite at_key_set_indexed_other.
      * apply at_key_set_eq. exact Hroot.
      * intros k Hk Heq. apply (inj pretty) in Heq. lia.
    + replace (idx + Z.of_nat (S j)) with (idx + 1 + Z.of_nat j) by lia.
      apply (IH (idx + 1)); auto with json.
Qed.

Lemma read_indexed_spec (get : json.t -> result A) root items :
  forall idx out,
    (forall (j : nat) item,
       nth_error items j = Some item ->
       at_key root (pretty (idx + Z.of_nat j)) = Ok (conv item)) ->
    (forall item, In item items -> get (conv item) = Ok item) ->
    read_indexed get root idx (length items) out = Ok (out ++ items).
Proof.
  induction items as [|item items IH]; intros idx out Hat Hget; simpl.
  - rewrite app_nil_r. reflexivity.
  - pose proof (Hat 0%nat item eq_refl) as Hhead.
    change (Z.of_nat 0) with 0 in Hhead. rewrite Z.add_0_r in Hhead.
    rewrite Hhead. simpl.
    rewrite Hget by (left; reflexivity). simpl.
    rewrite IH.
    + rewrite <- app_assoc. reflexivity.
    + intros j item' Hj.
      replace (idx + 1 + Z.of_nat j) with (idx + Z.of_nat (S j)) by lia.
      apply Hat. exact Hj.
    + intros item' Hin. apply Hget. right. exact Hin.
Qed.

(** A request of the form [{"type": tag, "0": ..., "1": ..., "num": n}]. *)
Lemma indexed_request_roundtrip (get : json.t -> result A) tag items out :
  Z.of_nat (length items) < 2 ^ 64 ->
  (forall item, In item items -> get (conv item) = Ok item) ->
  let root :=
    json.set "num" (json.number_unsigned (Z.of_nat (length items)))
      (set_indexed conv 0 items
         (json.set "type" (json.str tag) json.null)) in
  ASSERT_type root tag (
    let* num := result_bind (at_key root "num") get_uint64 in
    read_indexed get root 0 (Z.to_nat num) out)
  = Ok (out ++ items).
Proof.
  intros Hlen Hget root. unfold ASSERT_type. subst root.
  rewrite at_key_set_ne by discriminate.
  rewrite at_key_set_indexed_other
    by (intros j Hj; apply pretty_Z_not_type; lia).
  rewrite at_key_set_eq by exact I.
  cbn [result_bind]. rewrite eq_string_refl.
  rewrite at_key_set_eq
    by (apply is_object_document, set_indexed_is_object; exact I).
  cbn [result_bind].
  rewrite get_uint64_unsigned by (unfold is_uint64; lia).
  cbn [result_bind]. rewrite Nat2Z.id.
  apply read_indexed_spec; [|exact Hget].
  intros j item Hj.
  rewrite at_key_set_ne
    by (intros Heq; symmetry in Heq; revert Heq; apply pretty_Z_not_num; lia).
  apply at_key_set_indexed_hit; [exact I|exact Hj].
Qed.

End IndexedFacts.

Create HintDb codec.
#[local] Hint Unfold
  codec.WriteRegisterRequest codec.ReadRegisterRequest
  codec.WriteRegisterReply codec.ReadRegisterReply codec.WriteGetDataRequest
  codec.ReadGetDataRequest codec.WriteListDataRequest
  codec.ReadListDataRequest codec.WriteCreateBufferRequest
  codec.ReadCreateBufferRequest codec.WriteCreateRemoteBufferRequest
  codec.ReadCreateRemoteBufferRequest codec.WriteDropBufferRequest
  codec.ReadDropBufferRequest codec.WriteDropBufferReply
  codec.ReadDropBufferReply codec.WriteCreateDataRequest
  codec.ReadCreateDataRequest codec.WriteCreateDataReply
  codec.ReadCreateDataReply codec.WritePersistRequest
  codec.ReadPersistRequest codec.WritePersistReply codec.ReadPersistReply
  codec.WriteIfPersistRequest codec.ReadIfPersistRequest
  codec.WriteIfPersistReply codec.ReadIfPersistReply codec.WriteExistsRequest
  codec.ReadExistsRequest codec.WriteExistsReply codec.ReadExistsReply
  codec.WriteDelDataRequest codec.ReadDelDataRequest codec.WriteDelDataReply
  codec.ReadDelDataReply codec.WriteClusterMetaRequest
  codec.ReadClusterMetaRequest codec.WriteClusterMetaReply
  codec.ReadClusterMetaReply codec.WriteInstanceStatusRequest
  codec.ReadInstanceStatusRequest codec.WriteInstanceStatusReply
  codec.ReadInstanceStatusReply codec.WritePutNameRequest
  codec.ReadPutNameRequest codec.WritePutNameReply codec.ReadPutNameReply
  codec.WriteGetNameRequest codec.ReadGetNameRequest codec.WriteGetNameReply
  codec.ReadGetNameReply codec.WriteDropNameRequest codec.ReadDropNameRequest
  codec.WriteDropNameReply codec.ReadDropNameReply
  codec.WriteMigrateObjectRequest codec.ReadMigrateObjectRequest
  codec.WriteMigrateObjectReply codec.ReadMigrateObjectReply
  codec.WriteCreateStreamRequest codec.ReadCreateStreamRequest
  codec.WriteCreateStreamReply codec.ReadCreateStreamReply
  codec.WriteOpenStreamRequest codec.ReadOpenStreamRequest
  codec.WriteOpenStreamReply codec.ReadOpenStreamReply
  codec.WriteGetNextStreamChunkRequest codec.ReadGetNextStreamChunkRequest
  codec.WritePushNextStreamChunkRequest codec.ReadPushNextStreamChunkRequest
  codec.WritePushNextStreamChunkReply codec.ReadPushNextStreamChunkReply
  codec.WritePullNextStreamChunkRequest codec.ReadPullNextStreamChunkRequest
  codec.WritePullNextStreamChunkReply codec.ReadPullNextStreamChunkReply
  codec.WriteStopStreamRequest codec.ReadStopStreamRequest
  codec.WriteStopStreamReply codec.ReadStopStreamReply
  codec.WriteShallowCopyRequest codec.ReadShallowCopyRequest
  codec.WriteShallowCopyReply codec.ReadShallowCopyReply
  codec.WriteDeepCopyRequest codec.ReadDeepCopyRequest
  codec.WriteDeepCopyReply codec.ReadDeepCopyReply
  codec.WriteMakeArenaRequest codec.ReadMakeArenaRequest
  codec.WriteMakeArenaReply codec.ReadMakeArenaReply
  codec.WriteFinalizeArenaRequest codec.ReadFinalizeArenaRequest
  codec.WriteFinalizeArenaReply codec.ReadFinalizeArenaReply
  codec.WriteClearRequest codec.ReadClearRequest codec.WriteClearReply
  codec.ReadClearReply codec.WriteDebugRequest codec.ReadDebugRequest
  codec.WriteDebugReply codec.ReadDebugReply
  codec.WriteModifyReferenceCountRequest
  codec.ReadModifyReferenceCountRequest codec.WriteModifyReferenceCountReply
  codec.ReadModifyReferenceCountReply codec.WriteShallowCopyRequest_plain
  codec.WriteGetDataReply codec.ReadGetDataReply codec.ASSERT_type
  codec.CHECK_IPC_ERROR codec.encode_msg
  : codec.

(** Unfolds the encoder and the decoder of a message and reads the fields
    back. *)
Ltac roundtrip := intros; autounfold with codec; read_back; reflexivity.

Lemma RegisterRequest_roundtrip (version : string) :
  codec.ReadRegisterRequest (codec.WriteRegisterRequest version)
  = Ok version.
Proof. roundtrip. Qed.

Lemma RegisterReply_roundtrip
  (version ipc_socket rpc_endpoint : string) (instance_id : Z) :
  is_uint64 instance_id ->
  codec.ReadRegisterReply
    (codec.WriteRegisterReply version ipc_socket rpc_endpoint instance_id)
  = Ok (ipc_socket, rpc_endpoint, instance_id, version).
Proof. roundtrip. Qed.

Lemma GetDataRequest_roundtrip (ids : list Z) (sync_remote wait : bool) :
  Forall is_uint64 ids ->
  codec.ReadGetDataRequest (codec.WriteGetDataRequest ids sync_remote wait)
  = Ok (ids, sync_remote, wait).
Proof. roundtrip. Qed.

Lemma ListDataRequest_roundtrip (pattern : string) (regex : bool) (limit : Z) :
  is_uint64 limit ->
  codec.ReadListDataRequest (codec.WriteListDataRequest pattern regex limit)
  = Ok (pattern, regex, limit).
Proof. roundtrip. Qed.

Lemma CreateBufferRequest_roundtrip
  (size : Z) (external_id : ExternalID) (external_size : Z) :
  is_uint64 size ->
  is_uint64 external_size ->
  codec.ReadCreateBufferRequest
    (codec.WriteCreateBufferRequest size external_id external_size)
  = Ok (size, external_id, external_size).
Proof. roundtrip. Qed.

Lemma CreateRemoteBufferRequest_roundtrip (size : Z) :
  is_uint64 size ->
  codec.ReadCreateRemoteBufferRequest
    (codec.WriteCreateRemoteBufferRequest size)
  = Ok size.
Proof. roundtrip. Qed.

Lemma DropBufferRequest_roundtrip (id : Z) :
  is_uint64 id ->
  codec.ReadDropBufferRequest (codec.WriteDropBufferRequest id)
  = Ok id.
Proof. roundtrip. Qed.

Lemma DropBufferReply_roundtrip :
  codec.ReadDropBufferReply codec.WriteDropBufferReply
  = Ok tt.
Proof. roundtrip. Qed.

Lemma CreateDataRequest_roundtrip (content : json.t) :
  codec.ReadCreateDataRequest (codec.WriteCreateDataRequest content)
  = Ok content.
Proof. roundtrip. Qed.

Lemma CreateDataReply_roundtrip (id signature instance_id : Z) :
  is_uint64 id ->
  is_uint64 signature ->
  is_uint64 instance_id ->
  codec.ReadCreateDataReply
    (codec.WriteCreateDataReply id signature instance_id)
  = Ok (id, signature, instance_id).
Proof. roundtrip. Qed.

Lemma PersistRequest_roundtrip (id : Z) :
  is_uint64 id ->
  codec.ReadPersistRequest (codec.WritePersistRequest id)
  = Ok id.
Proof. roundtrip. Qed.

Lemma PersistReply_roundtrip :
  codec.ReadPersistReply codec.WritePersistReply
  = Ok tt.
Proof. roundtrip. Qed.

Lemma IfPersistRequest_roundtrip (id : Z) :
  is_uint64 id ->
  codec.ReadIfPersistRequest (codec.WriteIfPersistRequest id)
  = Ok id.
Proof. roundtrip. Qed.

Lemma IfPersistReply_roundtrip (persist : bool) :
  codec.ReadIfPersistReply (codec.WriteIfPersistReply persist)
  = Ok persist.
Proof. roundtrip. Qed.

Lemma ExistsRequest_roundtrip (id : Z) :
  is_uint64 id ->
  codec.ReadExistsRequest (codec.WriteExistsRequest id)
  = Ok id.
Proof. roundtrip. Qed.

Lemma ExistsReply_roundtrip (exists_ : bool) :
  codec.ReadExistsReply (codec.WriteExistsReply exists_)
  = Ok exists_.
Proof. roundtrip. Qed.

Lemma DelDataRequest_roundtrip (ids : list Z) (force deep fastpath : bool) :
  Forall is_uint64 ids ->
  codec.ReadDelDataRequest (codec.WriteDelDataRequest ids force deep fastpath)
  = Ok (ids, force, deep, fastpath).
Proof. roundtrip. Qed.

Lemma DelDataReply_roundtrip :
  codec.ReadDelDataReply codec.WriteDelDataReply
  = Ok tt.
Proof. roundtrip. Qed.

Lemma ClusterMetaRequest_roundtrip :
  codec.ReadClusterMetaRequest codec.WriteClusterMetaRequest
  = Ok tt.
Proof. roundtrip. Qed.

Lemma ClusterMetaReply_roundtrip (meta : json.t) :
  codec.ReadClusterMetaReply (codec.WriteClusterMetaReply meta)
  = Ok meta.
Proof. roundtrip. Qed.

Lemma InstanceStatusRequest_roundtrip :
  codec.ReadInstanceStatusRequest codec.WriteInstanceStatusRequest
  = Ok tt.
Proof. roundtrip. Qed.

Lemma InstanceStatusReply_roundtrip (meta : json.t) :
  codec.ReadInstanceStatusReply (codec.WriteInstanceStatusReply meta)
  = Ok meta.
Proof. roundtrip. Qed.

Lemma PutNameRequest_roundtrip (object_id : Z) (name : string) :
  is_uint64 object_id ->
  codec.ReadPutNameRequest (codec.WritePutNameRequest object_id name)
  = Ok (object_id, name).
Proof. roundtrip. Qed.

Lemma PutNameReply_roundtrip :
  codec.ReadPutNameReply codec.WritePutNameReply
  = Ok tt.
Proof. roundtrip. Qed.

Lemma GetNameRequest_roundtrip (name : string) (wait : bool) :
  codec.ReadGetNameRequest (codec.WriteGetNameRequest name wait)
  = Ok (name, wait).
Proof. roundtrip. Qed.

Lemma GetNameReply_roundtrip (object_id : Z) :
  is_uint64 object_id ->
  codec.ReadGetNameReply (codec.WriteGetNameReply object_id)
  = Ok object_id.
Proof. roundtrip. Qed.

Lemma DropNameRequest_roundtrip (name : string) :
  codec.ReadDropNameRequest (codec.WriteDropNameRequest name)
  = Ok name.
Proof. roundtrip. Qed.

Lemma DropNameReply_roundtrip :
  codec.ReadDropNameReply codec.WriteDropNameReply
  = Ok tt.
Proof. roundtrip. Qed.

Lemma MigrateObjectRequest_roundtrip
  (object_id : Z) (local is_stream : bool) (peer peer_rpc_endpoint : string) :
  is_uint64 object_id ->
  codec.ReadMigrateObjectRequest
    (codec.WriteMigrateObjectRequest object_id local is_stream peer
       peer_rpc_endpoint)
  = Ok (object_id, local, is_stream, peer, peer_rpc_endpoint).
Proof. roundtrip. Qed.

Lemma MigrateObjectReply_roundtrip (object_id : Z) :
  is_uint64 object_id ->
  codec.ReadMigrateObjectReply (codec.WriteMigrateObjectReply object_id)
  = Ok object_id.
Proof. roundtrip. Qed.

Lemma CreateStreamRequest_roundtrip (object_id : Z) :
  is_uint64 object_id ->
  codec.ReadCreateStreamRequest (codec.WriteCreateStreamRequest object_id)
  = Ok object_id.
Proof. roundtrip. Qed.

Lemma CreateStreamReply_roundtrip :
  codec.ReadCreateStreamReply codec.WriteCreateStreamReply
  = Ok tt.
Proof. roundtrip. Qed.

Lemma OpenStreamRequest_roundtrip (object_id mode : Z) :
  is_uint64 object_id ->
  is_int64 mode ->
  codec.ReadOpenStreamRequest (codec.WriteOpenStreamRequest object_id mode)
  = Ok (object_id, mode).
Proof. roundtrip. Qed.

Lemma OpenStreamReply_roundtrip :
  codec.ReadOpenStreamReply codec.WriteOpenStreamReply
  = Ok tt.
Proof. roundtrip. Qed.

Lemma GetNextStreamChunkRequest_roundtrip (stream_id size : Z) :
  is_uint64 stream_id ->
  is_uint64 size ->
  codec.ReadGetNextStreamChunkRequest
    (codec.WriteGetNextStreamChunkRequest stream_id size)
  = Ok (stream_id, size).
Proof. roundtrip. Qed.

Lemma PushNextStreamChunkRequest_roundtrip (stream_id chunk : Z) :
  is_uint64 stream_id ->
  is_uint64 chunk ->
  codec.ReadPushNextStreamChunkRequest
    (codec.WritePushNextStreamChunkRequest stream_id chunk)
  = Ok (stream_id, chunk).
Proof. roundtrip. Qed.

Lemma PushNextStreamChunkReply_roundtrip :
  codec.ReadPushNextStreamChunkReply codec.WritePushNextStreamChunkReply
  = Ok tt.
Proof. roundtrip. Qed.

Lemma PullNextStreamChunkRequest_roundtrip (stream_id : Z) :
  is_uint64 stream_id ->
  codec.ReadPullNextStreamChunkRequest
    (codec.WritePullNextStreamChunkRequest stream_id)
  = Ok stream_id.
Proof. roundtrip. Qed.

Lemma PullNextStreamChunkReply_roundtrip (chunk : Z) :
  is_uint64 chunk ->
  codec.ReadPullNextStreamChunkReply (codec.WritePullNextStreamChunkReply chunk)
  = Ok chunk.
Proof. roundtrip. Qed.

Lemma StopStreamRequest_roundtrip (stream_id : Z) (failed : bool) :
  is_uint64 stream_id ->
  codec.ReadStopStreamRequest (codec.WriteStopStreamRequest stream_id failed)
  = Ok (stream_id, failed).
Proof. roundtrip. Qed.

Lemma StopStreamReply_roundtrip :
  codec.ReadStopStreamReply codec.WriteStopStreamReply
  = Ok tt.
Proof. roundtrip. Qed.

Lemma ShallowCopyRequest_roundtrip (id : Z) (extra_metadata : json.t) :
  is_uint64 id ->
  codec.ReadShallowCopyRequest (codec.WriteShallowCopyRequest id extra_metadata)
  = Ok (id, extra_metadata).
Proof. roundtrip. Qed.

Lemma ShallowCopyReply_roundtrip (target_id : Z) :
  is_uint64 target_id ->
  codec.ReadShallowCopyReply (codec.WriteShallowCopyReply target_id)
  = Ok target_id.
Proof. roundtrip. Qed.

Lemma DeepCopyRequest_roundtrip
  (object_id : Z) (peer peer_rpc_endpoint : string) :
  is_uint64 object_id ->
  codec.ReadDeepCopyRequest
    (codec.WriteDeepCopyRequest object_id peer peer_rpc_endpoint)
  = Ok (object_id, peer, peer_rpc_endpoint).
Proof. roundtrip. Qed.

Lemma DeepCopyReply_roundtrip (object_id : Z) :
  is_uint64 object_id ->
  codec.ReadDeepCopyReply (codec.WriteDeepCopyReply object_id)
  = Ok object_id.
Proof. roundtrip. Qed.

Lemma MakeArenaRequest_roundtrip (size : Z) :
  is_uint64 size ->
  codec.ReadMakeArenaRequest (codec.WriteMakeArenaRequest size)
  = Ok size.
Proof. roundtrip. Qed.

Lemma MakeArenaReply_roundtrip (fd size base : Z) :
  is_int fd ->
  is_uint64 size ->
  is_uint64 base ->
  codec.ReadMakeArenaReply (codec.WriteMakeArenaReply fd size base)
  = Ok (fd, size, base).
Proof. roundtrip. Qed.

Lemma FinalizeArenaRequest_roundtrip (fd : Z) (offsets sizes : list Z) :
  is_int fd ->
  Forall is_uint64 offsets ->
  Forall is_uint64 sizes ->
  codec.ReadFinalizeArenaRequest
    (codec.WriteFinalizeArenaRequest fd offsets sizes)
  = Ok (fd, offsets, sizes).
Proof. roundtrip. Qed.

Lemma FinalizeArenaReply_roundtrip :
  codec.ReadFinalizeArenaReply codec.WriteFinalizeArenaReply
  = Ok tt.
Proof. roundtrip. Qed.

Lemma ClearRequest_roundtrip :
  codec.ReadClearRequest codec.WriteClearRequest
  = Ok tt.
Proof. roundtrip. Qed.

Lemma ClearReply_roundtrip :
  codec.ReadClearReply codec.WriteClearReply
  = Ok tt.
Proof. roundtrip. Qed.

Lemma DebugRequest_roundtrip (debug : json.t) :
  codec.ReadDebugRequest (codec.WriteDebugRequest debug)
  = Ok debug.
Proof. roundtrip. Qed.

Lemma DebugReply_roundtrip (result_ : json.t) :
  codec.ReadDebugReply (codec.WriteDebugReply result_)
  = Ok result_.
Proof. roundtrip. Qed.

Lemma ModifyReferenceCountRequest_roundtrip (eid : ExternalID) (changes : Z) :
  is_int changes ->
  codec.ReadModifyReferenceCountRequest
    (codec.WriteModifyReferenceCountRequest eid changes)
  = Ok (eid, changes).
Proof. roundtrip. Qed.

Lemma ModifyReferenceCountReply_roundtrip :
  codec.ReadModifyReferenceCountReply codec.WriteModifyReferenceCountReply
  = Ok tt.
Proof. roundtrip. Qed.

Lemma GetDataRequest_one_roundtrip (id : Z) (sync_remote wait : bool) :
  is_uint64 id ->
  codec.ReadGetDataRequest (codec.WriteGetDataRequest_one id sync_remote wait)
  = Ok ([id], sync_remote, wait).
Proof.
  intros H. apply (GetDataRequest_roundtrip [id]).
  constructor; [exact H|constructor].
Qed.

Lemma DelDataRequest_one_roundtrip (id : Z) (force deep fastpath : bool) :
  is_uint64 id ->
  codec.ReadDelDataRequest
    (codec.WriteDelDataRequest_one id force deep fastpath)
  = Ok ([id], force, deep, fastpath).
Proof.
  intros H. apply (DelDataRequest_roundtrip [id]).
  constructor; [exact H|constructor].
Qed.

Lemma ShallowCopyRequest_plain_roundtrip (id : Z) :
  is_uint64 id ->
  codec.ReadShallowCopyRequest (codec.WriteShallowCopyRequest_plain id)
  = Ok (id, json.object ∅).
Proof.
  roundtrip.
Qed.

Lemma GetBuffersRequest_roundtrip (ids out : list Z) :
  Z.of_nat (length ids) < 2 ^ 64 -> Forall is_uint64 ids ->
  codec.ReadGetBuffersRequest (codec.WriteGetBuffersRequest ids) out
  = Ok (out ++ ids).
Proof.
  intros Hlen Hids.
  apply (indexed_request_roundtrip json.number_unsigned codec.get_uint64);
    [exact Hlen|].
  intros id Hin. apply get_uint64_unsigned.
  rewrite List.Forall_forall in Hids. auto.
Qed.

Lemma GetRemoteBuffersRequest_roundtrip (ids out : list Z) :
  Z.of_nat (length ids) < 2 ^ 64 -> Forall is_uint64 ids ->
  codec.ReadGetRemoteBuffersRequest (codec.WriteGetRemoteBuffersRequest ids)
    out
  = Ok (out ++ ids).
Proof.
  intros Hlen Hids.
  apply (indexed_request_roundtrip json.number_unsigned codec.get_uint64);
    [exact Hlen|].
  intros id Hin. apply get_uint64_unsigned.
  rewrite List.Forall_forall in Hids. auto.
Qed.

Lemma GetBuffersByExternalRequest_roundtrip (eids out : list ExternalID) :
  Z.of_nat (length eids) < 2 ^ 64 ->
  codec.ReadGetBuffersByExternalRequest
    (codec.WriteGetBuffersByExternalRequest eids) out
  = Ok (out ++ eids).
Proof.
  intros Hlen.
  apply (indexed_request_roundtrip json.str codec.get_string);
    [exact Hlen|].
  intros eid Hin. reflexivity.
Qed.

(** What the single-object decoder of a get-data reply returns: the only
    member of [content], and [ObjectNotExists] when [content] does not have
    exactly one member. *)
Lemma GetDataReply_decoded (content : json.t) :
  codec.ReadGetDataReply (codec.WriteGetDataReply content)
  = if (json.size content =? 1)%nat then
      match json.only content with
      | Some item => Ok item
      | None => Throw
      end
    else Error ObjectNotExists.
Proof.
  autounfold with codec. read_back.
  destruct (json.size content =? 1)%nat; reflexivity.
Qed.

Lemma GetDataReply_single (key : string) (item : json.t) :
  codec.ReadGetDataReply (codec.WriteGetDataReply (json.object {[key := item]}))
  = Ok item.
Proof.
  rewrite GetDataReply_decoded. simpl.
  rewrite map_size_singleton, map_to_list_singleton. reflexivity.
Qed.

(** C9 (amended). Decoding an encoded message returns the values that were
    encoded, field for field, for every request and reply whose encoder and
    decoder are both in [protocols.cc] and carry no [Payload], with one
    exception. In particular [ReadFinalizeArenaRequest] returns the [fd],
    [offsets] and [sizes] given to [WriteFinalizeArenaRequest], and
    [ReadCreateBufferRequest] the [size], [external_id] and [external_size]
    given to [WriteCreateBufferRequest]. The values are those of the C++
    parameter types ([int], [int64_t], 64-bit unsigned). The decoders of the
    three id-list requests push the decoded ids onto the vector they are
    given; the encoders that take a single id write it as a one-element list;
    the shallow-copy request without metadata decodes to an empty object. The
    exception is the get-data reply: its single-object decoder returns the
    only member of the encoded [content], not [content], and fails with
    [ObjectNotExists] when [content] does not have exactly one member. *)
Theorem wire_codec_roundtrip :
  (forall (fd : Z) (offsets sizes : list Z),
     is_int fd ->
     Forall is_uint64 offsets ->
     Forall is_uint64 sizes ->
     codec.ReadFinalizeArenaRequest
       (codec.WriteFinalizeArenaRequest fd offsets sizes)
     = Ok (fd, offsets, sizes)) /\
  (forall (size : Z) (external_id : ExternalID) (external_size : Z),
     is_uint64 size ->
     is_uint64 external_size ->
     codec.ReadCreateBufferRequest
       (codec.WriteCreateBufferRequest size external_id external_size)
     = Ok (size, external_id, external_size)) /\
  (forall (version : string),
     codec.ReadRegisterRequest (codec.WriteRegisterRequest version)
     = Ok version) /\
  (forall (version ipc_socket rpc_endpoint : string) (instance_id : Z),
     is_uint64 instance_id ->
     codec.ReadRegisterReply
       (codec.WriteRegisterReply version ipc_socket rpc_endpoint instance_id)
     = Ok (ipc_socket, rpc_endpoint, instance_id, version)) /\
  (forall (ids : list Z) (sync_remote wait : bool),
     Forall is_uint64 ids ->
     codec.ReadGetDataRequest (codec.WriteGetDataRequest ids sync_remote wait)
     = Ok (ids, sync_remote, wait)) /\
  (forall (pattern : string) (regex : bool) (limit : Z),
     is_uint64 limit ->
     codec.ReadListDataRequest (codec.WriteListDataRequest pattern regex limit)
     = Ok (pattern, regex, limit)) /\
  (forall (size : Z),
     is_uint64 size ->
     codec.ReadCreateRemoteBufferRequest
       (codec.WriteCreateRemoteBufferRequest size)
     = Ok size) /\
  (forall (id : Z),
     is_uint64 id ->
     codec.ReadDropBufferRequest (codec.WriteDropBufferRequest id)
     = Ok id) /\
  (codec.ReadDropBufferReply codec.WriteDropBufferReply
   = Ok tt) /\
  (forall (content : json.t),
     codec.ReadCreateDataRequest (codec.WriteCreateDataRequest content)
     = Ok content) /\
  (forall (id signature instance_id : Z),
     is_uint64 id ->
     is_uint64 signature ->
     is_uint64 instance_id ->
     codec.ReadCreateDataReply
       (codec.WriteCreateDataReply id signature instance_id)
     = Ok (id, signature, instance_id)) /\
  (forall (id : Z),
     is_uint64 id ->
     codec.ReadPersistRequest (codec.WritePersistRequest id)
     = Ok id) /\
  (codec.ReadPersistReply codec.WritePersistReply
   = Ok tt) /\
  (forall (id : Z),
     is_uint64 id ->
     codec.ReadIfPersistRequest (codec.WriteIfPersistRequest id)
     = Ok id) /\
  (forall (persist : bool),
     codec.ReadIfPersistReply (codec.WriteIfPersistReply persist)
     = Ok persist) /\
  (forall (id : Z),
     is_uint64 id ->
     codec.ReadExistsRequest (codec.WriteExistsRequest id)
     = Ok id) /\
  (forall (exists_ : bool),
     codec.ReadExistsReply (codec.WriteExistsReply exists_)
     = Ok exists_) /\
  (forall (ids : list Z) (force deep fastpath : bool),
     Forall is_uint64 ids ->
     codec.ReadDelDataRequest
       (codec.WriteDelDataRequest ids force deep fastpath)
     = Ok (ids, force, deep, fastpath)) /\
  (codec.ReadDelDataReply codec.WriteDelDataReply
   = Ok tt) /\
  (codec.ReadClusterMetaRequest codec.WriteClusterMetaRequest
   = Ok tt) /\
  (forall (meta : json.t),
     codec.ReadClusterMetaReply (codec.WriteClusterMetaReply meta)
     = Ok meta) /\
  (codec.ReadInstanceStatusRequest codec.WriteInstanceStatusRequest
   = Ok tt) /\
  (forall (meta : json.t),
     codec.ReadInstanceStatusReply (codec.WriteInstanceStatusReply meta)
     = Ok meta) /\
  (forall (object_id : Z) (name : string),
     is_uint64 object_id ->
     codec.ReadPutNameRequest (codec.WritePutNameRequest object_id name)
     = Ok (object_id, name)) /\
  (codec.ReadPutNameReply codec.WritePutNameReply
   = Ok tt) /\
  (forall (name : string) (wait : bool),
     codec.ReadGetNameRequest (codec.WriteGetNameRequest name wait)
     = Ok (name, wait)) /\
  (forall (object_id : Z),
     is_uint64 object_id ->
     codec.ReadGetNameReply (codec.WriteGetNameReply object_id)
     = Ok object_id) /\
  (forall (name : string),
     codec.ReadDropNameRequest (codec.WriteDropNameRequest name)
     = Ok name) /\
  (codec.ReadDropNameReply codec.WriteDropNameReply
   = Ok tt) /\
  (forall (object_id : Z) (local is_stream : bool)
          (peer peer_rpc_endpoint : string),
     is_uint64 object_id ->
     codec.ReadMigrateObjectRequest
       (codec.WriteMigrateObjectRequest
          object_id local is_stream peer peer_rpc_endpoint)
     = Ok (object_id, local, is_stream, peer, peer_rpc_endpoint)) /\
  (forall (object_id : Z),
     is_uint64 object_id ->
     codec.ReadMigrateObjectReply (codec.WriteMigrateObjectReply object_id)
     = Ok object_id) /\
  (forall (object_id : Z),
     is_uint64 object_id ->
     codec.ReadCreateStreamRequest (codec.WriteCreateStreamRequest object_id)
     = Ok object_id) /\
  (codec.ReadCreateStreamReply codec.WriteCreateStreamReply
   = Ok tt) /\
  (forall (object_id mode : Z),
     is_uint64 object_id ->
     is_int64 mode ->
     codec.ReadOpenStreamRequest (codec.WriteOpenStreamRequest object_id mode)
     = Ok (object_id, mode)) /\
  (codec.ReadOpenStreamReply codec.WriteOpenStreamReply
   = Ok tt) /\
  (forall (stream_id size : Z),
     is_uint64 stream_id ->
     is_uint64 size ->
     codec.ReadGetNextStreamChunkRequest
       (codec.WriteGetNextStreamChunkRequest stream_id size)
     = Ok (stream_id, size)) /\
  (forall (stream_id chunk : Z),
     is_uint64 stream_id ->
     is_uint64 chunk ->
     codec.ReadPushNextStreamChunkRequest
       (codec.WritePushNextStreamChunkRequest stream_id chunk)
     = Ok (stream_id, chunk)) /\
  (codec.ReadPushNextStreamChunkReply codec.WritePushNextStreamChunkReply
   = Ok tt) /\
  (forall (stream_id : Z),
     is_uint64 stream_id ->
     codec.ReadPullNextStreamChunkRequest
       (codec.WritePullNextStreamChunkRequest stream_id)
     = Ok stream_id) /\
  (forall (chunk : Z),
     is_uint64 chunk ->
     codec.ReadPullNextStreamChunkReply
       (codec.WritePullNextStreamChunkReply chunk)
     = Ok chunk) /\
  (forall (stream_id : Z) (failed : bool),
     is_uint64 stream_id ->
     codec.ReadStopStreamRequest (codec.WriteStopStreamRequest stream_id failed)
     = Ok (stream_id, failed)) /\
  (codec.ReadStopStreamReply codec.WriteStopStreamReply
   = Ok tt) /\
  (forall (id : Z) (extra_metadata : json.t),
     is_uint64 id ->
     codec.ReadShallowCopyRequest
       (codec.WriteShallowCopyRequest id extra_metadata)
     = Ok (id, extra_metadata)) /\
  (forall (target_id : Z),
     is_uint64 target_id ->
     codec.ReadShallowCopyReply (codec.WriteShallowCopyReply target_id)
     = Ok target_id) /\
  (forall (object_id : Z) (peer peer_rpc_endpoint : string),
     is_uint64 object_id ->
     codec.ReadDeepCopyRequest
       (codec.WriteDeepCopyRequest object_id peer peer_rpc_endpoint)
     = Ok (object_id, peer, peer_rpc_endpoint)) /\
  (forall (object_id : Z),
     is_uint64 object_id ->
     codec.ReadDeepCopyReply (codec.WriteDeepCopyReply object_id)
     = Ok object_id) /\
  (forall (size : Z),
     is_uint64 size ->
     codec.ReadMakeArenaRequest (codec.WriteMakeArenaRequest size)
     = Ok size) /\
  (forall (fd size base : Z),
     is_int fd ->
     is_uint64 size ->
     is_uint64 base ->
     codec.ReadMakeArenaReply (codec.WriteMakeArenaReply fd size base)
     = Ok (fd, size, base)) /\
  (codec.ReadFinalizeArenaReply codec.WriteFinalizeArenaReply
   = Ok tt) /\
  (codec.ReadClearRequest codec.WriteClearRequest
   = Ok tt) /\
  (codec.ReadClearReply codec.WriteClearReply
   = Ok tt) /\
  (forall (debug : json.t),
     codec.ReadDebugRequest (codec.WriteDebugRequest debug)
     = Ok debug) /\
  (forall (result_ : json.t),
     codec.ReadDebugReply (codec.WriteDebugReply result_)
     = Ok result_) /\
  (forall (eid : ExternalID) (changes : Z),
     is_int changes ->
     codec.ReadModifyReferenceCountRequest
       (codec.WriteModifyReferenceCountRequest eid changes)
     = Ok (eid, changes)) /\
  (codec.ReadModifyReferenceCountReply codec.WriteModifyReferenceCountReply
   = Ok tt) /\
  (forall (id : Z) (sync_remote wait : bool),
     is_uint64 id ->
     codec.ReadGetDataRequest
       (codec.WriteGetDataRequest_one id sync_remote wait)
     = Ok ([id], sync_remote, wait)) /\
  (forall (id : Z) (force deep fastpath : bool),
     is_uint64 id ->
     codec.ReadDelDataRequest
       (codec.WriteDelDataRequest_one id force deep fastpath)
     = Ok ([id], force, deep, fastpath)) /\
  (forall (id : Z),
     is_uint64 id ->
     codec.ReadShallowCopyRequest (codec.WriteShallowCopyRequest_plain id)
     = Ok (id, json.object ∅)) /\
  (forall (ids out : list Z),
     Z.of_nat (length ids) < 2 ^ 64 ->
     Forall is_uint64 ids ->
     codec.ReadGetBuffersRequest (codec.WriteGetBuffersRequest ids) out
     = Ok (out ++ ids)) /\
  (forall (ids out : list Z),
     Z.of_nat (length ids) < 2 ^ 64 ->
     Forall is_uint64 ids ->
     codec.ReadGetRemoteBuffersRequest
       (codec.WriteGetRemoteBuffersRequest ids) out
     = Ok (out ++ ids)) /\
  (forall (eids out : list ExternalID),
     Z.of_nat (length eids) < 2 ^ 64 ->
     codec.ReadGetBuffersByExternalRequest
       (codec.WriteGetBuffersByExternalRequest eids) out
     = Ok (out ++ eids)) /\
  (forall content : json.t,
     codec.ReadGetDataReply (codec.WriteGetDataReply content)
     = if (json.size content =? 1)%nat then
         match json.only content with
         | Some item => Ok item
         | None => Throw
         end
       else Error ObjectNotExists) /\
  (forall (key : string) (item : json.t),
     codec.ReadGetDataReply
       (codec.WriteGetDataReply (json.object {[key := item]}))
     = Ok item).
Proof.
  repeat match goal with |- _ /\ _ => split end.
  - exact FinalizeArenaRequest_roundtrip.
  - exact CreateBufferRequest_roundtrip.
  - exact RegisterRequest_roundtrip.
  - exact RegisterReply_roundtrip.
  - exact GetDataRequest_roundtrip.
  - exact ListDataRequest_roundtrip.
  - exact CreateRemoteBufferRequest_roundtrip.
  - exact DropBufferRequest_roundtrip.
  - exact DropBufferReply_roundtrip.
  - exact CreateDataRequest_roundtrip.
  - exact CreateDataReply_roundtrip.
  - exact PersistRequest_roundtrip.
  - exact PersistReply_roundtrip.
  - exact IfPersistRequest_roundtrip.
  - exact IfPersistReply_roundtrip.
  - exact ExistsRequest_roundtrip.
  - exact ExistsReply_roundtrip.
  - exact DelDataRequest_roundtrip.
  - exact DelDataReply_roundtrip.
  - exact ClusterMetaRequest_roundtrip.
  - exact ClusterMetaReply_roundtrip.
  - exact InstanceStatusRequest_roundtrip.
  - exact InstanceStatusReply_roundtrip.
  - exact PutNameRequest_roundtrip.
  - exact PutNameReply_roundtrip.
  - exact GetNameRequest_roundtrip.
  - exact GetNameReply_roundtrip.
  - exact DropNameRequest_roundtrip.
  - exact DropNameReply_roundtrip.
  - exact MigrateObjectRequest_roundtrip.
  - exact MigrateObjectReply_roundtrip.
  - exact CreateStreamRequest_roundtrip.
  - exact CreateStreamReply_roundtrip.
  - exact OpenStreamRequest_roundtrip.
  - exact OpenStreamReply_roundtrip.
  - exact GetNextStreamChunkRequest_roundtrip.
  - exact PushNextStreamChunkRequest_roundtrip.
  - exact PushNextStreamChunkReply_roundtrip.
  - exact PullNextStreamChunkRequest_roundtrip.
  - exact PullNextStreamChunkReply_roundtrip.
  - exact StopStreamRequest_roundtrip.
  - exact StopStreamReply_roundtrip.
  - exact ShallowCopyRequest_roundtrip.
  - exact ShallowCopyReply_roundtrip.
  - exact DeepCopyRequest_roundtrip.
  - exact DeepCopyReply_roundtrip.
  - exact MakeArenaRequest_roundtrip.
  - exact MakeArenaReply_roundtrip.
  - exact FinalizeArenaReply_roundtrip.
  - exact ClearRequest_roundtrip.
  - exact ClearReply_roundtrip.
  - exact DebugRequest_roundtrip.
  - exact DebugReply_roundtrip.
  - exact ModifyReferenceCountRequest_roundtrip.
  - exact ModifyReferenceCountReply_roundtrip.
  - exact GetDataRequest_one_roundtrip.
  - exact DelDataRequest_one_roundtrip.
  - exact ShallowCopyRequest_plain_roundtrip.
  - exact GetBuffersRequest_roundtrip.
  - exact GetRemoteBuffersRequest_roundtrip.
  - exact GetBuffersByExternalRequest_roundtrip.
  - exact GetDataReply_decoded.
  - exact GetDataReply_single.
Qed.

Lemma wire_codec_roundtrip_witness :
  (is_int 4 /\ Forall is_uint64 [0; 50] /\ Forall is_uint64 [50; 50]) /\
  codec.ReadFinalizeArenaRequest
    (codec.WriteFinalizeArenaRequest 4 [0; 50] [50; 50])
  = Ok (4, [0; 50], [50; 50]).
Proof.
  assert (H1 : is_int 4) by (unfold is_int; lia).
  assert (H2 : Forall is_uint64 [0; 50])
    by (repeat (constructor; [unfold is_uint64; lia|]); constructor).
  assert (H3 : Forall is_uint64 [50; 50])
    by (repeat (constructor; [unfold is_uint64; lia|]); constructor).
  split; [auto|].
  exact (proj1 wire_codec_roundtrip 4 [0; 50] [50; 50] H1 H2 H3).
Defined.

(** C9, as stated, fails for the get-data reply: the reply that encodes the
    content [{"k": 1}] decodes to [1], and the reply that encodes an empty
    list is not decoded at all. *)
Lemma GetDataReply_not_roundtrip :
  let content := json.object {["k"%string := json.number_unsigned 1]} in
  codec.ReadGetDataReply (codec.WriteGetDataReply content)
  = Ok (json.number_unsigned 1) /\
  codec.ReadGetDataReply (codec.WriteGetDataReply content) <> Ok content /\
  codec.ReadGetDataReply (codec.WriteGetDataReply (json.array []))
  = Error ObjectNotExists.
Proof.
  intros content.
  assert (H : codec.ReadGetDataReply (codec.WriteGetDataReply content)
              = Ok (json.number_unsigned 1))
    by apply GetDataReply_single.
  split; [exact H|]. split.
  - rewrite H. intros Heq. discriminate Heq.
  - rewrite GetDataReply_decoded. reflexivity.
Qed.

(** * Further properties *)

(** ** Page rounding *)

Section AlignFacts.
Import memory.

(** Masking with [~(2^k - 1)] clears the [k] low bits. *)
Lemma land_mask (x k : Z) :
  0 <= k <= 64 -> 0 <= x < 2 ^ 64 ->
  Z.land x (2 ^ 64 - 2 ^ k) = x - x mod 2 ^ k.
Proof.
  intros Hk Hx.
  assert (Hmask : 2 ^ 64 - 2 ^ k = Z.shiftl (Z.ones (64 - k)) k).
  { rewrite Z.shiftl_mul_pow2, Z.ones_equiv by lia.
    rewrite <- Z.sub_1_r, Z.mul_sub_distr_r, <- Z.pow_add_r by lia.
    replace (64 - k + k) with 64 by lia. lia. }
  assert (Hlow : x - x mod 2 ^ k = Z.shiftl (Z.shiftr x k) k).
  { rewrite Z.shiftl_mul_pow2, Z.shiftr_div_pow2 by lia.
    pose proof (Z.div_mod x (2 ^ k) ltac:(lia)). lia. }
  rewrite Hmask, Hlow. apply Z.bits_inj'. intros n Hn.
  rewrite Z.land_spec, !Z.shiftl_spec by lia.
  destruct (Z.ltb_spec n k) as [Hlt|Hge].
  - rewrite (Z.testbit_neg_r _ (n - k)) by lia.
    rewrite (Z.testbit_neg_r _ (n - k)) by lia. apply andb_false_r.
  - rewrite Z.shiftr_spec by lia. replace (n - k + k) with n by lia.
    destruct (Z.ltb_spec n 64) as [Hlt|Hge64].
    + rewrite Z.ones_spec_low by lia. apply andb_true_r.
    + rewrite Z.ones_spec_high by lia. rewrite andb_false_r.
      symmetry. rewrite <- (Z.mod_small x (2 ^ 64)) by lia.
      apply Z.mod_pow2_bits_high. lia.
Qed.

Lemma bitnot64_mask (k : Z) :
  0 <= k < 64 -> bitnot64 (wrap64 (2 ^ k - 1)) = 2 ^ 64 - 2 ^ k.
Proof.
  intros Hk. unfold bitnot64.
  assert (Hpow : 0 < 2 ^ k < 2 ^ 64)
    by (split; [apply Z.pow_pos_nonneg; lia|apply Z.pow_lt_mono_r; lia]).
  rewrite (wrap64_small (2 ^ k - 1)) by lia.
  unfold Z.lnot, wrap64. replace (Z.pred (- (2 ^ k - 1))) with (- 2 ^ k) by lia.
  replace (- 2 ^ k) with (2 ^ 64 - 2 ^ k + (-1) * 2 ^ 64) by lia.
  rewrite Z.mod_add by lia. apply Z.mod_small. lia.
Qed.

Lemma align_down_value (address k : Z) :
  0 <= k < 64 -> 0 <= address < 2 ^ 64 ->
  align_down address (2 ^ k) = address - address mod 2 ^ k.
Proof.
  intros Hk Ha. unfold align_down.
  rewrite bitnot64_mask by exact Hk. apply land_mask; lia.
Qed.

Lemma align_up_value (address k : Z) :
  0 <= k < 64 -> 0 <= address < 2 ^ 64 ->
  align_up address (2 ^ k)
  = wrap64 (address + 2 ^ k - 1) - wrap64 (address + 2 ^ k - 1) mod 2 ^ k.
Proof.
  intros Hk Ha. unfold align_up.
  rewrite bitnot64_mask by exact Hk. apply land_mask; [lia|].
  unfold wrap64. apply Z.mod_pos_bound. lia.
Qed.

(** Rounding down to a multiple of [p], as arithmetic. *)
Lemma round_down_facts (x p : Z) :
  0 < p ->
  (x - x mod p) mod p = 0 /\ x - x mod p <= x < x - x mod p + p /\
  forall m, m * p <= x -> m * p <= x - x mod p.
Proof.
  intros Hp. pose proof (Z.mod_pos_bound x p Hp) as Hmod.
  pose proof (Z.div_mod x p ltac:(lia)) as Hdiv.
  assert (Heq : x - x mod p = x / p * p) by lia.
  split; [rewrite Heq; apply Z.mod_mul; lia|]. split; [lia|].
  intros m Hm. rewrite Heq.
  apply Z.mul_le_mono_nonneg_r; [lia|].
  apply Z.div_le_lower_bound; lia.
Qed.

(** The result of a bitwise and with a 64-bit value is a 64-bit value. *)
Lemma land_range (a b : Z) : 0 <= b < 2 ^ 64 -> 0 <= Z.land a b < 2 ^ 64.
Proof.
  intros Hb.
  replace (Z.land a b) with (Z.land a b mod 2 ^ 64);
    [apply Z.mod_pos_bound; lia|].
  rewrite <- Z.land_ones by lia. rewrite <- Z.land_assoc. f_equal.
  rewrite Z.land_ones by lia. apply Z.mod_small. exact Hb.
Qed.

Lemma align_range (x page_size : Z) :
  (0 <= align_down x page_size < 2 ^ 64) /\
  (0 <= align_up x page_size < 2 ^ 64).
Proof.
  unfold align_down, align_up, bitnot64, wrap64.
  split; apply land_range; apply Z.mod_pos_bound; lia.
Qed.

End AlignFacts.

(** X1. For an alignment that is a power of two, [align_down] returns the
    greatest multiple of the alignment that is not above the address. *)
Theorem align_down_spec :
  forall address k : Z,
    0 <= k < 64 -> 0 <= address < 2 ^ 64 ->
    let r := memory.align_down address (2 ^ k) in
    r mod 2 ^ k = 0 /\ r <= address < r + 2 ^ k.
Proof.
  intros address k Hk Ha r. subst r. rewrite align_down_value by assumption.
  assert (Hpow : 0 < 2 ^ k) by (apply Z.pow_pos_nonneg; lia).
  pose proof (Z.mod_pos_bound address (2 ^ k) Hpow) as Hmod.
  split; [|lia].
  pose proof (Z.div_mod address (2 ^ k) ltac:(lia)) as Hdiv.
  replace (address - address mod 2 ^ k) with (address / 2 ^ k * 2 ^ k) by lia.
  apply Z.mod_mul. lia.
Qed.

Lemma align_down_spec_witness :
  (0 <= 12 < 64 /\ 0 <= 1048626 < 2 ^ 64) /\
  memory.align_down 1048626 (2 ^ 12) mod 2 ^ 12 = 0 /\
  memory.align_down 1048626 (2 ^ 12) <= 1048626
  < memory.align_down 1048626 (2 ^ 12) + 2 ^ 12.
Proof.
  assert (H1 : 0 <= 12 < 64) by lia.
  assert (H2 : 0 <= 1048626 < 2 ^ 64) by lia.
  split; [auto|]. exact (align_down_spec 1048626 12 H1 H2).
Defined.

(** X2. For an alignment that is a power of two, [align_up] returns the least
    multiple of the alignment that is not below the address, as long as that
    multiple is representable; for the addresses above the last multiple
    below 2^64 the sum wraps around and the result is 0. *)
Theorem align_up_spec :
  forall address k : Z,
    0 <= k < 64 -> 0 <= address < 2 ^ 64 ->
    let r := memory.align_up address (2 ^ k) in
    (address + 2 ^ k - 1 < 2 ^ 64 ->
     r mod 2 ^ k = 0 /\ address <= r < address + 2 ^ k) /\
    (2 ^ 64 <= address + 2 ^ k - 1 -> r = 0).
Proof.
  intros address k Hk Ha r. subst r. rewrite align_up_value by assumption.
  assert (Hpow : 0 < 2 ^ k) by (apply Z.pow_pos_nonneg; lia).
  assert (Hle : 2 ^ k <= 2 ^ 63) by (apply Z.pow_le_mono_r; lia).
  split.
  - intros Hfit. rewrite wrap64_small by lia.
    pose proof (Z.mod_pos_bound (address + 2 ^ k - 1) (2 ^ k) Hpow) as Hmod.
    split; [|lia].
    pose proof (Z.div_mod (address + 2 ^ k - 1) (2 ^ k) ltac:(lia)) as Hdiv.
    replace (address + 2 ^ k - 1 - (address + 2 ^ k - 1) mod 2 ^ k)
      with ((address + 2 ^ k - 1) / 2 ^ k * 2 ^ k) by lia.
    apply Z.mod_mul. lia.
  - intros Hwrap.
    assert (Hw : wrap64 (address + 2 ^ k - 1) = address + 2 ^ k - 1 - 2 ^ 64).
    { unfold wrap64.
      transitivity ((address + 2 ^ k - 1 - 2 ^ 64 + 1 * 2 ^ 64) mod 2 ^ 64);
        [f_equal; lia|].
      rewrite Z.mod_add by lia. apply Z.mod_small. lia. }
    rewrite Hw. rewrite (Z.mod_small (address + 2 ^ k - 1 - 2 ^ 64)) by lia.
    lia.
Qed.

Lemma align_up_spec_witness :
  (0 <= 12 < 64 /\ 0 <= 1048626 < 2 ^ 64 /\
   1048626 + 2 ^ 12 - 1 < 2 ^ 64 /\ 2 ^ 64 <= (2 ^ 64 - 1) + 2 ^ 12 - 1) /\
  (memory.align_up 1048626 (2 ^ 12) mod 2 ^ 12 = 0 /\
   1048626 <= memory.align_up 1048626 (2 ^ 12) < 1048626 + 2 ^ 12) /\
  memory.align_up (2 ^ 64 - 1) (2 ^ 12) = 0.
Proof.
  assert (H1 : 0 <= 12 < 64) by lia.
  assert (H2 : 0 <= 1048626 < 2 ^ 64) by lia.
  assert (H3 : 1048626 + 2 ^ 12 - 1 < 2 ^ 64) by lia.
  assert (H4 : 2 ^ 64 <= (2 ^ 64 - 1) + 2 ^ 12 - 1) by lia.
  assert (H5 : 0 <= 2 ^ 64 - 1 < 2 ^ 64) by lia.
  split; [auto|]. split.
  - exact (proj1 (align_up_spec 1048626 12 H1 H2) H3).
  - exact (proj2 (align_up_spec (2 ^ 64 - 1) 12 H1 H5) H4).
Defined.

(** X3. When the range [[base + left, base + right]] holds a page boundary,
    [recycle_resident_memory] rounds inwards: it issues at most one [madvise]
    call, from the first page boundary [lo] of the range to the last one [hi],
    and none when the two coincide, that is when the range holds no whole
    page. *)
Theorem recycle_resident_memory_rounds_inwards :
  forall k base left right m : Z,
    0 <= k < 64 -> 0 <= base -> 0 <= left <= right ->
    base + right < 2 ^ 64 ->
    base + left <= m * 2 ^ k <= base + right ->
    exists lo hi : Z,
      lo mod 2 ^ k = 0 /\ hi mod 2 ^ k = 0 /\
      base + left <= lo < base + left + 2 ^ k /\
      hi <= base + right < hi + 2 ^ k /\
      lo <= hi /\
      memory.recycle_resident_memory (2 ^ k) base left right
      = if lo =? hi then [] else [(lo, hi - lo)].
Proof.
  intros k base left right m Hk Hbase Hlr Hfit Hm.
  assert (Hpow : 0 < 2 ^ k) by (apply Z.pow_pos_nonneg; lia).
  assert (Hsplit : 2 ^ 64 = 2 ^ (64 - k) * 2 ^ k).
  { rewrite <- Z.pow_add_r by lia. f_equal. lia. }
  assert (Hnext : m * 2 ^ k + 2 ^ k <= 2 ^ 64).
  { assert (m < 2 ^ (64 - k)) by nia. nia. }
  unfold memory.recycle_resident_memory.
  rewrite !wrap64_small by lia.
  rewrite align_up_value, align_down_value by lia.
  rewrite wrap64_small by lia.
  set (x := base + left + 2 ^ k - 1).
  destruct (round_down_facts x (2 ^ k) Hpow) as (Hlo0 & Hlo1 & Hlo2).
  destruct (round_down_facts (base + right) (2 ^ k) Hpow)
    as (Hhi0 & Hhi1 & Hhi2).
  set (lo := x - x mod 2 ^ k) in *.
  set (hi := base + right - (base + right) mod 2 ^ k) in *.
  assert (Hlom : lo <= m * 2 ^ k).
  { pose proof (Z.div_mod x (2 ^ k) ltac:(lia)) as Hdiv.
    assert (Heq : lo = x / 2 ^ k * 2 ^ k) by (subst lo; lia).
    assert (x / 2 ^ k < m + 1)
      by (apply Z.div_lt_upper_bound; [lia|subst x; lia]).
    rewrite Heq. apply Z.mul_le_mono_nonneg_r; lia. }
  pose proof (Hhi2 m ltac:(lia)) as Hmhi.
  exists lo, hi. subst x.
  split; [exact Hlo0|]. split; [exact Hhi0|].
  split; [lia|]. split; [lia|]. split; [lia|].
  unfold memory.recycle_resident_memory_aligned.
  destruct (lo =? hi); [reflexivity|].
  rewrite wrap64_small by lia. reflexivity.
Qed.

Lemma recycle_resident_memory_rounds_inwards_witness :
  (0 <= 12 < 64 /\ 0 <= 1048576 /\ 0 <= 10 <= 8212 /\
   1048576 + 8212 < 2 ^ 64 /\
   1048576 + 10 <= 257 * 2 ^ 12 <= 1048576 + 8212) /\
  exists lo hi : Z,
    lo mod 2 ^ 12 = 0 /\ hi mod 2 ^ 12 = 0 /\
    1048576 + 10 <= lo < 1048576 + 10 + 2 ^ 12 /\
    hi <= 1048576 + 8212 < hi + 2 ^ 12 /\
    lo <= hi /\
    memory.recycle_resident_memory (2 ^ 12) 1048576 10 8212
    = if lo =? hi then [] else [(lo, hi - lo)].
Proof.
  assert (H1 : 0 <= 12 < 64) by lia.
  assert (H2 : 0 <= 1048576) by lia.
  assert (H3 : 0 <= 10 <= 8212) by lia.
  assert (H4 : 1048576 + 8212 < 2 ^ 64) by lia.
  assert (H5 : 1048576 + 10 <= 257 * 2 ^ 12 <= 1048576 + 8212) by lia.
  split; [auto|].
  exact (recycle_resident_memory_rounds_inwards 12 1048576 10 8212 257
           H1 H2 H3 H4 H5).
Defined.

(** X4. For intervals inside [[0, size)] that may be empty, overlap or repeat,
    the ranges [recycle_arena] hands to [recycle_resident_memory] split the
    uncovered bytes of [[0, size)]: a range holds no covered byte, every
    uncovered byte lies in a range, two ranges do not overlap, and no range
    is handed on twice. When every byte is covered nothing is reclaimed. *)
Theorem recycle_arena_partitions_uncovered :
  forall page_size base size offsets sizes,
    0 <= size < 2 ^ 64 ->
    length offsets = length sizes ->
    Forall (within size) (combine offsets sizes) ->
    exists ranges,
      memory.recycle_arena_ranges size offsets sizes = Some ranges /\
      memory.recycle_arena page_size base size offsets sizes
      = Some (flat_map
                (fun lr => memory.recycle_resident_memory page_size base
                             (fst lr) (snd lr))
                ranges) /\
      (forall l r,
         In (l, r) ranges ->
         0 <= l < r /\ r <= size /\
         forall x, l <= x < r -> covered (combine offsets sizes) x = false) /\
      (forall x,
         0 <= x < size -> covered (combine offsets sizes) x = false ->
         exists l r, In (l, r) ranges /\ l <= x < r) /\
      (forall l r l' r',
         In (l, r) ranges -> In (l', r') ranges ->
         (l, r) = (l', r') \/ r <= l' \/ r' <= l) /\
      List.NoDup ranges /\
      ((forall x, 0 <= x < size -> covered (combine offsets sizes) x = true) ->
       ranges = []).
Proof.
  intros page_size base size offsets sizes Hsize Hlen Hin.
  destruct (initial_points_spec size ltac:(lia)) as (Hinc0 & Hkeys0 & Hsum0).
  destruct (mark_points_within size offsets sizes
              (memory.points_assign size 0 (memory.points_assign 0 0 []))
              ltac:(lia) Hlen Hin)
    as (points & Hrun & Hinc & Hkeys & Hsum).
  specialize (Hinc Hinc0).
  assert (Hnonneg : Forall (fun iv => 0 <= snd iv) (combine offsets sizes)).
  { apply List.Forall_forall. intros iv Hiv.
    rewrite List.Forall_forall in Hin. destruct (Hin iv Hiv) as (_ & Hn & _).
    exact Hn. }
  assert (Hrange : forall k, In k (map fst points) -> 0 <= k <= size).
  { intros k Hk. apply Hkeys in Hk as [Hk|(iv & Hiv & Hk)].
    - apply Hkeys0 in Hk. lia.
    - rewrite List.Forall_forall in Hin.
      destruct (Hin iv Hiv) as (Ho & Hn & Hon). lia. }
  assert (Hdepth : forall x, markers_upto points x
                             = depth (combine offsets sizes) x).
  { intros x. rewrite Hsum, Hsum0. lia. }
  set (ranges := memory.sweep (fun left right => [(left, right)]) 0 points).
  assert (Hspec : forall l r,
            In (l, r) ranges <->
            In l (map fst points) /\ In r (map fst points) /\ l < r /\
            (forall k, In k (map fst points) -> k <= l \/ r <= k) /\
            0 + markers_upto points l = 0).
  { intros l r. apply sweep_ranges_spec. exact Hinc. }
  assert (Hsound : forall l r,
            In (l, r) ranges ->
            0 <= l < r /\ r <= size /\
            forall x, l <= x < r -> covered (combine offsets sizes) x = false).
  { intros l r Hlr. apply Hspec in Hlr as (Hl & Hr & Hlt & Hgap & Hzero).
    pose proof (Hrange l Hl). pose proof (Hrange r Hr).
    split; [lia|]. split; [lia|]. intros x Hx.
    apply (depth_covered_within _ x Hnonneg).
    rewrite <- Hdepth, (markers_upto_local points l x) by
      (try lia; intros k Hk; destruct (Hgap k Hk); lia).
    lia. }
  exists ranges.
  unfold memory.recycle_arena_ranges, memory.recycle_arena, memory.arena_points.
  rewrite Hrun. split; [reflexivity|].
  split; [rewrite sweep_flat_map; reflexivity|].
  split; [exact Hsound|]. split; [|split; [|split]].
  - intros x Hx Hfree.
    destruct (neighbours_around points x Hinc) as (l & r & Hl & Hr & Hlxr & Hgap).
    + exists 0. split; [apply Hkeys; left; apply Hkeys0; auto|lia].
    + exists size. split; [apply Hkeys; left; apply Hkeys0; auto|lia].
    + exists l, r. split; [|exact Hlxr].
      apply Hspec. split; [exact Hl|]. split; [exact Hr|]. split; [lia|].
      split; [exact Hgap|].
      rewrite <- (markers_upto_local points l x) by
        (try lia; intros k Hk; destruct (Hgap k Hk); lia).
      rewrite Hdepth, Z.add_0_l.
      apply (depth_covered_within _ x Hnonneg). exact Hfree.
  - intros l r l' r' H1 H2.
    apply Hspec in H1 as (Hl & Hr & Hlt & Hgap & _).
    apply Hspec in H2 as (Hl' & Hr' & Hlt' & Hgap' & _).
    destruct (Hgap l' Hl') as [Ha|Ha]; [|auto].
    destruct (Hgap' l Hl) as [Hb|Hb]; [|auto].
    assert (l = l') by lia. subst l'.
    destruct (Hgap r' Hr') as [Hc|Hc]; [lia|].
    destruct (Hgap' r Hr) as [Hd|Hd]; [lia|].
    left. f_equal. lia.
  - apply sweep_ranges_NoDup. exact Hinc.
  - intros Hall. destruct ranges as [|[l r] rest] eqn:E; [reflexivity|].
    exfalso. destruct (Hsound l r ltac:(left; reflexivity)) as (Hl & Hr & Hfree).
    specialize (Hfree l ltac:(lia)). rewrite Hall in Hfree by lia.
    discriminate.
Qed.

Lemma recycle_arena_partitions_uncovered_witness :
  (0 <= 100 < 2 ^ 64 /\
   length [10; 50; 15] = length [20; 0; 10] /\
   Forall (within 100) (combine [10; 50; 15] [20; 0; 10])) /\
  exists ranges,
    memory.recycle_arena_ranges 100 [10; 50; 15] [20; 0; 10] = Some ranges /\
    ranges = [(0, 10); (30, 50); (50, 100)].
Proof.
  assert (H : 0 <= 100 < 2 ^ 64 /\
              length [10; 50; 15] = length [20; 0; 10] /\
              Forall (within 100) (combine [10; 50; 15] [20; 0; 10])).
  { split; [lia|]. split; [reflexivity|].
    repeat (constructor; [unfold within; simpl; lia|]). constructor. }
  split; [exact H|].
  destruct H as (H1 & H2 & H3).
  destruct (recycle_arena_partitions_uncovered 4096 0 100 [10; 50; 15]
              [20; 0; 10] H1 H2 H3) as (ranges & Hranges & _).
  exists ranges. split; [exact Hranges|].
  vm_compute in Hranges. injection Hranges as <-. reflexivity.
Defined.

(** ** Pages reclaimed by [Delete] *)

Section ReclaimFacts.
Context `{D : Deps}.
Import BulkStore.

Lemma arena_bounds_range s object_id lower upper lb ub :
  arena_bounds s object_id lower upper = Bounds lb ub ->
  0 <= lower < 2 ^ 64 -> 0 <= upper < 2 ^ 64 ->
  0 <= lb < 2 ^ 64 /\ 0 <= ub < 2 ^ 64.
Proof.
  unfold arena_bounds. intros Hb Hlower Hupper.
  repeat (case_match; try discriminate); injection Hb as <- <-;
    repeat match goal with
           | H : Some _ = Some _ |- _ => injection H as <-
           end;
    split; try assumption; apply align_range.
Qed.

(** The [madvise] calls of a [Delete], whatever its status: none, or one
    call from [lo] to [hi] with [lo < hi] between the two roundings of the
    blob's pointer. *)
Lemma Delete_calls s object_id st s' :
  Delete s object_id = Some (st, s') ->
  madvised s' = madvised s \/
  exists object lo hi,
    objects_ s !! object_id = Some object /\
    memory.align_down (pointer object) system_page_size <= lo /\
    lo < hi /\
    hi <= memory.align_up (pointer object) system_page_size /\
    hi < 2 ^ 64 /\
    madvised s' = madvised s ++ [(lo, hi - lo)].
Proof.
  unfold Delete.
  destruct ((object_id =? EmptyBlobID) || (object_id =? WholeRegionID));
    [intros [= <- <-]; auto|].
  destruct (objects_ s !! object_id) as [object|] eqn:Hobj;
    [|intros [= <- <-]; auto].
  destruct (arena_fd object =? -1);
    [intros [= <- <-]; left; apply app_nil_r|].
  destruct (arena_bounds s object_id _ _) as [lb ub|st0|] eqn:Hb;
    [|intros [= <- <-]; auto|discriminate].
  destruct (align_range (pointer object) system_page_size) as [Hlower Hupper].
  destruct (arena_bounds_range _ _ _ _ _ _ Hb Hlower Hupper) as [Hlb Hub].
  destruct (Z.max _ lb <? Z.min _ ub) eqn:Hguard;
    [|intros [= <- <-]; left; apply app_nil_r].
  apply Z.ltb_lt in Hguard. intros [= <- <-]. right.
  exists object, (Z.max (memory.align_down (pointer object) system_page_size) lb),
    (Z.min (memory.align_up (pointer object) system_page_size) ub).
  split; [reflexivity|]. split; [lia|]. split; [exact Hguard|].
  split; [lia|]. split; [lia|].
  cbn [madvised]. f_equal.
  unfold memory.recycle_resident_memory_aligned.
  destruct (Z.max _ lb =? Z.min _ ub) eqn:E; [apply Z.eqb_eq in E; lia|].
  rewrite wrap64_small by lia. reflexivity.
Qed.

End ReclaimFacts.

(** X5. [Delete] never reclaims backwards: whatever its status, it issues no
    [madvise] call or exactly one, and that call starts at a 64-bit address
    [lo], has the positive length [hi - lo] (no wrap-around), and lies between
    the pointer of the deleted blob rounded down and rounded up to the page
    size. *)
Theorem Delete_reclaims_forward `{D : Deps} :
  forall (s s' : BulkStore.t) (object_id : ObjectID) (st : Status),
    BulkStore.Delete s object_id = Some (st, s') ->
    BulkStore.madvised s' = BulkStore.madvised s \/
    exists (object : Payload) (lo hi : Z),
      BulkStore.objects_ s !! object_id = Some object /\
      st = OK /\
      0 <= lo < hi /\ hi < 2 ^ 64 /\
      memory.align_down (pointer object) system_page_size <= lo /\
      hi <= memory.align_up (pointer object) system_page_size /\
      BulkStore.madvised s' = BulkStore.madvised s ++ [(lo, hi - lo)].
Proof.
  intros s s' object_id st Hdel.
  destruct (Delete_calls s object_id st s' Hdel)
    as [Hsame|(object & lo & hi & Hobj & Hlo & Hlt & Hhi & Hfit & Hcalls)];
    [left; exact Hsame|].
  right. exists object, lo, hi.
  destruct (align_range (pointer object) system_page_size) as [Hlower _].
  split; [exact Hobj|]. split.
  - destruct st; try reflexivity; exfalso;
      (assert (Hs : s' = s);
       [|rewrite Hs in Hcalls;
         apply (f_equal (@length _)) in Hcalls;
         rewrite length_app in Hcalls; simpl in Hcalls; lia]);
      unfold BulkStore.Delete in Hdel; rewrite Hobj in Hdel;
      repeat (case_match; try discriminate); congruence.
  - split; [lia|]. split; [exact Hfit|]. auto.
Qed.

Lemma Delete_reclaims_forward_witness :
  BulkStore.Delete demo.paged demo.page_blob = Some (OK, demo.page_deleted) /\
  BulkStore.madvised demo.page_deleted
  = BulkStore.madvised demo.paged ++ [(1048576, 4096)] /\
  (BulkStore.madvised demo.page_deleted = BulkStore.madvised demo.paged \/
   exists (object : Payload) (lo hi : Z),
     BulkStore.objects_ demo.paged !! demo.page_blob = Some object /\
     OK = OK /\
     0 <= lo < hi /\ hi < 2 ^ 64 /\
     memory.align_down (pointer object) system_page_size <= lo /\
     hi <= memory.align_up (pointer object) system_page_size /\
     BulkStore.madvised demo.page_deleted
     = BulkStore.madvised demo.paged ++ [(lo, hi - lo)]).
Proof.
  assert (H : BulkStore.Delete demo.paged demo.page_blob
              = Some (OK, demo.page_deleted)) by reflexivity.
  split; [exact H|]. split; [reflexivity|].
  exact (Delete_reclaims_forward demo.paged demo.page_deleted demo.page_blob
           OK H).
Defined.

(** A page-aligned address is left alone by both roundings. *)
Lemma align_fixed (address k : Z) :
  0 <= k < 64 -> 0 <= address < 2 ^ 64 -> address mod 2 ^ k = 0 ->
  memory.align_down address (2 ^ k) = address /\
  memory.align_up address (2 ^ k) = address.
Proof.
  intros Hk Ha Hmod.
  assert (Hpow : 0 < 2 ^ k) by (apply Z.pow_pos_nonneg; lia).
  assert (Hsplit : 2 ^ 64 = 2 ^ (64 - k) * 2 ^ k).
  { rewrite <- Z.pow_add_r by lia. f_equal. lia. }
  pose proof (Z.div_mod address (2 ^ k) ltac:(lia)) as Hdiv.
  rewrite Hmod, Z.add_0_r in Hdiv.
  assert (Hfit : address + 2 ^ k <= 2 ^ 64).
  { assert (address / 2 ^ k < 2 ^ (64 - k)) by nia. nia. }
  rewrite align_down_value, align_up_value by assumption.
  rewrite wrap64_small by lia. split; [lia|].
  replace (address + 2 ^ k - 1) with (2 ^ k - 1 + address / 2 ^ k * 2 ^ k)
    by lia.
  rewrite Z.mod_add by lia. rewrite Z.mod_small by lia. lia.
Qed.

(** X6. Deleting a blob whose pointer is page-aligned reclaims nothing: the
    two roundings of the pointer coincide, so the guard of [Delete] is false
    whatever the neighbouring blobs are. *)
Theorem Delete_aligned_blob_reclaims_nothing `{D : Deps} :
  forall (s s' : BulkStore.t) (object_id : ObjectID) (st : Status)
         (object : Payload) (k : Z),
    system_page_size = 2 ^ k -> 0 <= k < 64 ->
    BulkStore.objects_ s !! object_id = Some object ->
    0 <= pointer object < 2 ^ 64 ->
    pointer object mod 2 ^ k = 0 ->
    BulkStore.Delete s object_id = Some (st, s') ->
    BulkStore.madvised s' = BulkStore.madvised s.
Proof.
  intros s s' object_id st object k Hpage Hk Hobj Hptr Hmod Hdel.
  destruct (Delete_calls s object_id st s' Hdel)
    as [Hsame|(object' & lo & hi & Hobj' & Hlo & Hlt & Hhi & _)];
    [exact Hsame|].
  exfalso. rewrite Hobj in Hobj'. injection Hobj' as <-.
  rewrite Hpage in Hlo, Hhi.
  destruct (align_fixed (pointer object) k Hk Hptr Hmod) as [Hdown Hup].
  lia.
Qed.

Lemma Delete_aligned_blob_reclaims_nothing_witness :
  (system_page_size = 2 ^ 12 /\ 0 <= 12 < 64 /\
   BulkStore.objects_ demo.finalized !! demo.blob0
   = Some (mkPayload demo.blob0 ExternalID_default 50 0 1048576 4 4 100 0) /\
   0 <= 1048576 < 2 ^ 64 /\ 1048576 mod 2 ^ 12 = 0 /\
   BulkStore.Delete demo.finalized demo.blob0 = Some (OK, demo.deleted)) /\
  BulkStore.madvised demo.deleted = BulkStore.madvised demo.finalized.
Proof.
  assert (H1 : system_page_size = 2 ^ 12) by reflexivity.
  assert (H2 : 0 <= 12 < 64) by lia.
  assert (H3 : BulkStore.objects_ demo.finalized !! demo.blob0
               = Some (mkPayload demo.blob0 ExternalID_default 50 0 1048576
                         4 4 100 0)) by reflexivity.
  assert (H4 : 0 <= 1048576 < 2 ^ 64) by lia.
  assert (H5 : 1048576 mod 2 ^ 12 = 0) by reflexivity.
  assert (H6 : BulkStore.Delete demo.finalized demo.blob0
               = Some (OK, demo.deleted)) by reflexivity.
  split; [auto 10|].
  exact (Delete_aligned_blob_reclaims_nothing demo.finalized demo.deleted
           demo.blob0 OK _ 12 H1 H2 H3 H4 H5 H6).
Defined.

(** ** Lookups, deletions and the registry *)

(** X7. The vector overloads of [Get] always return [OK] and append, in
    order, the payloads of the ids for which the single [Get] succeeds
    (respectively of the external ids that are bound); unknown ids are
    skipped. The single [Get] succeeds exactly on the empty id and on the ids
    for which [Exists] is true, and fails with [ObjectNotExists] otherwise. *)
Theorem Get_overloads_agree `{D : Deps} :
  forall (s : BulkStore.t) (ids : list ObjectID) (eids : list ExternalID)
         (objects : list Payload),
    BulkStore.Get_ids s ids objects
    = (OK, objects ++ omap (fun id => snd (BulkStore.Get s id)) ids) /\
    BulkStore.Get_eids s eids objects
    = (OK, objects ++ omap (fun eid => BulkStore.externals_ s !! eid) eids) /\
    (forall id : ObjectID,
       (id = EmptyBlobID \/ BulkStore.Exists s id = true ->
        exists p, BulkStore.Get s id = (OK, Some p)) /\
       (id <> EmptyBlobID -> BulkStore.Exists s id = false ->
        BulkStore.Get s id = (ObjectNotExists, None))).
Proof.
  intros s ids eids objects. split; [|split].
  - revert objects. induction ids as [|id ids IH]; intros objects.
    + simpl. rewrite app_nil_r. reflexivity.
    + cbn [BulkStore.Get_ids omap list_omap]. unfold BulkStore.Get at 1.
      destruct (id =? EmptyBlobID); cbn [snd].
      * rewrite IH, <- app_assoc. reflexivity.
      * destruct (BulkStore.objects_ s !! id); cbn [snd].
        -- rewrite IH, <- app_assoc. reflexivity.
        -- apply IH.
  - revert objects. induction eids as [|eid eids IH]; intros objects.
    + simpl. rewrite app_nil_r. reflexivity.
    + cbn [BulkStore.Get_eids omap list_omap].
      destruct (BulkStore.externals_ s !! eid).
      * rewrite IH, <- app_assoc. reflexivity.
      * apply IH.
  - intros id. unfold BulkStore.Get, BulkStore.Exists. split.
    + intros [->|Hex].
      * rewrite Z.eqb_refl. eauto.
      * destruct (id =? EmptyBlobID); [eauto|].
        apply bool_decide_eq_true in Hex as [p ->]. eauto.
    + intros Hne Hex. apply Z.eqb_neq in Hne. rewrite Hne.
      apply bool_decide_eq_false in Hex.
      destruct (BulkStore.objects_ s !! id) eqn:E; [|reflexivity].
      exfalso. apply Hex. eauto.
Qed.

Lemma Get_overloads_agree_witness :
  (demo.blob0 = EmptyBlobID \/
   BulkStore.Exists demo.finalized demo.blob0 = true) /\
  exists p, BulkStore.Get demo.finalized demo.blob0 = (OK, Some p).
Proof.
  assert (H : demo.blob0 = EmptyBlobID \/
              BulkStore.Exists demo.finalized demo.blob0 = true)
    by (right; reflexivity).
  split; [exact H|].
  exact (proj1 (proj2 (proj2 (Get_overloads_agree demo.finalized [] [] []))
                  demo.blob0) H).
Defined.

Section RegistryFacts.
Context `{D : Deps}.
Import BulkStore.

(** What a [Create] of a non-empty blob that returns [OK] has done. *)
Lemma Create_OK s data_size eid esize id object s1 :
  0 < data_size ->
  Create s data_size eid esize = (OK, Some (id, object), s1) ->
  objects_ s1 = emplace id object (objects_ s) /\
  externals_ s1 = emplace eid object (externals_ s) /\
  arenas_ s1 = arenas_ s /\ spans s1 = spans s /\ madvised s1 = madvised s.
Proof.
  intros Hpos Hcreate. unfold Create in Hcreate.
  destruct (data_size =? 0) eqn:E; [apply Z.eqb_eq in E; lia|].
  destruct (AllocateMemory _ _ _ _ _) as [[pointer [[fd ms] off]] w].
  destruct (pointer =? 0); [discriminate|].
  injection Hcreate as <- <- <-. cbn. auto.
Qed.



Lemma Delete_reserved s id :
  id = EmptyBlobID \/ id = WholeRegionID -> Delete s id = Some (OK, s).
Proof.
  intros Hid. unfold Delete.
  replace ((id =? EmptyBlobID) || (id =? WholeRegionID)) with true;
    [reflexivity|].
  symmetry. apply orb_true_iff.
  destruct Hid as [->| ->]; [left|right]; apply Z.eqb_refl.
Qed.

Lemma Delete_unregistered s id :
  id <> EmptyBlobID -> id <> WholeRegionID -> objects_ s !! id = None ->
  Delete s id = Some (ObjectNotExists, s).
Proof.
  intros H1 H2 Hp. unfold Delete.
  apply Z.eqb_neq in H1. apply Z.eqb_neq in H2. rewrite H1, H2, Hp.
  reflexivity.
Qed.

(** A pool blob is always deleted. *)
Lemma Delete_pool s id object :
  id <> EmptyBlobID -> id <> WholeRegionID ->
  objects_ s !! id = Some object -> arena_fd object = -1 ->
  Delete s id
  = Some (OK,
          mk _ (BulkAllocator_Free (world_ s) (pointer object)
                  (data_size object))
             (delete id (objects_ s))
             (delete (external_id object) (externals_ s))
             (arenas_ s) (spans s) (madvised s ++ [])).
Proof.
  intros H1 H2 Hp Hfd. unfold Delete.
  apply Z.eqb_neq in H1. apply Z.eqb_neq in H2. rewrite H1, H2, Hp, Hfd.
  reflexivity.
Qed.

Lemma greatest_In l x : greatest l = Some x -> In x l.
Proof.
  revert x. induction l as [|y l IH]; intros x; [discriminate|].
  simpl. destruct (greatest l) as [z|] eqn:E.
  - intros [= <-]. destruct (Z.max_spec y z) as [[_ ->]|[_ ->]]; auto.
  - intros [= <-]. auto.
Qed.

Lemma least_In l x : least l = Some x -> In x l.
Proof.
  revert x. induction l as [|y l IH]; intros x; [discriminate|].
  simpl. destruct (least l) as [z|] eqn:E.
  - intros [= <-]. destruct (Z.min_spec y z) as [[_ ->]|[_ ->]]; auto.
  - intros [= <-]. auto.
Qed.

Lemma spans_prev_member id sp x : spans_prev id sp = Some x -> x ∈ sp.
Proof.
  unfold spans_prev. destruct (decide (id ∈ sp)); intros H;
    apply greatest_In in H.
  - apply filter_In in H as [H _]. apply elem_of_elements.
    apply list_elem_of_In. exact H.
  - apply elem_of_elements. apply list_elem_of_In. exact H.
Qed.

Lemma spans_next_member id sp x : spans_next id sp = Some x -> x ∈ sp.
Proof.
  unfold spans_next. intros H. apply least_In in H.
  apply filter_In in H as [H _]. apply elem_of_elements.
  apply list_elem_of_In. exact H.
Qed.

(** [Delete] reports an internal state error only when a member of the spans
    has no payload. *)
Lemma arena_bounds_invalid s id lower upper st :
  arena_bounds s id lower upper = BoundsError st ->
  exists x, x ∈ spans s /\ objects_ s !! x = None.
Proof.
  unfold arena_bounds.
  destruct (spans_prev id (spans s)) as [prev|] eqn:Hprev.
  - destruct (objects_ s !! prev) eqn:Hp.
    + destruct (decide (id ∈ spans s)); [|discriminate].
      destruct (spans_next id (spans s)) as [next|] eqn:Hnext; [|discriminate].
      destruct (objects_ s !! next) eqn:Hn; [discriminate|].
      intros _. exists next. split; [|exact Hn].
      eapply spans_next_member. exact Hnext.
    + intros _. exists prev. split; [|exact Hp].
      eapply spans_prev_member. exact Hprev.
  - destruct (decide (id ∈ spans s)); [|discriminate].
    destruct (spans_next id (spans s)) as [next|] eqn:Hnext; [|discriminate].
    destruct (objects_ s !! next) eqn:Hn; [discriminate|].
    intros _. exists next. split; [|exact Hn].
    eapply spans_next_member. exact Hnext.
Qed.

(** The statuses of [Delete], and the store it returns with each. *)
Lemma Delete_cases s id st s' :
  Delete s id = Some (st, s') ->
  (st = OK /\ (id = EmptyBlobID \/ id = WholeRegionID) /\ s' = s) \/
  (st = ObjectNotExists /\ id <> EmptyBlobID /\ id <> WholeRegionID /\
   objects_ s !! id = None /\ s' = s) \/
  (st = Invalid /\ id <> EmptyBlobID /\ id <> WholeRegionID /\ s' = s /\
   (exists object, objects_ s !! id = Some object /\ arena_fd object <> -1) /\
   exists x, x ∈ spans s /\ objects_ s !! x = None) \/
  (st = OK /\ id <> EmptyBlobID /\ id <> WholeRegionID /\
   exists object,
     objects_ s !! id = Some object /\
     objects_ s' = delete id (objects_ s) /\
     externals_ s' = delete (external_id object) (externals_ s) /\
     arenas_ s' = arenas_ s /\ spans s' = spans s /\
     (arena_fd object = -1 ->
      world_ s' = BulkAllocator_Free (world_ s) (pointer object)
                    (data_size object) /\
      madvised s' = madvised s) /\
     (arena_fd object <> -1 -> world_ s' = world_ s)).
Proof.
  unfold Delete.
  destruct ((id =? EmptyBlobID) || (id =? WholeRegionID)) eqn:Hsentinel.
  - intros [= <- <-]. left. split; [reflexivity|]. split; [|reflexivity].
    apply orb_true_iff in Hsentinel as [E|E]; apply Z.eqb_eq in E; auto.
  - apply orb_false_iff in Hsentinel as [E1 E2].
    apply Z.eqb_neq in E1. apply Z.eqb_neq in E2.
    destruct (objects_ s !! id) as [object|] eqn:Hobj.
    + destruct (arena_fd object =? -1) eqn:Hfd.
      * apply Z.eqb_eq in Hfd. intros [= <- <-]. do 3 right.
        split; [reflexivity|]. split; [exact E1|]. split; [exact E2|].
        exists object. cbn. rewrite app_nil_r.
        repeat split; auto; intros; contradiction.
      * apply Z.eqb_neq in Hfd.
        destruct (arena_bounds s id _ _) as [lb ub|st0|] eqn:Hb.
        -- intros Hdel. do 3 right.
           split; [destruct (Z.max _ lb <? Z.min _ ub); congruence|].
           split; [exact E1|]. split; [exact E2|].
           exists object. split; [reflexivity|].
           destruct (Z.max _ lb <? Z.min _ ub); injection Hdel as <- <-; cbn;
             repeat split; auto; intros; contradiction.
        -- intros [= <- <-]. right; right; left.
           pose proof (arena_bounds_error _ _ _ _ _ Hb) as ->.
           split; [reflexivity|]. split; [exact E1|]. split; [exact E2|].
           split; [reflexivity|]. split; [eauto|].
           eapply arena_bounds_invalid. exact Hb.
        -- discriminate.
    + intros [= <- <-]. right; left. auto.
Qed.

End RegistryFacts.



(** X9. [Delete] returns [OK], [ObjectNotExists] or [Invalid], and returns
    the store as it was whenever the status is not [OK]. It returns
    [ObjectNotExists] exactly for an id that is neither reserved nor
    registered, and [Invalid] only for an arena blob in a state in which some
    member of the spans has no payload. *)
Theorem Delete_failure_leaves_store `{D : Deps} :
  forall (s s' : BulkStore.t) (object_id : ObjectID) (st : Status),
    BulkStore.Delete s object_id = Some (st, s') ->
    (st = OK \/ st = ObjectNotExists \/ st = Invalid) /\
    (st <> OK -> s' = s) /\
    (st = ObjectNotExists <->
     object_id <> EmptyBlobID /\ object_id <> BulkStore.WholeRegionID /\
     BulkStore.objects_ s !! object_id = None) /\
    (st = Invalid ->
     (exists object,
        BulkStore.objects_ s !! object_id = Some object /\
        arena_fd object <> -1) /\
     ~ BulkStore.spans_registered s).
Proof.
  intros s s' id st Hdel.
  destruct (Delete_cases s id st s' Hdel)
    as [(-> & Hid & ->)
       |[(-> & H1 & H2 & Hnone & ->)
        |[(-> & H1 & H2 & -> & Hobj & x & Hx & Hnone)
         |(-> & H1 & H2 & object & Hobj & _)]]].
  - split; [auto|]. split; [congruence|]. split; [|discriminate].
    split; [discriminate|]. intros (H1 & H2 & _). destruct Hid; contradiction.
  - split; [auto|]. split; [reflexivity|]. split; [|discriminate].
    split; auto.
  - split; [auto|]. split; [reflexivity|]. split.
    + split; [discriminate|]. intros (_ & _ & Hnone').
      destruct Hobj as (object & Hobj & _). congruence.
    + intros _. split; [exact Hobj|].
      intros Hinv. destruct (Hinv x Hx) as [p Hp]. congruence.
  - split; [auto|]. split; [congruence|]. split; [|discriminate].
    split; [discriminate|]. intros (_ & _ & Hnone). congruence.
Qed.

Lemma Delete_failure_leaves_store_witness :
  BulkStore.Delete demo.deleted demo.blob1 = Some (Invalid, demo.deleted) /\
  (Invalid <> OK -> demo.deleted = demo.deleted) /\
  ~ BulkStore.spans_registered demo.deleted.
Proof.
  assert (H : BulkStore.Delete demo.deleted demo.blob1
              = Some (Invalid, demo.deleted)) by reflexivity.
  split; [exact H|].
  pose proof (Delete_failure_leaves_store demo.deleted demo.deleted demo.blob1
                Invalid H) as (_ & Hsame & _ & Hinv).
  split; [exact Hsame|exact (proj2 (Hinv eq_refl))].
Defined.

(** X10. A second [Delete] of an id that was just deleted returns
    [ObjectNotExists] and changes nothing, however often it is repeated;
    [Delete] of a reserved id returns [OK] and changes nothing. *)
Theorem Delete_twice `{D : Deps} :
  forall (s s' : BulkStore.t) (object_id : ObjectID),
    BulkStore.Delete s object_id = Some (OK, s') ->
    (object_id <> EmptyBlobID -> object_id <> BulkStore.WholeRegionID ->
     BulkStore.Delete s' object_id = Some (ObjectNotExists, s')) /\
    (object_id = EmptyBlobID \/ object_id = BulkStore.WholeRegionID ->
     s' = s /\ BulkStore.Delete s' object_id = Some (OK, s')) /\
    forall n : nat,
      BulkStore.run (List.repeat (BulkStore.OpDelete object_id) n) s'
      = Some s'.
Proof.
  intros s s' id Hdel.
  assert (Hagain : exists st, BulkStore.Delete s' id = Some (st, s') /\
            (id <> EmptyBlobID -> id <> BulkStore.WholeRegionID ->
             st = ObjectNotExists) /\
            (id = EmptyBlobID \/ id = BulkStore.WholeRegionID ->
             st = OK /\ s' = s)).
  { apply Delete_OK in Hdel
      as [[Hid ->]|(H1 & H2 & object & _ & Hobjs & _)].
    - exists OK. split; [apply Delete_reserved; exact Hid|].
      split; [destruct Hid; contradiction|auto].
    - exists ObjectNotExists. split.
      + apply Delete_unregistered; [assumption..|].
        rewrite Hobjs. apply lookup_delete_eq.
      + split; [reflexivity|]. intros [?|?]; contradiction. }
  destruct Hagain as (st & Hst & Hnot & Hres).
  split; [intros H1 H2; rewrite Hst, (Hnot H1 H2); reflexivity|].
  split.
  - intros Hid. destruct (Hres Hid) as [-> ->]. split; [reflexivity|].
    apply Delete_reserved. exact Hid.
  - induction n as [|n IH]; [reflexivity|].
    cbn [List.repeat BulkStore.run BulkStore.exec]. rewrite Hst. exact IH.
Qed.

Lemma Delete_twice_witness :
  (BulkStore.Delete demo.finalized demo.blob0 = Some (OK, demo.deleted) /\
   demo.blob0 <> EmptyBlobID /\ demo.blob0 <> BulkStore.WholeRegionID) /\
  BulkStore.Delete demo.deleted demo.blob0
  = Some (ObjectNotExists, demo.deleted).
Proof.
  assert (H1 : BulkStore.Delete demo.finalized demo.blob0
               = Some (OK, demo.deleted)) by reflexivity.
  assert (H2 : demo.blob0 <> EmptyBlobID)
    by (intros H; vm_compute in H; discriminate H).
  assert (H3 : demo.blob0 <> BulkStore.WholeRegionID)
    by (intros H; vm_compute in H; discriminate H).
  split; [auto|].
  exact (proj1 (Delete_twice demo.finalized demo.deleted demo.blob0 H1)
           H2 H3).
Defined.

(** X11. [Delete] touches only its blob: it leaves the arenas and the spans
    alone, changes no entry of the registry but the one of [object_id] and no
    entry of the external map but the one of the external id stored in the
    deleted payload, and hands memory back to the allocator only for a pool
    blob (one [Free] of the payload's pointer and size, and then no
    [madvise]); deleting an arena blob leaves the allocator, and so the
    footprint, unchanged. *)
Theorem Delete_touches_only_its_blob `{D : Deps} :
  forall (s s' : BulkStore.t) (object_id : ObjectID) (st : Status),
    BulkStore.Delete s object_id = Some (st, s') ->
    BulkStore.arenas_ s' = BulkStore.arenas_ s /\
    BulkStore.spans s' = BulkStore.spans s /\
    (forall id, id <> object_id ->
       BulkStore.objects_ s' !! id = BulkStore.objects_ s !! id) /\
    (forall e,
       (forall object, BulkStore.objects_ s !! object_id = Some object ->
                       e <> external_id object) ->
       BulkStore.externals_ s' !! e = BulkStore.externals_ s !! e) /\
    (s' = s \/
     exists object,
       BulkStore.objects_ s !! object_id = Some object /\
       BulkStore.objects_ s' !! object_id = None /\
       BulkStore.externals_ s' !! external_id object = None /\
       if arena_fd object =? -1 then
         BulkStore.world_ s'
         = BulkAllocator_Free (BulkStore.world_ s) (pointer object)
             (data_size object) /\
         BulkStore.madvised s' = BulkStore.madvised s
       else
         BulkStore.world_ s' = BulkStore.world_ s /\
         BulkStore.Footprint s' = BulkStore.Footprint s).
Proof.
  intros s s' id st Hdel.
  destruct (Delete_cases s id st s' Hdel)
    as [(-> & Hid & ->)
       |[(-> & H1 & H2 & Hnone & ->)
        |[(-> & H1 & H2 & -> & _)
         |(-> & H1 & H2 & object & Hobj & Hobjs & Hexts & Har & Hsp
           & Hpool & Harena)]]];
    try (repeat split; auto; fail).
  split; [exact Har|]. split; [exact Hsp|]. split; [|split].
  - intros id' Hne. rewrite Hobjs. apply lookup_delete_ne. congruence.
  - intros e He. rewrite Hexts. apply lookup_delete_ne.
    specialize (He object Hobj). congruence.
  - right. exists object. split; [exact Hobj|].
    split; [rewrite Hobjs; apply lookup_delete_eq|].
    split; [rewrite Hexts; apply lookup_delete_eq|].
    destruct (arena_fd object =? -1) eqn:Hfd.
    + apply Z.eqb_eq in Hfd. exact (Hpool Hfd).
    + apply Z.eqb_neq in Hfd. unfold BulkStore.Footprint.
      rewrite (Harena Hfd). auto.
Qed.

Lemma Delete_touches_only_its_blob_witness :
  BulkStore.Delete demo.finalized demo.blob0 = Some (OK, demo.deleted) /\
  BulkStore.spans demo.deleted = BulkStore.spans demo.finalized /\
  (demo.blob1 <> demo.blob0 ->
   BulkStore.objects_ demo.deleted !! demo.blob1
   = BulkStore.objects_ demo.finalized !! demo.blob1).
Proof.
  assert (H : BulkStore.Delete demo.finalized demo.blob0
              = Some (OK, demo.deleted)) by reflexivity.
  split; [exact H|].
  pose proof (Delete_touches_only_its_blob demo.finalized demo.deleted
                demo.blob0 OK H) as (_ & Hsp & Hobjs & _).
  split; [exact Hsp|exact (Hobjs demo.blob1)].
Defined.

(** X12. Creating a pool blob under a fresh id and a fresh external id and
    deleting it again by its id restores the registry and the external map,
    and leaves the arenas, the spans and the [madvise] trace as they were.
    The payload constructor belongs to a header that is not part of the
    sources: that the payload stores the external id it was given, and is a
    pool blob, are hypotheses. *)
Theorem Create_then_Delete_restores_maps `{D : Deps} :
  forall (s s1 : BulkStore.t) (data_size : Z) (eid : ExternalID)
         (external_size : Z) (id : ObjectID) (object : Payload),
    0 < data_size ->
    BulkStore.Create s data_size eid external_size
    = (OK, Some (id, object), s1) ->
    BulkStore.objects_ s !! id = None ->
    BulkStore.externals_ s !! eid = None ->
    id <> EmptyBlobID -> id <> BulkStore.WholeRegionID ->
    external_id object = eid ->
    arena_fd object = -1 ->
    exists s2 : BulkStore.t,
      BulkStore.Delete s1 id = Some (OK, s2) /\
      BulkStore.objects_ s2 = BulkStore.objects_ s /\
      BulkStore.externals_ s2 = BulkStore.externals_ s /\
      BulkStore.arenas_ s2 = BulkStore.arenas_ s /\
      BulkStore.spans s2 = BulkStore.spans s /\
      BulkStore.madvised s2 = BulkStore.madvised s /\
      BulkStore.Exists s2 id = false /\
      BulkStore.Exists_external s2 eid = false.
Proof.
  intros s s1 data_size eid esize id object Hpos Hcreate Hfresh Hefresh
    Hne1 Hne2 Heid Hfd.
  destruct (Create_OK _ _ _ _ _ _ _ Hpos Hcreate)
    as (Hobjs & Hexts & Har & Hsp & Hmad).
  assert (Hid : BulkStore.objects_ s1 !! id = Some object)
    by (rewrite Hobjs, emplace_lookup_same, Hfresh; reflexivity).
  pose proof (Delete_pool s1 id object Hne1 Hne2 Hid Hfd) as Hdel.
  eexists. split; [exact Hdel|].
  cbn [BulkStore.objects_ BulkStore.externals_ BulkStore.arenas_
       BulkStore.spans BulkStore.madvised].
  assert (Ho2 : delete id (BulkStore.objects_ s1) = BulkStore.objects_ s).
  { rewrite Hobjs. unfold BulkStore.emplace. rewrite Hfresh.
    apply delete_insert_id. exact Hfresh. }
  assert (He2 : delete (external_id object) (BulkStore.externals_ s1)
                = BulkStore.externals_ s).
  { rewrite Heid, Hexts. unfold BulkStore.emplace. rewrite Hefresh.
    apply delete_insert_id. exact Hefresh. }
  rewrite Ho2, He2, app_nil_r.
  split; [reflexivity|]. split; [reflexivity|]. split; [exact Har|].
  split; [exact Hsp|]. split; [exact Hmad|].
  unfold BulkStore.Exists, BulkStore.Exists_external.
  cbn [BulkStore.objects_ BulkStore.externals_].
  split; apply bool_decide_eq_false; intros [p Hp]; congruence.
Qed.

Lemma Create_then_Delete_restores_maps_witness :
  (0 < 8 /\
   BulkStore.Create demo.pooled 8 "e1" 0
   = (OK, Some (demo.pool_blob, demo.pool_payload "e1"),
      demo.after [BulkStore.OpCreate 8 "e1" 0] demo.pooled) /\
   BulkStore.objects_ demo.pooled !! demo.pool_blob = None /\
   BulkStore.externals_ demo.pooled !! "e1" = None /\
   demo.pool_blob <> EmptyBlobID /\
   demo.pool_blob <> BulkStore.WholeRegionID /\
   external_id (demo.pool_payload "e1") = "e1" /\
   arena_fd (demo.pool_payload "e1") = -1) /\
  exists s2 : BulkStore.t,
    BulkStore.Delete
      (demo.after [BulkStore.OpCreate 8 "e1" 0] demo.pooled) demo.pool_blob
    = Some (OK, s2) /\
    BulkStore.objects_ s2 = BulkStore.objects_ demo.pooled /\
    BulkStore.externals_ s2 = BulkStore.externals_ demo.pooled.
Proof.
  assert (H1 : 0 < 8) by lia.
  assert (H2 : BulkStore.Create demo.pooled 8 "e1" 0
               = (OK, Some (demo.pool_blob, demo.pool_payload "e1"),
                  demo.after [BulkStore.OpCreate 8 "e1" 0] demo.pooled))
    by reflexivity.
  assert (H3 : BulkStore.objects_ demo.pooled !! demo.pool_blob = None)
    by reflexivity.
  assert (H4 : BulkStore.externals_ demo.pooled !! "e1" = None)
    by reflexivity.
  assert (H5 : demo.pool_blob <> EmptyBlobID)
    by (intros H; vm_compute in H; discriminate H).
  assert (H6 : demo.pool_blob <> BulkStore.WholeRegionID)
    by (intros H; vm_compute in H; discriminate H).
  assert (H8 : external_id (demo.pool_payload "e1") = "e1") by reflexivity.
  assert (H9 : arena_fd (demo.pool_payload "e1") = -1) by reflexivity.
  split; [auto 12|].
  destruct (Create_then_Delete_restores_maps _ _ _ _ _ _ _
              H1 H2 H3 H4 H5 H6 H8 H9)
    as (s2 & Hdel & Hobjs & Hexts & _).
  exists s2. auto.
Defined.



(** X13. The external map is keyed by external id only: when a blob is
    created under an external id that is already bound, the binding keeps
    the older payload, and deleting the new blob erases that binding. The
    older blob stays registered and can no longer be found by its external
    id. That the new payload stores the external id it was given, and is a
    pool blob, are hypotheses on the payload constructor. *)
Theorem Delete_unbinds_shared_external_id `{D : Deps} :
  forall (s s1 : BulkStore.t) (data_size : Z) (eid : ExternalID)
         (external_size : Z) (id : ObjectID) (object older : Payload),
    0 < data_size ->
    BulkStore.externals_ s !! eid = Some older ->
    BulkStore.Create s data_size eid external_size
    = (OK, Some (id, object), s1) ->
    BulkStore.objects_ s !! id = None ->
    id <> EmptyBlobID -> id <> BulkStore.WholeRegionID ->
    external_id object = eid -> arena_fd object = -1 ->
    BulkStore.externals_ s1 !! eid = Some older /\
    exists s2 : BulkStore.t,
      BulkStore.Delete s1 id = Some (OK, s2) /\
      BulkStore.externals_ s2 !! eid = None /\
      BulkStore.Exists_external s2 eid = false /\
      BulkStore.Get_eids s2 [eid] [] = (OK, []) /\
      BulkStore.objects_ s2 = BulkStore.objects_ s.
Proof.
  intros s s1 data_size eid esize id object older Hpos Hbound Hcreate Hfresh
    Hne1 Hne2 Heid Hfd.
  destruct (Create_OK _ _ _ _ _ _ _ Hpos Hcreate) as (Hobjs & Hexts & _).
  assert (Hid : BulkStore.objects_ s1 !! id = Some object)
    by (rewrite Hobjs, emplace_lookup_same, Hfresh; reflexivity).
  split; [rewrite Hexts, emplace_lookup_same, Hbound; reflexivity|].
  pose proof (Delete_pool s1 id object Hne1 Hne2 Hid Hfd) as Hdel.
  eexists. split; [exact Hdel|].
  unfold BulkStore.Exists_external.
  cbn [BulkStore.Get_eids BulkStore.objects_ BulkStore.externals_].
  rewrite Heid, lookup_delete_eq.
  split; [reflexivity|].
  split; [apply bool_decide_eq_false; intros [p Hp]; discriminate|].
  split; [reflexivity|].
  rewrite Hobjs. unfold BulkStore.emplace. rewrite Hfresh.
  apply delete_insert_id. exact Hfresh.
Qed.

Lemma Delete_unbinds_shared_external_id_witness :
  (0 < 8 /\
   BulkStore.externals_
     (demo.after [BulkStore.OpCreate 8 "" 0] demo.pooled) !! ""
   = Some (demo.pool_payload "") /\
   BulkStore.Create (demo.after [BulkStore.OpCreate 8 "" 0] demo.pooled)
     8 "" 0
   = (OK,
      Some (Z.lor 65600 (2 ^ 63),
            mkPayload (Z.lor 65600 (2 ^ 63)) "" 8 0 65600 3 (-1) 1024 65600),
      demo.after [BulkStore.OpCreate 8 "" 0; BulkStore.OpCreate 8 "" 0]
        demo.pooled) /\
   BulkStore.objects_
     (demo.after [BulkStore.OpCreate 8 "" 0] demo.pooled)
     !! Z.lor 65600 (2 ^ 63) = None /\
   Z.lor 65600 (2 ^ 63) <> EmptyBlobID /\
   Z.lor 65600 (2 ^ 63) <> BulkStore.WholeRegionID) /\
  exists s2 : BulkStore.t,
    BulkStore.Delete
      (demo.after [BulkStore.OpCreate 8 "" 0; BulkStore.OpCreate 8 "" 0]
         demo.pooled)
      (Z.lor 65600 (2 ^ 63))
    = Some (OK, s2) /\
    BulkStore.externals_ s2 !! "" = None /\
    BulkStore.objects_ s2 !! demo.pool_blob = Some (demo.pool_payload "").
Proof.
  assert (H1 : 0 < 8) by lia.
  assert (H2 : BulkStore.externals_
                 (demo.after [BulkStore.OpCreate 8 "" 0] demo.pooled) !! ""
               = Some (demo.pool_payload "")) by reflexivity.
  assert (H3 : BulkStore.Create
                 (demo.after [BulkStore.OpCreate 8 "" 0] demo.pooled) 8 "" 0
               = (OK,
                  Some (Z.lor 65600 (2 ^ 63),
                        mkPayload (Z.lor 65600 (2 ^ 63)) "" 8 0 65600 3 (-1)
                          1024 65600),
                  demo.after
                    [BulkStore.OpCreate 8 "" 0; BulkStore.OpCreate 8 "" 0]
                    demo.pooled)) by reflexivity.
  assert (H4 : BulkStore.objects_
                 (demo.after [BulkStore.OpCreate 8 "" 0] demo.pooled)
                 !! Z.lor 65600 (2 ^ 63) = None) by reflexivity.
  assert (H5 : Z.lor 65600 (2 ^ 63) <> EmptyBlobID)
    by (intros H; vm_compute in H; discriminate H).
  assert (H6 : Z.lor 65600 (2 ^ 63) <> BulkStore.WholeRegionID)
    by (intros H; vm_compute in H; discriminate H).
  split; [auto 10|].
  destruct (Delete_unbinds_shared_external_id _ _ _ _ _ _ _ _
              H1 H2 H3 H4 H5 H6 eq_refl eq_refl)
    as (_ & s2 & Hdel & Hgone & _ & _ & Hobjs).
  exists s2. split; [exact Hdel|]. split; [exact Hgone|].
  rewrite Hobjs. reflexivity.
Defined.

(** ** Sequences of operations *)

Section RunFacts.
Context `{D : Deps}.
Import BulkStore.

(** What [PreAllocate], [Create] and [MakeArena] leave alone. *)
Lemma PreAllocate_frame s size :
  let s' := snd (PreAllocate s size) in
  externals_ s' = externals_ s /\ arenas_ s' = arenas_ s /\
  spans s' = spans s /\ madvised s' = madvised s /\
  forall id p, objects_ s !! id = Some p -> objects_ s' !! id = Some p.
Proof.
  unfold PreAllocate.
  destruct (BulkAllocator_Init _ _) as [pointer w].
  destruct (pointer =? 0); cbn; [auto|].
  destruct (GetMallocMapinfo w pointer) as [[fd map_size] offset]. cbn.
  repeat split; auto. intros id p Hp. apply emplace_keeps. exact Hp.
Qed.

Lemma Create_frame s data_size eid esize :
  let s' := snd (Create s data_size eid esize) in
  arenas_ s' = arenas_ s /\ spans s' = spans s /\
  madvised s' = madvised s /\
  (forall id p, objects_ s !! id = Some p -> objects_ s' !! id = Some p) /\
  (forall e p, externals_ s !! e = Some p -> externals_ s' !! e = Some p).
Proof.
  unfold Create.
  destruct (data_size =? 0); cbn; [auto|].
  destruct (AllocateMemory _ _ _ _ _) as [[pointer [[fd ms] off]] w].
  destruct (pointer =? 0); cbn; [auto|].
  repeat split; auto; intros ? p Hp; apply emplace_keeps; exact Hp.
Qed.

Lemma MakeArena_frame s size :
  let s' := snd (MakeArena s size) in
  objects_ s' = objects_ s /\ externals_ s' = externals_ s /\
  spans s' = spans s /\ madvised s' = madvised s.
Proof.
  unfold MakeArena.
  destruct (create_buffer _ _) as [fd w].
  destruct (fd =? -1); cbn; [auto|].
  destruct (mmap_shared w size fd) as [space w']. cbn. auto.
Qed.

Lemma FinalizeArena_frame s fd offsets sizes st s' :
  FinalizeArena s fd offsets sizes = Some (st, s') ->
  externals_ s' = externals_ s /\ spans s ⊆ spans s' /\
  (forall id p, objects_ s !! id = Some p -> objects_ s' !! id = Some p) /\
  (forall a, a <> fd -> arenas_ s' !! a = arenas_ s !! a).
Proof.
  unfold FinalizeArena.
  destruct (arenas_ s !! fd) as [arena|]; [|intros [= <- <-]; auto].
  destruct (negb _); [intros [= <- <-]; auto|].
  destruct (finalize_blobs _ _ _ _ _ _ _) as [[objects sp]|] eqn:Hfin;
    [|discriminate].
  destruct (memory.recycle_arena _ _ _ _ _); [|discriminate].
  intros [= <- <-]. cbn.
  apply finalize_blobs_spec in Hfin as (Hsub & Hkeep & _).
  repeat split; auto. intros a Ha. apply lookup_delete_ne. congruence.
Qed.

Lemma exec_spans o s s' : exec o s = Some s' -> spans s ⊆ spans s'.
Proof.
  destruct o as [size|dsize eid esize|id|ids|eids|id|eid|id|eid|size
                |fd offsets sizes]; cbn [exec]; intros Hexec;
    try (injection Hexec as <-; reflexivity).
  - injection Hexec as <-.
    destruct (PreAllocate_frame s size) as (_ & _ & -> & _). reflexivity.
  - injection Hexec as <-.
    destruct (Create_frame s dsize eid esize) as (_ & -> & _). reflexivity.
  - destruct (Delete s id) as [[st s1]|] eqn:Hdel; [|discriminate].
    injection Hexec as <-. apply Delete_frame in Hdel as (-> & _).
    reflexivity.
  - destruct (Delete_external s eid) as [[st s1]|] eqn:Hdel; [|discriminate].
    injection Hexec as <-.
    apply Delete_external_cases in Hdel
      as [(_ & _ & ->)|(object & _ & Hdel)]; [reflexivity|].
    apply Delete_frame in Hdel as (-> & _). reflexivity.
  - injection Hexec as <-.
    destruct (MakeArena_frame s size) as (_ & _ & -> & _). reflexivity.
  - destruct (FinalizeArena s fd offsets sizes) as [[st s1]|] eqn:Hfin;
      [|discriminate].
    injection Hexec as <-. apply FinalizeArena_frame in Hfin as (_ & H & _).
    exact H.
Qed.


End RunFacts.

(** X14. No operation removes an id from [Arena::spans]: along every
    sequence of operations the set only grows. *)
Theorem spans_never_shrink `{D : Deps} :
  forall (ops : list BulkStore.op) (s s' : BulkStore.t),
    BulkStore.run ops s = Some s' ->
    BulkStore.spans s ⊆ BulkStore.spans s'.
Proof.
  induction ops as [|o ops IH]; cbn [BulkStore.run]; intros s s' Hrun.
  - injection Hrun as <-. reflexivity.
  - destruct (BulkStore.exec o s) as [s1|] eqn:Hexec; [|discriminate].
    etrans; [exact (exec_spans o s s1 Hexec)|exact (IH s1 s' Hrun)].
Qed.

Lemma spans_never_shrink_witness :
  BulkStore.run (demo.arena_ops ++ [BulkStore.OpDelete demo.blob0])
    demo.store0 = Some demo.deleted /\
  BulkStore.spans demo.store0 ⊆ BulkStore.spans demo.deleted.
Proof.
  assert (H : BulkStore.run (demo.arena_ops ++ [BulkStore.OpDelete demo.blob0])
                demo.store0 = Some demo.deleted) by reflexivity.
  split; [exact H|].
  exact (spans_never_shrink _ demo.store0 demo.deleted H).
Defined.



(** ** Arenas *)

Section ArenaFacts.
Context `{D : Deps}.
Import BulkStore.

(** The first loop of [FinalizeArena]: the ids it adds to the spans, and the
    payloads it registers. *)
Lemma finalize_blobs_members fd mmap_size mmap_base :
  forall offsets sizes objects sp objects' sp',
    finalize_blobs fd mmap_size mmap_base offsets sizes objects sp
    = Some (objects', sp') ->
    (forall id, id ∈ sp' <->
       id ∈ sp \/
       exists o, In o offsets /\ id = GenerateBlobID (wrap64 (mmap_base + o)))
    /\
    (forall id p, objects' !! id = Some p ->
       objects !! id = Some p \/
       exists (i : nat) o n,
         offsets !! i = Some o /\ sizes !! i = Some n /\
         id = GenerateBlobID (wrap64 (mmap_base + o)) /\
         p = Payload_blob id n (wrap64 (mmap_base + o)) fd mmap_size o) /\
    (forall o, In o offsets ->
       is_Some (objects' !! GenerateBlobID (wrap64 (mmap_base + o)))).
Proof.
  induction offsets as [|o offsets IH]; intros sizes objects sp objects' sp'.
  - cbn. intros [= <- <-]. split; [|split].
    + intros id. split; [auto|]. intros [H|(o & [] & _)]. exact H.
    + auto.
    + intros o [].
  - destruct sizes as [|n sizes]; [discriminate|]. cbn [finalize_blobs].
    intros Hrun. pose proof Hrun as Hrun'.
    apply IH in Hrun as (Hsp & Hobj & Hreg).
    apply finalize_blobs_spec in Hrun' as (_ & Hkeep & _).
    split; [|split].
    + intros id. rewrite Hsp, elem_of_union, elem_of_singleton. split.
      * intros [[->|H]|(o' & Ho' & ->)].
        -- right. exists o. split; [left; reflexivity|reflexivity].
        -- left. exact H.
        -- right. exists o'. split; [right; exact Ho'|reflexivity].
      * intros [H|(o' & [<-|Ho'] & ->)]; [auto|auto|].
        right. exists o'. auto.
    + intros id p Hp. destruct (Hobj id p Hp) as [Hold|(i & o' & n' & H)].
      * destruct (decide (GenerateBlobID (wrap64 (mmap_base + o)) = id))
          as [Heq|Hne].
        -- subst id. rewrite emplace_lookup_same in Hold.
           destruct (objects !! GenerateBlobID (wrap64 (mmap_base + o)))
             as [p0|] eqn:E; cbn in Hold.
           ++ left. exact Hold.
           ++ right. exists 0%nat, o, n. injection Hold as <-. auto.
        -- rewrite emplace_lookup_other in Hold by exact Hne. left. exact Hold.
      * right. exists (S i), o', n'. exact H.
    + intros o' [<-|Ho']; [|auto].
      eexists. apply Hkeep. apply emplace_lookup_same.
Qed.

(** What a [FinalizeArena] on an open arena with vectors of one length
    does. *)
Lemma FinalizeArena_OK s fd offsets sizes arena :
  arenas_ s !! fd = Some arena ->
  length offsets = length sizes ->
  exists objects sp calls,
    finalize_blobs fd (Arena_size arena) (Arena_base arena) offsets sizes
      (objects_ s) (spans s) = Some (objects, sp) /\
    memory.recycle_arena system_page_size (Arena_base arena)
      (Arena_size arena) offsets sizes = Some calls /\
    FinalizeArena s fd offsets sizes
    = Some (OK,
            mk _ (mmap_records_set (world_ s) (Arena_base arena) fd
                    (Arena_size arena))
               objects (externals_ s) (delete fd (arenas_ s)) sp
               (madvised s ++ calls)).
Proof.
  intros Harena Hlen. unfold FinalizeArena. rewrite Harena.
  replace (length offsets =? length sizes)%nat with true
    by (symmetry; apply Nat.eqb_eq; exact Hlen).
  cbn [negb].
  destruct (finalize_blobs_total fd (Arena_size arena) (Arena_base arena)
              offsets sizes (objects_ s) (spans s) Hlen) as [[objects sp] Hfin].
  unfold memory.recycle_arena, memory.arena_points.
  destruct (mark_points_total offsets sizes
              (memory.points_assign (Arena_size arena) 0
                 (memory.points_assign 0 0 [])) Hlen) as [points Hpts].
  exists objects, sp. rewrite Hfin, Hpts. eauto.
Qed.

End ArenaFacts.

(** X16. [FinalizeArena] on an open arena, with as many offsets as sizes,
    returns [OK]. It adds to the spans exactly the ids of the addresses
    [base + offset], registers under each of them a payload (the blob of the
    arena at that offset, of the size at the same index, unless the id was
    registered already or an earlier index gave the same id), keeps every
    payload that was registered, closes the arena, leaves the external map
    alone, records the mapping and issues the [madvise] calls of
    [recycle_arena]. *)
Theorem FinalizeArena_registers_blobs `{D : Deps} :
  forall (s : BulkStore.t) (fd : Z) (offsets sizes : list Z) (arena : Arena),
    BulkStore.arenas_ s !! fd = Some arena ->
    length offsets = length sizes ->
    exists (s' : BulkStore.t) (calls : list (Z * Z)),
      BulkStore.FinalizeArena s fd offsets sizes = Some (OK, s') /\
      memory.recycle_arena system_page_size (Arena_base arena)
        (Arena_size arena) offsets sizes = Some calls /\
      BulkStore.madvised s' = BulkStore.madvised s ++ calls /\
      BulkStore.world_ s'
      = mmap_records_set (BulkStore.world_ s) (Arena_base arena) fd
          (Arena_size arena) /\
      BulkStore.externals_ s' = BulkStore.externals_ s /\
      BulkStore.arenas_ s' = delete fd (BulkStore.arenas_ s) /\
      (forall id,
         id ∈ BulkStore.spans s' <->
         id ∈ BulkStore.spans s \/
         exists o, In o offsets /\
                   id = GenerateBlobID (wrap64 (Arena_base arena + o))) /\
      (forall id p, BulkStore.objects_ s !! id = Some p ->
                    BulkStore.objects_ s' !! id = Some p) /\
      (forall id p,
         BulkStore.objects_ s' !! id = Some p ->
         BulkStore.objects_ s !! id = Some p \/
         exists (i : nat) o n,
           offsets !! i = Some o /\ sizes !! i = Some n /\
           id = GenerateBlobID (wrap64 (Arena_base arena + o)) /\
           p = Payload_blob id n (wrap64 (Arena_base arena + o)) fd
                 (Arena_size arena) o) /\
      (forall o, In o offsets ->
         BulkStore.Exists s' (GenerateBlobID (wrap64 (Arena_base arena + o)))
         = true).
Proof.
  intros s fd offsets sizes arena Harena Hlen.
  destruct (FinalizeArena_OK s fd offsets sizes arena Harena Hlen)
    as (objects & sp & calls & Hfin & Hcalls & Hrun).
  eexists. exists calls. split; [exact Hrun|]. split; [exact Hcalls|].
  cbn [BulkStore.madvised BulkStore.world_ BulkStore.externals_
       BulkStore.arenas_ BulkStore.spans BulkStore.objects_].
  destruct (finalize_blobs_members _ _ _ _ _ _ _ _ _ Hfin)
    as (Hsp & Hobj & Hreg).
  destruct (finalize_blobs_spec _ _ _ _ _ _ _ _ _ Hfin) as (_ & Hkeep & _).
  split; [reflexivity|]. split; [reflexivity|]. split; [reflexivity|].
  split; [reflexivity|]. split; [exact Hsp|]. split; [exact Hkeep|].
  split; [exact Hobj|].
  intros o Ho. unfold BulkStore.Exists. cbn [BulkStore.objects_].
  apply bool_decide_eq_true. auto.
Qed.

Lemma FinalizeArena_registers_blobs_witness :
  (BulkStore.arenas_ demo.opened !! 4 = Some (mkArena 4 100 1048576) /\
   length [0; 50] = length [50; 50]) /\
  exists (s' : BulkStore.t) (calls : list (Z * Z)),
    BulkStore.FinalizeArena demo.opened 4 [0; 50] [50; 50] = Some (OK, s') /\
    memory.recycle_arena system_page_size 1048576 100 [0; 50] [50; 50]
    = Some calls /\
    BulkStore.madvised s' = BulkStore.madvised demo.opened ++ calls.
Proof.
  assert (H1 : BulkStore.arenas_ demo.opened !! 4
               = Some (mkArena 4 100 1048576)) by reflexivity.
  assert (H2 : length [0; 50] = length [50; 50]) by reflexivity.
  split; [auto|].
  destruct (FinalizeArena_registers_blobs demo.opened 4 [0; 50] [50; 50]
              _ H1 H2) as (s' & calls & Hrun & Hcalls & Hmad & _).
  exists s', calls. auto.
Defined.

(** X17. An arena that [MakeArena] has just opened under a descriptor that
    was not open before can be finalized: [FinalizeArena] with that
    descriptor returns [OK] for all vectors of one length, registers a blob
    at [base + offset] for every offset, where [base] is the address
    [MakeArena] returned, reclaims with that base and the size given to
    [MakeArena], and leaves the table of open arenas as it was before the
    arena was made. *)
Theorem MakeArena_then_FinalizeArena `{D : Deps} :
  forall (s s1 : BulkStore.t) (size fd base : Z) (offsets sizes : list Z),
    BulkStore.MakeArena s size = (OK, (fd, Some base), s1) ->
    BulkStore.arenas_ s !! fd = None ->
    length offsets = length sizes ->
    exists (s2 : BulkStore.t) (calls : list (Z * Z)),
      BulkStore.FinalizeArena s1 fd offsets sizes = Some (OK, s2) /\
      memory.recycle_arena system_page_size base size offsets sizes
      = Some calls /\
      BulkStore.madvised s2 = BulkStore.madvised s ++ calls /\
      BulkStore.arenas_ s2 = BulkStore.arenas_ s /\
      BulkStore.externals_ s2 = BulkStore.externals_ s /\
      (forall o, In o offsets ->
         GenerateBlobID (wrap64 (base + o)) ∈ BulkStore.spans s2 /\
         BulkStore.Exists s2 (GenerateBlobID (wrap64 (base + o))) = true) /\
      BulkStore.FinalizeArena s2 fd offsets sizes
      = Some (ObjectNotExists, s2).
Proof.
  intros s s1 size fd base offsets sizes Hmake Hfresh Hlen.
  unfold BulkStore.MakeArena in Hmake.
  destruct (create_buffer _ _) as [fd' w].
  destruct (fd' =? -1); [discriminate|].
  destruct (mmap_shared w size fd') as [space w'].
  injection Hmake as <- <- <-.
  assert (Harena : BulkStore.arenas_
                     (BulkStore.mk _ w' (BulkStore.objects_ s)
                        (BulkStore.externals_ s)
                        (BulkStore.emplace fd' (mkArena fd' size space)
                           (BulkStore.arenas_ s))
                        (BulkStore.spans s) (BulkStore.madvised s)) !! fd'
                   = Some (mkArena fd' size space)).
  { cbn [BulkStore.arenas_]. rewrite emplace_lookup_same, Hfresh.
    reflexivity. }
  destruct (FinalizeArena_OK _ fd' offsets sizes _ Harena Hlen)
    as (objects & sp & calls & Hfin & Hcalls & Hrun).
  cbn [Arena_base Arena_size BulkStore.objects_ BulkStore.spans
       BulkStore.world_ BulkStore.externals_ BulkStore.arenas_
       BulkStore.madvised] in Hfin, Hcalls, Hrun.
  eexists. exists calls. split; [exact Hrun|]. split; [exact Hcalls|].
  cbn [BulkStore.madvised BulkStore.arenas_ BulkStore.externals_
       BulkStore.spans].
  destruct (finalize_blobs_members _ _ _ _ _ _ _ _ _ Hfin)
    as (Hsp & _ & Hreg).
  assert (Hclosed : delete fd' (BulkStore.emplace fd' (mkArena fd' size space)
                                  (BulkStore.arenas_ s))
                    = BulkStore.arenas_ s).
  { unfold BulkStore.emplace. rewrite Hfresh.
    apply delete_insert_id. exact Hfresh. }
  rewrite Hclosed.
  split; [reflexivity|]. split; [reflexivity|]. split; [reflexivity|].
  split.
  - intros o Ho. split; [apply Hsp; right; exists o; auto|].
    unfold BulkStore.Exists. cbn [BulkStore.objects_].
    apply bool_decide_eq_true. auto.
  - unfold BulkStore.FinalizeArena at 1. cbn [BulkStore.arenas_].
    rewrite Hfresh. reflexivity.
Qed.

Lemma MakeArena_then_FinalizeArena_witness :
  (BulkStore.MakeArena demo.store0 100 = (OK, (4, Some 1048576), demo.opened)
   /\ BulkStore.arenas_ demo.store0 !! 4 = None
   /\ length [0; 50] = length [50; 50]) /\
  exists (s2 : BulkStore.t) (calls : list (Z * Z)),
    BulkStore.FinalizeArena demo.opened 4 [0; 50] [50; 50] = Some (OK, s2) /\
    memory.recycle_arena system_page_size 1048576 100 [0; 50] [50; 50]
    = Some calls /\
    BulkStore.arenas_ s2 = BulkStore.arenas_ demo.store0.
Proof.
  assert (H1 : BulkStore.MakeArena demo.store0 100
               = (OK, (4, Some 1048576), demo.opened)) by reflexivity.
  assert (H2 : BulkStore.arenas_ demo.store0 !! 4 = None) by reflexivity.
  assert (H3 : length [0; 50] = length [50; 50]) by reflexivity.
  split; [auto|].
  destruct (MakeArena_then_FinalizeArena demo.store0 demo.opened 100 4
              1048576 [0; 50] [50; 50] H1 H2 H3)
    as (s2 & calls & Hrun & Hcalls & _ & Har & _).
  exists s2, calls. auto.
Defined.

(** X18. Which operation can change which part of the store: the table of
    open arenas is changed by [MakeArena] and [FinalizeArena] only, the spans
    by [FinalizeArena] only, the external map by [Create] and the two
    deletions only, and [madvise] is called by [FinalizeArena] and the two
    deletions only. *)
Theorem operations_frame `{D : Deps} :
  forall (o : BulkStore.op) (s s' : BulkStore.t),
    BulkStore.exec o s = Some s' ->
    match o with
    | BulkStore.OpMakeArena _ | BulkStore.OpFinalizeArena _ _ _ => True
    | _ => BulkStore.arenas_ s' = BulkStore.arenas_ s
    end /\
    match o with
    | BulkStore.OpFinalizeArena _ _ _ => True
    | _ => BulkStore.spans s' = BulkStore.spans s
    end /\
    match o with
    | BulkStore.OpCreate _ _ _ | BulkStore.OpDelete _
    | BulkStore.OpDeleteExternal _ => True
    | _ => BulkStore.externals_ s' = BulkStore.externals_ s
    end /\
    match o with
    | BulkStore.OpFinalizeArena _ _ _ | BulkStore.OpDelete _
    | BulkStore.OpDeleteExternal _ => True
    | _ => BulkStore.madvised s' = BulkStore.madvised s
    end.
Proof.
  intros o s s'.
  destruct o as [size|dsize eid esize|id|ids|eids|id|eid|id|eid|size
                |fd offsets sizes]; cbn [BulkStore.exec]; intros Hexec;
    try (injection Hexec as <-; auto; fail).
  - injection Hexec as <-.
    destruct (PreAllocate_frame s size) as (He & Ha & Hs & Hm & _). auto.
  - injection Hexec as <-.
    destruct (Create_frame s dsize eid esize) as (Ha & Hs & Hm & _). auto.
  - destruct (BulkStore.Delete s id) as [[st s1]|] eqn:Hdel; [|discriminate].
    injection Hexec as <-. apply Delete_frame in Hdel as (Hs & Ha & _). auto.
  - destruct (BulkStore.Delete_external s eid) as [[st s1]|] eqn:Hdel;
      [|discriminate].
    injection Hexec as <-.
    apply Delete_external_cases in Hdel
      as [(_ & _ & ->)|(object & _ & Hdel)]; [auto|].
    apply Delete_frame in Hdel as (Hs & Ha & _). auto.
  - injection Hexec as <-.
    destruct (MakeArena_frame s size) as (_ & He & Hs & Hm). auto.
  - destruct (BulkStore.FinalizeArena s fd offsets sizes) as [[st s1]|]
      eqn:Hfin; [|discriminate].
    injection Hexec as <-. apply FinalizeArena_frame in Hfin as (He & _).
    auto.
Qed.

Lemma operations_frame_witness :
  BulkStore.exec (BulkStore.OpCreate 8 "e1" 0) demo.pooled
  = Some (demo.after [BulkStore.OpCreate 8 "e1" 0] demo.pooled) /\
  BulkStore.arenas_ (demo.after [BulkStore.OpCreate 8 "e1" 0] demo.pooled)
  = BulkStore.arenas_ demo.pooled.
Proof.
  assert (H : BulkStore.exec (BulkStore.OpCreate 8 "e1" 0) demo.pooled
              = Some (demo.after [BulkStore.OpCreate 8 "e1" 0] demo.pooled))
    by reflexivity.
  split; [exact H|].
  exact (proj1 (operations_frame _ _ _ H)).
Defined.

(** ** The destructor *)

Section DestructorFacts.
Context `{D : Deps}.
Import BulkStore.

(** One [Delete] of the destructor on a store that holds pool blobs only. *)
Lemma Delete_pool_only s item :
  pool_only s ->
  exists st s1,
    Delete s item = Some (st, s1) /\
    pool_only s1 /\
    madvised s1 = madvised s /\ arenas_ s1 = arenas_ s /\
    spans s1 = spans s /\
    (forall id p, objects_ s1 !! id = Some p -> objects_ s !! id = Some p) /\
    objects_ s1 !! WholeRegionID = objects_ s !! WholeRegionID /\
    (item <> EmptyBlobID -> item <> WholeRegionID ->
     objects_ s1 !! item = None).
Proof.
  intros Hpool.
  destruct (decide (item = EmptyBlobID \/ item = WholeRegionID)) as [Hid|Hid].
  { exists OK, s. split; [apply Delete_reserved; exact Hid|].
    repeat split; auto. intros H1 H2. destruct Hid; contradiction. }
  assert (H1 : item <> EmptyBlobID) by tauto.
  assert (H2 : item <> WholeRegionID) by tauto.
  destruct (objects_ s !! item) as [object|] eqn:Hobj.
  - pose proof (Hpool item object Hobj H1 H2) as Hfd.
    eexists OK, _. split; [exact (Delete_pool s item object H1 H2 Hobj Hfd)|].
    cbn [objects_ madvised arenas_ spans].
    assert (Hsub : forall id p, delete item (objects_ s) !! id = Some p ->
                                objects_ s !! id = Some p).
    { intros id p Hp. apply lookup_delete_Some in Hp as [_ Hp]. exact Hp. }
    split; [intros id p Hp; apply (Hpool id), Hsub; exact Hp|].
    split; [apply app_nil_r|]. split; [reflexivity|]. split; [reflexivity|].
    split; [exact Hsub|].
    split; [apply lookup_delete_ne; congruence|].
    intros _ _. apply lookup_delete_eq.
  - exists ObjectNotExists, s.
    split; [apply Delete_unregistered; assumption|].
    repeat split; auto.
Qed.

Lemma discard_deletes_pool_only : forall object_ids s,
  pool_only s ->
  exists s',
    discard_deletes s object_ids = Some s' /\
    pool_only s' /\
    madvised s' = madvised s /\ arenas_ s' = arenas_ s /\
    spans s' = spans s /\
    (forall id p, objects_ s' !! id = Some p -> objects_ s !! id = Some p) /\
    objects_ s' !! WholeRegionID = objects_ s !! WholeRegionID /\
    (forall id, id ∈ object_ids -> id <> EmptyBlobID -> id <> WholeRegionID ->
                objects_ s' !! id = None).
Proof.
  induction object_ids as [|item object_ids IH]; intros s Hpool.
  - exists s. cbn. repeat split; auto. intros id Hid.
    apply elem_of_nil in Hid. destruct Hid.
  - destruct (Delete_pool_only s item Hpool)
      as (st & s1 & Hdel & Hpool1 & Hm1 & Ha1 & Hs1 & Hsub1 & Hw1 & Hgone1).
    destruct (IH s1 Hpool1)
      as (s' & Hrun & Hpool' & Hm & Ha & Hs & Hsub & Hw & Hgone).
    exists s'. cbn [discard_deletes]. rewrite Hdel.
    split; [exact Hrun|]. split; [exact Hpool'|].
    split; [congruence|]. split; [congruence|]. split; [congruence|].
    split; [auto|]. split; [congruence|].
    intros id Hid H1 H2. apply elem_of_cons in Hid as [->|Hid]; [|auto].
    destruct (objects_ s' !! item) as [p|] eqn:E; [|reflexivity].
    apply Hsub in E. rewrite (Hgone1 H1 H2) in E. discriminate.
Qed.

End DestructorFacts.

(** X19. On a store that holds pool blobs only, the destructor runs to its
    end whatever the order in which the registry is iterated, and erases
    every payload but those under the two reserved ids, for which [Delete]
    does nothing: the payload of the whole region stays registered. It calls
    no [madvise] and leaves the arenas and the spans alone. *)
Theorem destructor_empties_pool_store `{D : Deps} :
  forall (s : BulkStore.t) (object_ids : list ObjectID),
    pool_only s ->
    collected s object_ids ->
    exists s' : BulkStore.t,
      BulkStore.discard_deletes s object_ids = Some s' /\
      (forall id, is_Some (BulkStore.objects_ s' !! id) ->
                  id = EmptyBlobID \/ id = BulkStore.WholeRegionID) /\
      BulkStore.objects_ s' !! BulkStore.WholeRegionID
      = BulkStore.objects_ s !! BulkStore.WholeRegionID /\
      BulkStore.madvised s' = BulkStore.madvised s /\
      BulkStore.arenas_ s' = BulkStore.arenas_ s /\
      BulkStore.spans s' = BulkStore.spans s.
Proof.
  intros s object_ids Hpool Hcoll.
  destruct (discard_deletes_pool_only object_ids s Hpool)
    as (s' & Hrun & _ & Hm & Ha & Hs & Hsub & Hw & Hgone).
  exists s'. split; [exact Hrun|]. split; [|auto].
  intros id [p Hp].
  destruct (decide (id = EmptyBlobID)) as [?|H1]; [auto|].
  destruct (decide (id = BulkStore.WholeRegionID)) as [?|H2]; [auto|].
  exfalso. pose proof (Hsub id p Hp) as Hold.
  assert (Hin : id ∈ object_ids).
  { unfold collected in Hcoll. rewrite Hcoll.
    apply list_elem_of_fmap. exists (id, p). split; [reflexivity|].
    apply elem_of_map_to_list. exact Hold. }
  rewrite (Hgone id Hin H1 H2) in Hp. discriminate.
Qed.

Lemma destructor_empties_pool_store_witness :
  (pool_only
     (demo.after [BulkStore.OpCreate 8 "" 0; BulkStore.OpCreate 8 "e1" 0]
        demo.pooled) /\
   collected
     (demo.after [BulkStore.OpCreate 8 "" 0; BulkStore.OpCreate 8 "e1" 0]
        demo.pooled)
     [Z.lor 65600 (2 ^ 63); BulkStore.WholeRegionID; demo.pool_blob]) /\
  exists s' : BulkStore.t,
    BulkStore.discard_deletes
      (demo.after [BulkStore.OpCreate 8 "" 0; BulkStore.OpCreate 8 "e1" 0]
         demo.pooled)
      [Z.lor 65600 (2 ^ 63); BulkStore.WholeRegionID; demo.pool_blob]
    = Some s' /\
    BulkStore.objects_ s' !! BulkStore.WholeRegionID
    = BulkStore.objects_
        (demo.after [BulkStore.OpCreate 8 "" 0; BulkStore.OpCreate 8 "e1" 0]
           demo.pooled) !! BulkStore.WholeRegionID /\
    (is_Some (BulkStore.objects_ s' !! demo.pool_blob) ->
     demo.pool_blob = EmptyBlobID \/ demo.pool_blob = BulkStore.WholeRegionID).
Proof.
  assert (H1 : pool_only
                 (demo.after
                    [BulkStore.OpCreate 8 "" 0; BulkStore.OpCreate 8 "e1" 0]
                    demo.pooled)).
  { assert (Hall : map_Forall
                      (fun (id : Z) (p : Payload) =>
                         id <> EmptyBlobID -> id <> BulkStore.WholeRegionID ->
                         arena_fd p = -1)
                      (BulkStore.objects_
                         (demo.after
                            [BulkStore.OpCreate 8 "" 0;
                             BulkStore.OpCreate 8 "e1" 0] demo.pooled)))
      by (refine (bool_decide_unpack _ _); vm_compute; exact I).
    intros id p Hp. exact (Hall id p Hp). }
  assert (H2 : collected
                 (demo.after
                    [BulkStore.OpCreate 8 "" 0; BulkStore.OpCreate 8 "e1" 0]
                    demo.pooled)
                 [Z.lor 65600 (2 ^ 63); BulkStore.WholeRegionID;
                  demo.pool_blob]).
  { unfold collected. vm_compute. apply perm_swap. }
  split; [auto|].
  destruct (destructor_empties_pool_store _ _ H1 H2)
    as (s' & Hrun & Hleft & Hwhole & _).
  exists s'. split; [exact Hrun|]. split; [exact Hwhole|].
  exact (Hleft demo.pool_blob).
Defined.

(** ** Command types and message tags *)

Section TagFacts.

Lemma ParseCommandType_tag (s : string) :
  ParseCommandType s <> NullCommand ->
  CommandType_tag (ParseCommandType s) = s.
Proof.
  unfold ParseCommandType.
  repeat match goal with
         | |- context [String.eqb s ?tag] =>
             destruct (String.eqb_spec s tag) as [->|?]; [reflexivity|]
         end.
  intros H. contradiction.
Qed.

Lemma CommandType_tag_parse (c : CommandType) :
  ParseCommandType (CommandType_tag c) = c.
Proof. destruct c; reflexivity. Qed.

End TagFacts.

(** X20. [ParseCommandType] is a bijection between the tags it knows and the
    command types other than [NullCommand]: every command type is the image
    of its tag ([NullCommand] that of the empty string), a string that is not
    mapped to [NullCommand] is the tag of its image, and so two different
    strings are never mapped to the same command type other than
    [NullCommand]. The values of the enumerators are pairwise different. *)
Theorem ParseCommandType_bijective :
  (forall c : CommandType, ParseCommandType (CommandType_tag c) = c) /\
  (forall s : string,
     ParseCommandType s <> NullCommand ->
     CommandType_tag (ParseCommandType s) = s) /\
  (forall s s' : string,
     ParseCommandType s = ParseCommandType s' ->
     ParseCommandType s <> NullCommand -> s = s') /\
  (forall c c' : CommandType,
     CommandType_value c = CommandType_value c' -> c = c').
Proof.
  split; [exact CommandType_tag_parse|]. split; [exact ParseCommandType_tag|].
  split.
  - intros s s' Heq Hknown.
    rewrite <- (ParseCommandType_tag s Hknown).
    rewrite <- (ParseCommandType_tag s') by congruence.
    rewrite Heq. reflexivity.
  - intros c c'. destruct c; destruct c'; intros H;
      try reflexivity; discriminate H.
Qed.

Lemma ParseCommandType_bijective_witness :
  ParseCommandType "make_arena_request" <> NullCommand /\
  CommandType_tag (ParseCommandType "make_arena_request")
  = "make_arena_request".
Proof.
  assert (H : ParseCommandType "make_arena_request" <> NullCommand)
    by discriminate.
  split; [exact H|].
  exact (proj1 (proj2 ParseCommandType_bijective) "make_arena_request" H).
Defined.

(** Reads the ["type"] field back from a document an encoder has built. *)
Ltac read_tag :=
  intros; unfold command_of; autounfold with codec;
  unfold codec.WriteExitRequest, codec.WriteGetDataRequest_one,
    codec.WriteDelDataRequest_one, codec.WriteGetBuffersRequest,
    codec.WriteGetBuffersByExternalRequest,
    codec.WriteGetRemoteBuffersRequest, codec.WriteCreateBufferReply,
    codec.WriteGetBuffersReply, codec.WriteGetNextStreamChunkReply,
    codec.encode_msg;
  repeat first
    [ rewrite at_key_set_ne by discriminate
    | rewrite at_key_set_indexed_other
        by (intros ? ?; apply pretty_Z_not_type; lia)
    | rewrite at_key_set_eq by exact I ];
  reflexivity.

(** X21. The tag every request encoder writes is one [ParseCommandType]
    knows, and it is classified as the command of that request: the requests
    for cluster meta data and for a debug command carry the tags
    [cluster_meta] and [debug_command]. *)
Theorem request_tags_dispatch :
  (forall (version : string),
     command_of (codec.WriteRegisterRequest version) = Ok RegisterRequest) /\
  command_of codec.WriteExitRequest = Ok ExitRequest /\
  (forall (id : Z) (sync_remote wait : bool),
     command_of (codec.WriteGetDataRequest_one id sync_remote wait) = Ok GetDataRequest) /\
  (forall (ids : list Z) (sync_remote wait : bool),
     command_of (codec.WriteGetDataRequest ids sync_remote wait) = Ok GetDataRequest) /\
  (forall (pattern : string) (regex : bool) (limit : Z),
     command_of (codec.WriteListDataRequest pattern regex limit) = Ok ListDataRequest) /\
  (forall (size : Z) (external_id : ExternalID) (external_size : Z),
     command_of (codec.WriteCreateBufferRequest size external_id external_size) = Ok CreateBufferRequest) /\
  (forall (size : Z),
     command_of (codec.WriteCreateRemoteBufferRequest size) = Ok CreateRemoteBufferRequest) /\
  (forall (ids : list Z),
     command_of (codec.WriteGetBuffersRequest ids) = Ok GetBuffersRequest) /\
  (forall (eids : list ExternalID),
     command_of (codec.WriteGetBuffersByExternalRequest eids) = Ok GetBuffersByExternalRequest) /\
  (forall (ids : list Z),
     command_of (codec.WriteGetRemoteBuffersRequest ids) = Ok GetRemoteBuffersRequest) /\
  (forall (id : Z),
     command_of (codec.WriteDropBufferRequest id) = Ok DropBufferRequest) /\
  (forall (content : json.t),
     command_of (codec.WriteCreateDataRequest content) = Ok CreateDataRequest) /\
  (forall (id : Z),
     command_of (codec.WritePersistRequest id) = Ok PersistRequest) /\
  (forall (id : Z),
     command_of (codec.WriteIfPersistRequest id) = Ok IfPersistRequest) /\
  (forall (id : Z),
     command_of (codec.WriteExistsRequest id) = Ok ExistsRequest) /\
  (forall (id : Z) (force deep fastpath : bool),
     command_of (codec.WriteDelDataRequest_one id force deep fastpath) = Ok DelDataRequest) /\
  (forall (ids : list Z) (force deep fastpath : bool),
     command_of (codec.WriteDelDataRequest ids force deep fastpath) = Ok DelDataRequest) /\
  command_of codec.WriteClusterMetaRequest = Ok ClusterMetaRequest /\
  command_of codec.WriteInstanceStatusRequest = Ok InstanceStatusRequest /\
  (forall (object_id : Z) (name : string),
     command_of (codec.WritePutNameRequest object_id name) = Ok PutNameRequest) /\
  (forall (name : string) (wait : bool),
     command_of (codec.WriteGetNameRequest name wait) = Ok GetNameRequest) /\
  (forall (name : string),
     command_of (codec.WriteDropNameRequest name) = Ok DropNameRequest) /\
  (forall (object_id : Z) (local is_stream : bool) (peer peer_rpc_endpoint : string),
     command_of (codec.WriteMigrateObjectRequest object_id local is_stream peer peer_rpc_endpoint) = Ok MigrateObjectRequest) /\
  (forall (object_id : Z),
     command_of (codec.WriteCreateStreamRequest object_id) = Ok CreateStreamRequest) /\
  (forall (object_id mode : Z),
     command_of (codec.WriteOpenStreamRequest object_id mode) = Ok OpenStreamRequest) /\
  (forall (stream_id size : Z),
     command_of (codec.WriteGetNextStreamChunkRequest stream_id size) = Ok GetNextStreamChunkRequest) /\
  (forall (stream_id chunk : Z),
     command_of (codec.WritePushNextStreamChunkRequest stream_id chunk) = Ok PushNextStreamChunkRequest) /\
  (forall (stream_id : Z),
     command_of (codec.WritePullNextStreamChunkRequest stream_id) = Ok PullNextStreamChunkRequest) /\
  (forall (stream_id : Z) (failed : bool),
     command_of (codec.WriteStopStreamRequest stream_id failed) = Ok StopStreamRequest) /\
  (forall (id : Z),
     command_of (codec.WriteShallowCopyRequest_plain id) = Ok ShallowCopyRequest) /\
  (forall (id : Z) (extra_metadata : json.t),
     command_of (codec.WriteShallowCopyRequest id extra_metadata) = Ok ShallowCopyRequest) /\
  (forall (object_id : Z) (peer peer_rpc_endpoint : string),
     command_of (codec.WriteDeepCopyRequest object_id peer peer_rpc_endpoint) = Ok DeepCopyRequest) /\
  (forall (size : Z),
     command_of (codec.WriteMakeArenaRequest size) = Ok MakeArenaRequest) /\
  (forall (fd : Z) (offsets sizes : list Z),
     command_of (codec.WriteFinalizeArenaRequest fd offsets sizes) = Ok FinalizeArenaRequest) /\
  command_of codec.WriteClearRequest = Ok ClearRequest /\
  (forall (debug : json.t),
     command_of (codec.WriteDebugRequest debug) = Ok DebugCommand) /\
  (forall (eid : ExternalID) (changes : Z),
     command_of (codec.WriteModifyReferenceCountRequest eid changes) = Ok ModifyReferenceCountRequest).
Proof.
  repeat split; read_tag.
Qed.

(** X22. Of the tags that the 29 reply encoders with a ["type"] assignment
    write (all the reply encoders of [protocols.cc] but [WriteErrorReply],
    which is not modelled: it only encodes the document of [Status::ToJSON],
    of a header that is not part of the sources), [ParseCommandType] knows
    three: those of the replies to register, get-data and
    modify-reference-count requests. The reply with cluster meta data carries
    the tag of its request and is classified as that request; every other
    reply, also the three that carry a payload, whatever [Payload::ToJSON]
    writes, is classified as [NullCommand]. *)
Theorem reply_tags_classification :
  (forall (version : string) (ipc_socket rpc_endpoint : string) (instance_id : Z),
     command_of
       (codec.WriteRegisterReply version ipc_socket rpc_endpoint instance_id)
     = Ok RegisterReply) /\
  (forall (content : json.t),
     command_of (codec.WriteGetDataReply content) = Ok GetDataReply) /\
  (forall (to_json : Payload -> json.t) (id : Z) (object : Payload),
     command_of
       (codec.WriteCreateBufferReply to_json id object)
     = Ok NullCommand) /\
  (forall (to_json : Payload -> json.t) (objects : list Payload),
     command_of (codec.WriteGetBuffersReply to_json objects) = Ok NullCommand) /\
  command_of codec.WriteDropBufferReply = Ok NullCommand /\
  (forall (id signature instance_id : Z),
     command_of
       (codec.WriteCreateDataReply id signature instance_id)
     = Ok NullCommand) /\
  command_of codec.WritePersistReply = Ok NullCommand /\
  (forall (persist : bool),
     command_of (codec.WriteIfPersistReply persist) = Ok NullCommand) /\
  (forall (exists_ : bool),
     command_of (codec.WriteExistsReply exists_) = Ok NullCommand) /\
  command_of codec.WriteDelDataReply = Ok NullCommand /\
  (forall (meta : json.t),
     command_of (codec.WriteClusterMetaReply meta) = Ok ClusterMetaRequest) /\
  (forall (meta : json.t),
     command_of (codec.WriteInstanceStatusReply meta) = Ok NullCommand) /\
  command_of codec.WritePutNameReply = Ok NullCommand /\
  (forall (object_id : Z),
     command_of (codec.WriteGetNameReply object_id) = Ok NullCommand) /\
  command_of codec.WriteDropNameReply = Ok NullCommand /\
  (forall (object_id : Z),
     command_of (codec.WriteMigrateObjectReply object_id) = Ok NullCommand) /\
  command_of codec.WriteCreateStreamReply = Ok NullCommand /\
  command_of codec.WriteOpenStreamReply = Ok NullCommand /\
  (forall (to_json : Payload -> json.t) (object : Payload),
     command_of
       (codec.WriteGetNextStreamChunkReply to_json object)
     = Ok NullCommand) /\
  command_of codec.WritePushNextStreamChunkReply = Ok NullCommand /\
  (forall (chunk : Z),
     command_of (codec.WritePullNextStreamChunkReply chunk) = Ok NullCommand) /\
  command_of codec.WriteStopStreamReply = Ok NullCommand /\
  (forall (target_id : Z),
     command_of (codec.WriteShallowCopyReply target_id) = Ok NullCommand) /\
  (forall (object_id : Z),
     command_of (codec.WriteDeepCopyReply object_id) = Ok NullCommand) /\
  (forall (fd size base : Z),
     command_of (codec.WriteMakeArenaReply fd size base) = Ok NullCommand) /\
  command_of codec.WriteFinalizeArenaReply = Ok NullCommand /\
  command_of codec.WriteClearReply = Ok NullCommand /\
  (forall (result_ : json.t),
     command_of (codec.WriteDebugReply result_) = Ok NullCommand) /\
  command_of codec.WriteModifyReferenceCountReply = Ok ModifyReferenceCountReply.
Proof.
  repeat split; read_tag.
Qed.

(** ** What the decoders reject *)

Section DecoderFacts.
Import codec.

Lemma ASSERT_type_mismatch {A : Type} (m : gmap string json.t) (s tag : string)
  (k : result A) :
  m !! "type" = Some (json.str s) -> s <> tag ->
  ASSERT_type (json.object m) tag k = Error AssertionFailed.
Proof.
  intros Htype Hne. unfold ASSERT_type. cbn [at_key]. rewrite Htype.
  cbn [result_bind json.eq_string].
  rewrite bool_decide_eq_false_2 by exact Hne. reflexivity.
Qed.

Lemma CHECK_IPC_ERROR_mismatch {A : Type} (m : gmap string json.t)
  (s tag : string) (k : result A) :
  m !! "type" = Some (json.str s) -> m !! "code" = None -> s <> tag ->
  CHECK_IPC_ERROR (json.object m) tag k = Error AssertionFailed.
Proof.
  intros Htype Hcode Hne. unfold CHECK_IPC_ERROR. cbn [json.contains].
  rewrite Hcode.
  rewrite bool_decide_eq_false_2 by (intros [? ?]; discriminate).
  apply ASSERT_type_mismatch with s; assumption.
Qed.

Lemma CHECK_IPC_ERROR_remote {A : Type} (m : gmap string json.t)
  (code : json.t) (c : Z) (message tag : string) (k : result A) :
  m !! "code" = Some code -> get_int code = Ok c -> c <> 0 ->
  value get_string (json.object m) "message" "" = Ok message ->
  CHECK_IPC_ERROR (json.object m) tag k = Error (Remote c message).
Proof.
  intros Hcode Hget Hc Hmsg. unfold CHECK_IPC_ERROR.
  cbn [json.contains]. rewrite Hcode.
  rewrite bool_decide_eq_true_2 by eauto.
  rewrite Hmsg. cbn [value]. rewrite Hcode, Hget. cbn [result_bind Status_ok].
  apply Z.eqb_neq in Hc. rewrite Hc. reflexivity.
Qed.

End DecoderFacts.

(** Splits a property of all the decoders of a list into one goal for each. *)
Ltac each_decoder :=
  repeat match goal with
         | |- Forall _ (_ :: _) => apply List.Forall_cons
         | |- Forall _ [] => apply List.Forall_nil
         end;
  cbn [fst snd]; cbv beta.

(** Unfolds the decoder a goal is about. *)
Ltac unfold_decoder :=
  match goal with
  | |- returned (?f _) = _ => unfold f
  | |- returned (?f _ _) = _ => unfold f
  end.

(** X23. Each of the 26 reply decoders that read no payload (every reply
    decoder of [protocols.cc] but [ReadCreateBufferReply],
    [ReadGetBuffersReply], [ReadGetNextStreamChunkReply] and the overload of
    [ReadGetDataReply] that fills a map, which are not modelled) returns the
    status of an error reply: when the document has a ["code"] that is not
    0, the decoder returns the status built from that code and from the
    ["message"] (the empty string when there is none), whatever the tag and
    the other fields of the document are. *)
Theorem error_reply_is_returned :
  forall (m : gmap string json.t) (code : json.t) (c : Z) (message : string),
    m !! "code" = Some code ->
    codec.get_int code = Ok c ->
    c <> 0 ->
    codec.value codec.get_string (json.object m) "message" "" = Ok message ->
    Forall (fun d => d.2 (json.object m) = Some (Remote c message))
      plain_reply_decoders.
Proof.
  intros m code c message Hcode Hget Hc Hmsg. unfold plain_reply_decoders.
  each_decoder;
    unfold_decoder;
    rewrite (CHECK_IPC_ERROR_remote m code c message) by assumption;
    reflexivity.
Qed.

Lemma error_reply_is_returned_witness :
  (({[ "code" := json.number_integer 3;
       "message" := json.str "not found" ]} : gmap string json.t) !! "code"
   = Some (json.number_integer 3) /\
   codec.get_int (json.number_integer 3) = Ok 3 /\
   3 <> 0 /\
   codec.value codec.get_string
     (json.object {[ "code" := json.number_integer 3;
                     "message" := json.str "not found" ]}) "message" ""
   = Ok "not found") /\
  Forall
    (fun d =>
       d.2 (json.object {[ "code" := json.number_integer 3;
                           "message" := json.str "not found" ]})
       = Some (Remote 3 "not found"))
    plain_reply_decoders.
Proof.
  assert (H1 : ({[ "code" := json.number_integer 3;
                   "message" := json.str "not found" ]}
                : gmap string json.t) !! "code"
               = Some (json.number_integer 3)) by reflexivity.
  assert (H2 : codec.get_int (json.number_integer 3) = Ok 3) by reflexivity.
  assert (H3 : 3 <> 0) by lia.
  assert (H4 : codec.value codec.get_string
                 (json.object {[ "code" := json.number_integer 3;
                                 "message" := json.str "not found" ]})
                 "message" ""
               = Ok "not found") by reflexivity.
  split; [auto|].
  exact (error_reply_is_returned _ _ 3 "not found" H1 H2 H3 H4).
Defined.

(** X24. A decoder rejects a message that carries another tag: on a document
    whose ["type"] is a string other than the tag the decoder expects, and
    that is not an error reply, each of the 33 request decoders and each of
    the 26 reply decoders that read no payload (the four reply decoders left
    out of X23 are left out here as well) returns the status of a failed
    assertion, before it reads any other field. *)
Theorem foreign_message_is_rejected :
  forall (m : gmap string json.t) (s : string),
    m !! "type" = Some (json.str s) ->
    m !! "code" = None ->
    Forall (fun d => s <> d.1 -> d.2 (json.object m) = Some AssertionFailed)
      (request_decoders ++ plain_reply_decoders).
Proof.
  intros m s Htype Hcode. unfold request_decoders, plain_reply_decoders.
  cbn [app].
  each_decoder; intros Hne; unfold_decoder;
    first
      [ rewrite (ASSERT_type_mismatch m s) by assumption; reflexivity
      | rewrite (CHECK_IPC_ERROR_mismatch m s) by assumption; reflexivity
      | cbn [codec.at_key]; rewrite Htype;
        cbn [result_bind codec.get_string];
        rewrite bool_decide_eq_false_2 by exact Hne; reflexivity ].
Qed.

Lemma foreign_message_is_rejected_witness :
  (({[ "type" := json.str "make_arena_request";
       "size" := json.number_unsigned 100 ]} : gmap string json.t) !! "type"
   = Some (json.str "make_arena_request") /\
   ({[ "type" := json.str "make_arena_request";
       "size" := json.number_unsigned 100 ]} : gmap string json.t) !! "code"
   = None) /\
  Forall
    (fun d =>
       "make_arena_request" <> d.1 ->
       d.2 (json.object {[ "type" := json.str "make_arena_request";
                           "size" := json.number_unsigned 100 ]})
       = Some AssertionFailed)
    (request_decoders ++ plain_reply_decoders).
Proof.
  assert (H1 : ({[ "type" := json.str "make_arena_request";
                   "size" := json.number_unsigned 100 ]}
                : gmap string json.t) !! "type"
               = Some (json.str "make_arena_request")) by reflexivity.
  assert (H2 : ({[ "type" := json.str "make_arena_request";
                   "size" := json.number_unsigned 100 ]}
                : gmap string json.t) !! "code" = None) by reflexivity.
  split; [auto|].
  exact (foreign_message_is_rejected _ "make_arena_request" H1 H2).
Defined.

(** X25. Fields a decoder reads with a default may be left out: a register
    request or reply without a version decodes to version [0.0.0], and the
    flags of the get-data, list-data and del-data requests and of the
    if-persist and exists replies decode to [false] when they are absent. *)
Theorem optional_fields_default :
  forall m : gmap string json.t,
    (m !! "type" = Some (json.str "register_request") ->
     m !! "version" = None ->
     codec.ReadRegisterRequest (json.object m) = Ok "0.0.0") /\
    (forall ipc_socket rpc_endpoint instance_id,
       m !! "type" = Some (json.str "register_reply") ->
       m !! "code" = None ->
       m !! "ipc_socket" = Some (json.str ipc_socket) ->
       m !! "rpc_endpoint" = Some (json.str rpc_endpoint) ->
       m !! "instance_id" = Some (json.number_unsigned instance_id) ->
       is_uint64 instance_id ->
       m !! "version" = None ->
       codec.ReadRegisterReply (json.object m)
       = Ok (ipc_socket, rpc_endpoint, instance_id, "0.0.0")) /\
    (forall ids,
       m !! "type" = Some (json.str "get_data_request") ->
       m !! "id" = Some (codec.of_uint64s ids) ->
       Forall is_uint64 ids ->
       m !! "sync_remote" = None -> m !! "wait" = None ->
       codec.ReadGetDataRequest (json.object m) = Ok (ids, false, false)) /\
    (forall pattern limit,
       m !! "type" = Some (json.str "list_data_request") ->
       m !! "pattern" = Some (json.str pattern) ->
       m !! "limit" = Some (json.number_unsigned limit) ->
       is_uint64 limit ->
       m !! "regex" = None ->
       codec.ReadListDataRequest (json.object m)
       = Ok (pattern, false, limit)) /\
    (forall ids,
       m !! "type" = Some (json.str "del_data_request") ->
       m !! "id" = Some (codec.of_uint64s ids) ->
       Forall is_uint64 ids ->
       m !! "force" = None -> m !! "deep" = None ->
       m !! "fastpath" = None ->
       codec.ReadDelDataRequest (json.object m)
       = Ok (ids, false, false, false)) /\
    (m !! "type" = Some (json.str "if_persist_reply") ->
     m !! "code" = None -> m !! "persist" = None ->
     codec.ReadIfPersistReply (json.object m) = Ok false) /\
    (m !! "type" = Some (json.str "exists_reply") ->
     m !! "code" = None -> m !! "exists" = None ->
     codec.ReadExistsReply (json.object m) = Ok false).
Proof.
  intros m.
  repeat split; intros; autounfold with codec;
    cbn [json.contains codec.at_key codec.value];
    repeat match goal with
           | H : m !! _ = _ |- _ => rewrite H
           end;
    rewrite ?bool_decide_eq_false_2 by (intros [? ?]; discriminate);
    cbn [result_bind json.eq_string codec.get_string];
    rewrite ?bool_decide_eq_true_2 by reflexivity;
    rewrite ?get_vector_uint64s by assumption;
    rewrite ?get_uint64_unsigned by assumption;
    reflexivity.
Qed.

Lemma optional_fields_default_witness :
  (({[ "type" := json.str "register_request" ]} : gmap string json.t)
     !! "type" = Some (json.str "register_request") /\
   ({[ "type" := json.str "register_request" ]} : gmap string json.t)
     !! "version" = None) /\
  codec.ReadRegisterRequest
    (json.object {[ "type" := json.str "register_request" ]})
  = Ok "0.0.0".
Proof.
  assert (H1 : ({[ "type" := json.str "register_request" ]}
                : gmap string json.t) !! "type"
               = Some (json.str "register_request")) by reflexivity.
  assert (H2 : ({[ "type" := json.str "register_request" ]}
                : gmap string json.t) !! "version" = None) by reflexivity.
  split; [auto|].
  exact (proj1 (optional_fields_default _) H1 H2).
Defined.

(** ** Allocation failures *)

(** X26. [PreAllocate], [Create] and [MakeArena] return [OK] or
    [NotEnoughMemory]. When the allocator (or the buffer creation) fails they
    return [NotEnoughMemory] and register nothing: the registry, the external
    map, the open arenas, the spans and the [madvise] trace are as before,
    [Create] assigns neither the id nor the payload, and [MakeArena] assigns
    the descriptor -1 and no base. [AllocateMemory] asks for the mapping
    data of a pointer only when the pointer is not null. *)
Theorem allocation_failures_register_nothing `{D : Deps} :
  forall (s : BulkStore.t) (size : Z) (eid : ExternalID) (esize : Z),
    let unchanged (s' : BulkStore.t) :=
      BulkStore.objects_ s' = BulkStore.objects_ s /\
      BulkStore.externals_ s' = BulkStore.externals_ s /\
      BulkStore.arenas_ s' = BulkStore.arenas_ s /\
      BulkStore.spans s' = BulkStore.spans s /\
      BulkStore.madvised s' = BulkStore.madvised s in
    (fst (BulkStore.PreAllocate s size) = OK \/
     fst (BulkStore.PreAllocate s size) = NotEnoughMemory /\
     unchanged (snd (BulkStore.PreAllocate s size))) /\
    (fst (fst (BulkStore.Create s size eid esize)) = OK /\
     is_Some (snd (fst (BulkStore.Create s size eid esize))) \/
     fst (fst (BulkStore.Create s size eid esize)) = NotEnoughMemory /\
     snd (fst (BulkStore.Create s size eid esize)) = None /\
     size <> 0 /\
     unchanged (snd (BulkStore.Create s size eid esize))) /\
    (fst (fst (BulkStore.MakeArena s size)) = OK /\
     (exists fd base,
        snd (fst (BulkStore.MakeArena s size)) = (fd, Some base) /\
        fd <> -1) \/
     fst (fst (BulkStore.MakeArena s size)) = NotEnoughMemory /\
     snd (fst (BulkStore.MakeArena s size)) = (-1, None) /\
     unchanged (snd (BulkStore.MakeArena s size))) /\
    (forall w fd map_size offset,
       fst (fst (BulkStore.AllocateMemory w size fd map_size offset)) = 0 ->
       snd (fst (BulkStore.AllocateMemory w size fd map_size offset))
       = (fd, map_size, offset)).
Proof.
  intros s size eid esize unchanged. subst unchanged. cbv beta.
  split; [|split; [|split]].
  - unfold BulkStore.PreAllocate.
    destruct (BulkAllocator_Init _ _) as [pointer w].
    destruct (pointer =? 0); [right; cbn; auto 10|].
    destruct (GetMallocMapinfo w pointer) as [[fd map_size] offset].
    left. reflexivity.
  - unfold BulkStore.Create.
    destruct (size =? 0) eqn:Hsize; [left; cbn; eauto|].
    apply Z.eqb_neq in Hsize.
    destruct (BulkStore.AllocateMemory _ _ _ _ _)
      as [[pointer [[fd ms] off]] w].
    destruct (pointer =? 0); [right; cbn; auto 10|left; cbn; eauto].
  - unfold BulkStore.MakeArena.
    destruct (create_buffer _ _) as [fd w].
    destruct (fd =? -1) eqn:Hfd.
    + apply Z.eqb_eq in Hfd. subst fd. right. cbn. auto 10.
    + apply Z.eqb_neq in Hfd.
      destruct (mmap_shared w size fd) as [space w']. left. cbn. eauto.
  - intros w fd map_size offset. unfold BulkStore.AllocateMemory.
    destruct (BulkAllocator_Memalign w size kBlockSize) as [pointer w'].
    destruct (pointer =? 0) eqn:Hnull; [reflexivity|].
    cbn. intros ->. discriminate.
Qed.

Lemma allocation_failures_register_nothing_witness :
  fst (fst (BulkStore.AllocateMemory demo.start 8 (-1) 0 0)) = 0 /\
  snd (fst (BulkStore.AllocateMemory demo.start 8 (-1) 0 0)) = (-1, 0, 0) /\
  fst (fst (BulkStore.Create demo.store0 8 "e1" 0)) = NotEnoughMemory.
Proof.
  assert (H : fst (fst (BulkStore.AllocateMemory demo.start 8 (-1) 0 0)) = 0)
    by reflexivity.
  split; [exact H|].
  split; [|reflexivity].
  exact (proj2 (proj2 (proj2 (allocation_failures_register_nothing
                                demo.store0 8 "e1" 0)))
           demo.start (-1) 0 0 H).
Defined.
